(** * Ticket scanner: a shallow embedding of [identify_ticket_details.py]

    The development follows the pipeline of [TicketScanner.scan]:
    loader, type classifier, configuration selector, field extractor and
    reference synthesis, together with the command-line entry point.

    Modelling conventions.
    - Python [str] is [string]; one [ascii] stands for one character with a
      code point below 256, and case mapping acts on the letters of this
      range.
    - Python [float] is the kernel's binary64 [float]; Python [int] is [Z].
      A region ratio is a number of either kind, as the configurations write
      them; [int(...)] truncates towards zero and raises on an infinity and
      on NaN.
    - Python [dict] is [gmap string _]; only membership and lookup are used.
    - OpenCV, Tesseract, the regular-expression engine and the clock are
      collaborators of the scanner: they are the fields of the class
      [Externals], taken on the runs in which they return.
    - The file system is a collaborator too: the debug directory is taken
      to exist or to be created, and the debug files to be written; what
      the scanner writes is kept as a trace. *)

From Stdlib Require Import ZArith QArith Qround Qpower Floats String Ascii List Lia Lqa.
From stdpp Require Import base option list strings gmap.

Set Warnings "-inexact-float,-register-all".
Set Default Proof Using "Type".

Local Open Scope string_scope.

(** ** Python strings *)

Module Py.

Definition code (c : ascii) : nat := nat_of_ascii c.

(** The capital letters below 256: A to Z, and 192 to 222 but for the
    multiplication sign 215. *)
Definition is_upper (c : ascii) : bool :=
  ((65 <=? code c)%nat && (code c <=? 90)%nat)
  || ((192 <=? code c)%nat && (code c <=? 222)%nat && negb (code c =? 215)%nat).

(** The small letters below 256 whose capital is 32 below: a to z, and 224
    to 254 but for the division sign 247. *)
Definition is_lower (c : ascii) : bool :=
  ((97 <=? code c)%nat && (code c <=? 122)%nat)
  || ((224 <=? code c)%nat && (code c <=? 254)%nat && negb (code c =? 247)%nat).

Definition lower_char (c : ascii) : ascii :=
  if is_upper c then ascii_of_nat (code c + 32) else c.

(** The capital form of a character: the sharp s (223) becomes two
    letters. The capital forms of the micro sign (181) and of the y with
    diaeresis (255) have code points above 255; these two characters are
    outside the model and are left as they are. *)
Definition upper_char (c : ascii) : string :=
  if is_lower c then String (ascii_of_nat (code c - 32)) EmptyString
  else if (code c =? 223)%nat then "SS"
  else String c EmptyString.

(** [s.lower()] *)
Fixpoint lower (s : string) : string :=
  match s with
  | EmptyString => EmptyString
  | String c s' => String (lower_char c) (lower s')
  end.

(** [s.upper()] *)
Fixpoint upper (s : string) : string :=
  match s with
  | EmptyString => EmptyString
  | String c s' => upper_char c ++ upper s'
  end.

(** [c.isspace()] for code points below 256 *)
Definition isspace (c : ascii) : bool :=
  let n := code c in
  ((9 <=? n)%nat && (n <=? 13)%nat) || ((28 <=? n)%nat && (n <=? 32)%nat)
  || (n =? 133)%nat || (n =? 160)%nat.

Fixpoint lstrip (s : string) : string :=
  match s with
  | EmptyString => EmptyString
  | String c s' => if isspace c then lstrip s' else s
  end.

Definition rstrip (s : string) : string :=
  String.rev (lstrip (String.rev s)).

(** [s.strip()] *)
Definition strip (s : string) : string := rstrip (lstrip s).

(** [s.find(pat)]: index of the first occurrence, [None] for Python's -1 *)
Fixpoint find (pat s : string) : option nat :=
  if String.prefix pat s then Some O
  else match s with
       | EmptyString => None
       | String _ s' => S <$> find pat s'
       end.

(** [pat in s] *)
Definition contains (pat s : string) : bool :=
  match find pat s with Some _ => true | None => false end.

(** [any(pat in s for pat in pats)] *)
Definition any_in (pats : list string) (s : string) : bool :=
  existsb (fun pat => contains pat s) pats.

(** [s[lo:lo+n]] for [lo], [n] non-negative *)
Definition slice (lo n : nat) (s : string) : string := String.substring lo n s.

(** [s[:n]] *)
Definition take (n : nat) (s : string) : string := String.substring 0 n s.

(** [s[-n:]] for [n] positive *)
Definition last_chars (n : nat) (s : string) : string :=
  String.substring (String.length s - n) n s.

(** [s.split('\n')[0]] *)
Fixpoint first_line (s : string) : string :=
  match s with
  | EmptyString => EmptyString
  | String c s' => if (code c =? 10)%nat then EmptyString else String c (first_line s')
  end.

(** [sep.join(parts)] *)
Definition join (sep : string) (parts : list string) : string :=
  String.concat sep parts.

(** [s.replace(old, new)] for a non-empty [old]: occurrences are replaced
    from the left and do not overlap. [skip] counts the characters of an
    occurrence that are still to be passed over. *)
Fixpoint replace_go (old new : string) (skip : nat) (s : string) : string :=
  match s with
  | EmptyString => EmptyString
  | String c s' =>
      match skip with
      | S k => replace_go old new k s'
      | O =>
          if String.prefix old s
          then new ++ replace_go old new (String.length old - 1) s'
          else String c (replace_go old new O s')
      end
  end.

Definition replace (old new s : string) : string := replace_go old new O s.

(** Removal of every character satisfying [p]: [re.sub] of a character
    class with the empty string. *)
Fixpoint remove_chars (p : ascii -> bool) (s : string) : string :=
  match s with
  | EmptyString => EmptyString
  | String c s' => if p c then remove_chars p s' else String c (remove_chars p s')
  end.

Definition is_digit (c : ascii) : bool :=
  (48 <=? code c)%nat && (code c <=? 57)%nat.

Fixpoint all_chars (p : ascii -> bool) (s : string) : bool :=
  match s with
  | EmptyString => true
  | String c s' => p c && all_chars p s'
  end.

Definition digit_char (d : Z) : ascii := ascii_of_nat (48 + Z.to_nat d).

(** Decimal digits of a non-negative integer, least significant first,
    pushed in front of [acc]. *)
Fixpoint digits_acc (fuel : nat) (n : Z) (acc : string) : string :=
  match fuel with
  | O => acc
  | S fuel' =>
      let acc' := String (digit_char (n mod 10)) acc in
      if (n <? 10)%Z then acc' else digits_acc fuel' (n / 10) acc'
  end.

(** [str(n)] for an integer [n] *)
Definition str_of_int (n : Z) : string :=
  if (n <? 0)%Z
  then String "-" (digits_acc (S (Z.to_nat (Z.log2 (- n)))) (- n) "")
  else digits_acc (S (Z.to_nat (Z.log2 n))) n "".

(** A slice [a[lo:hi]] along an axis of length [n]: negative bounds count
    from the end, and both bounds are clamped to the axis. *)
Definition slice_bound (i n : Z) : Z :=
  if (i <? 0)%Z then Z.max 0 (i + n) else Z.min i n.

Definition slice_len (lo hi n : Z) : Z :=
  Z.max 0 (slice_bound hi n - slice_bound lo n).

End Py.

(** ** Exceptions and outcomes *)

Inductive exn :=
| ValueError (msg : string)
| TypeError (msg : string)
| KeyError (key : string)
| OverflowError (msg : string)
| ZeroDivisionError (msg : string).

(** [str(e)] *)
Definition str_of_exn (e : exn) : string :=
  match e with
  | ValueError msg => msg
  | TypeError msg => msg
  | KeyError key => "'" ++ key ++ "'"
  | OverflowError msg => msg
  | ZeroDivisionError msg => msg
  end.

(** The outcome of a call: a value or an exception. *)
Inductive outcome (A : Type) :=
| Return (a : A)
| Raise (e : exn).
Arguments Return {A} a.
Arguments Raise {A} e.

Definition outcome_bind {A B : Type} (o : outcome A) (k : A -> outcome B) : outcome B :=
  match o with
  | Return a => k a
  | Raise e => Raise e
  end.

(** ** Python numbers *)

Inductive pynum :=
| PInt (z : Z)
| PFloat (f : float).

Global Instance pynum_inhabited : Inhabited pynum := populate (PInt 0).

(** [float(z)] for an integer below [2 ^ 63] in absolute value; the
    conversion rounds to nearest and is exact below [2 ^ 53]. *)
Definition float_of_int (z : Z) : float :=
  if (z <? 0)%Z then PrimFloat.opp (PrimFloat.of_uint63 (Uint63.of_Z (- z)))
  else PrimFloat.of_uint63 (Uint63.of_Z z).

Definition to_float (n : pynum) : float :=
  match n with PInt z => float_of_int z | PFloat f => f end.

(** Arithmetic keeps integers and turns to binary64 as soon as one operand
    is a float. *)
Definition py_add (a b : pynum) : pynum :=
  match a, b with
  | PInt x, PInt y => PInt (x + y)
  | _, _ => PFloat (to_float a + to_float b)
  end.

Definition py_sub (a b : pynum) : pynum :=
  match a, b with
  | PInt x, PInt y => PInt (x - y)
  | _, _ => PFloat (to_float a - to_float b)
  end.

Definition py_mul (a b : pynum) : pynum :=
  match a, b with
  | PInt x, PInt y => PInt (x * y)
  | _, _ => PFloat (to_float a * to_float b)
  end.

(** [a > b] *)
Definition py_gt (a b : pynum) : bool :=
  match a, b with
  | PInt x, PInt y => (y <? x)%Z
  | _, _ => PrimFloat.ltb (to_float b) (to_float a)
  end.

(** [a / b] for two integers *)
Definition int_truediv (a b : Z) : outcome float :=
  if (b =? 0)%Z then Raise (ZeroDivisionError "division by zero")
  else Return (float_of_int a / float_of_int b)%float.

(** [int(f)]: truncation towards zero; an infinity and NaN raise. *)
Definition int_of_float (f : float) : outcome Z :=
  match Prim2SF f with
  | S754_zero _ => Return 0%Z
  | S754_finite s m e =>
      let a := if (0 <=? e)%Z then (Zpos m * 2 ^ e)%Z else (Zpos m / 2 ^ (- e))%Z in
      Return (if s then (- a)%Z else a)
  | S754_infinity _ => Raise (OverflowError "cannot convert float infinity to integer")
  | S754_nan => Raise (ValueError "cannot convert float NaN to integer")
  end.

(** [int(n)] *)
Definition py_int (n : pynum) : outcome Z :=
  match n with
  | PInt z => Return z
  | PFloat f => int_of_float f
  end.

(** ** Data model *)

(** [TicketField]: [region] is [(x1, y1, x2, y2)] as ratios of width and height. *)
Record TicketField := {
  name : string;
  patterns : list string;
  region : option (pynum * pynum * pynum * pynum)
}.

(** Values stored in [extracted_data]: field texts and the generated-reference flag. *)
Inductive pyval :=
| PStr (s : string)
| PBool (b : bool).

(** A match object: the whole match, [group(0)], and the capture groups,
    [None] for a group that took no part in the match. *)
Record re_match := {
  whole : string;
  captures : list (option string)
}.

(** [match.group(0)] *)
Definition group_0 (m : re_match) : string := whole m.

(** The flags of [re]. *)
Definition IGNORECASE : Z := 2.
Definition MULTILINE : Z := 8.

(** The collaborators of the scanner. The measurements of the classifier
    and of the two geometric stages are the quantities that the source
    tests; the images that OpenCV builds on the way are functions of the
    image they are built from. *)
Class Externals := {
  image : Type;
  contour : Type;
  (** [cv2.imread]: [None] when the file cannot be decoded *)
  imread : string -> option image;
  (** [os.path.splitext(os.path.basename(path))[0]] *)
  path_stem : string -> string;
  img_height : image -> Z;
  img_width : image -> Z;
  (** [image.shape[2]] when the array has three axes *)
  img_channels : image -> option Z;
  (** [np.count_nonzero(mask) / mask.size] over the top tenth *)
  orange_fraction : image -> float;
  (** [np.std(gray - blur)] *)
  texture_measure : image -> float;
  (** the angles of the segments of [cv2.HoughLinesP], [None] when it returns [None] *)
  hough_angles : image -> option (list float);
  np_std : list float -> float;
  (** [np.std] of the L channel *)
  illumination_var : image -> float;
  (** first component of [detectAndDecode], as a truth value *)
  qr_detected : image -> bool;
  (** [pytesseract.image_to_string] *)
  image_to_string : image -> string;
  (** [_preprocess_image], paper: the angles of the segments that
      [cv2.HoughLinesP] finds on the edges of the adaptive threshold, [None]
      when it returns [None] *)
  threshold_angles : image -> option (list float);
  (** whether [cv2.findContours] finds a contour on these edges *)
  threshold_contours : image -> bool;
  (** [cv2.warpPerspective] onto the rectangle of the largest contour *)
  warp_ticket : image -> image;
  (** [cv2.cvtColor(thresh, cv2.COLOR_GRAY2BGR)] *)
  threshold_image : image -> image;
  (** [_preprocess_image], digital: the image after [clahe.apply] *)
  enhance_image : image -> image;
  (** [_crop_ticket]: [cv2.findContours] on the edges of the image *)
  find_contours : image -> list contour;
  contour_area : contour -> float;
  (** [len(cv2.approxPolyDP(contour, 0.02 * peri, True))] *)
  approx_points : contour -> nat;
  (** [cv2.boundingRect] of the approximation, as [(x, y, w, h)] *)
  approx_rect : contour -> Z * Z * Z * Z;
  (** the rectangle around a set of points is at least one pixel high *)
  approx_rect_height : forall c, (0 <? (approx_rect c).2)%Z = true;
  (** [cv2.boundingRect(contour)] *)
  bounding_rect : contour -> Z * Z * Z * Z;
  (** [image[y1:y2, x1:x2]] *)
  img_slice : image -> Z -> Z -> Z -> Z -> image;
  (** [re.search(pattern, text, flags)] *)
  re_search : string -> string -> Z -> option re_match;
  (** [int(time.time())] *)
  time_now : Z
}.

Section Scanner.
Context `{E : Externals}.

(** The scanner object, followed by the two traces of its calls to the
    outside: debug files written (directory and file name) and regular
    expression searches performed (pattern, text and flags). *)
Record scanner := {
  configurations : gmap string (list TicketField);
  ticket_type : option string;
  extracted_data : gmap string pyval;
  confidence_scores : gmap string float;
  preprocessed_image : option image;
  debug_roi : bool;
  debug_dir : string;
  image_basename : string;
  written : list (string * string);
  searched : list (string * string * Z)
}.

Definition set_ticket_type (v : option string) (s : scanner) : scanner :=
  {| configurations := configurations s; ticket_type := v;
     extracted_data := extracted_data s; confidence_scores := confidence_scores s;
     preprocessed_image := preprocessed_image s; debug_roi := debug_roi s;
     debug_dir := debug_dir s; image_basename := image_basename s;
     written := written s; searched := searched s |}.

Definition set_extracted_data (v : gmap string pyval) (s : scanner) : scanner :=
  {| configurations := configurations s; ticket_type := ticket_type s;
     extracted_data := v; confidence_scores := confidence_scores s;
     preprocessed_image := preprocessed_image s; debug_roi := debug_roi s;
     debug_dir := debug_dir s; image_basename := image_basename s;
     written := written s; searched := searched s |}.

Definition set_confidence_scores (v : gmap string float) (s : scanner) : scanner :=
  {| configurations := configurations s; ticket_type := ticket_type s;
     extracted_data := extracted_data s; confidence_scores := v;
     preprocessed_image := preprocessed_image s; debug_roi := debug_roi s;
     debug_dir := debug_dir s; image_basename := image_basename s;
     written := written s; searched := searched s |}.

Definition set_preprocessed_image (v : option image) (s : scanner) : scanner :=
  {| configurations := configurations s; ticket_type := ticket_type s;
     extracted_data := extracted_data s; confidence_scores := confidence_scores s;
     preprocessed_image := v; debug_roi := debug_roi s;
     debug_dir := debug_dir s; image_basename := image_basename s;
     written := written s; searched := searched s |}.

Definition set_image_basename (v : string) (s : scanner) : scanner :=
  {| configurations := configurations s; ticket_type := ticket_type s;
     extracted_data := extracted_data s; confidence_scores := confidence_scores s;
     preprocessed_image := preprocessed_image s; debug_roi := debug_roi s;
     debug_dir := debug_dir s; image_basename := v;
     written := written s; searched := searched s |}.

Definition set_written (v : list (string * string)) (s : scanner) : scanner :=
  {| configurations := configurations s; ticket_type := ticket_type s;
     extracted_data := extracted_data s; confidence_scores := confidence_scores s;
     preprocessed_image := preprocessed_image s; debug_roi := debug_roi s;
     debug_dir := debug_dir s; image_basename := image_basename s;
     written := v; searched := searched s |}.

Definition set_searched (v : list (string * string * Z)) (s : scanner) : scanner :=
  {| configurations := configurations s; ticket_type := ticket_type s;
     extracted_data := extracted_data s; confidence_scores := confidence_scores s;
     preprocessed_image := preprocessed_image s; debug_roi := debug_roi s;
     debug_dir := debug_dir s; image_basename := image_basename s;
     written := written s; searched := v |}.

(** ** A state and exception monad for the methods of the scanner *)

Definition M (A : Type) : Type := scanner -> outcome A * scanner.

Definition ret {A} (a : A) : M A := fun s => (Return a, s).

Definition raise {A} (e : exn) : M A := fun s => (Raise e, s).

Definition bind {A B} (m : M A) (k : A -> M B) : M B :=
  fun s => match m s with
           | (Return a, s') => k a s'
           | (Raise e, s') => (Raise e, s')
           end.

Definition get : M scanner := fun s => (Return s, s).

(** A computation that does not touch the scanner. *)
Definition lift {A} (o : outcome A) : M A := fun s => (o, s).

Definition modify (f : scanner -> scanner) : M unit := fun s => (Return tt, f s).

Notation "x <~ m ;; k" := (bind m (fun x => k))
  (at level 100, m at next level, right associativity).
Notation "m ;;; k" := (bind m (fun _ => k))
  (at level 100, right associativity).

(** [if self.debug_roi: cv2.imwrite(os.path.join(self.debug_dir, f"{self.image_basename}<suffix>"), ...)] *)
Definition debug_write (suffix : string) : M unit :=
  fun s =>
    if debug_roi s
    then (Return tt, set_written (written s ++ [(debug_dir s, image_basename s ++ suffix)]) s)
    else (Return tt, s).

(** ** Type classifier: [_determine_ticket_type] *)

Definition initial_features : gmap string pynum :=
  <["digital_elements" := PInt 0]>
    (<["shadow" := PInt 0]>
      (<["perspective" := PInt 0]>
        (<["texture" := PInt 0]>
          (<["orange_bar" := PInt 0]> ∅)))).

Definition indicator (b : bool) : pynum := if b then PInt 1 else PInt 0.

(** [features[k] += d] *)
Definition increment (k : string) (d : pynum) (features : gmap string pynum)
  : gmap string pynum :=
  <[k := py_add (features !!! k) d]> features.

Definition wallet_phrases : list string :=
  ["add to wallet"; "google wallet"; "show railcard"; "eticket"].

(** The perspective feature. When [HoughLinesP] returns [None] the branch
    that resets the feature also holds the debug drawing loop
    [for line in lines], which iterates over [None]. *)
Definition perspective_feature (img : image) (features : gmap string pynum)
  : M (gmap string pynum) :=
  match hough_angles img with
  | Some angles =>
      let angle_variation :=
        match angles with [] => 0%float | _ => np_std angles end in
      ret (<["perspective" := indicator (PrimFloat.ltb 0.05 angle_variation)]> features)
  | None =>
      let features := <["perspective" := PInt 0]> features in
      s <~ get ;;
      if debug_roi s
      then raise (TypeError "'NoneType' object is not iterable")
      else ret features
  end.

(** Lines 117 to 228: the five features. *)
Definition extract_features (img : image) : M (gmap string pynum) :=
  let features := initial_features in
  debug_write "_top_region.jpg" ;;;
  debug_write "_orange_mask.jpg" ;;;
  let features :=
    <["orange_bar" := indicator (PrimFloat.ltb 0.2 (orange_fraction img))]> features in
  debug_write "_texture.jpg" ;;;
  let features :=
    <["texture" := indicator (PrimFloat.ltb 10 (texture_measure img))]> features in
  debug_write "_edges.jpg" ;;;
  features <~ perspective_feature img features ;;
  let features :=
    if bool_decide (img_channels img = Some 3%Z)
    then <["shadow" := indicator (PrimFloat.ltb 15 (illumination_var img))]> features
    else <["shadow" := PInt 0]> features in
  debug_write "_threshold.jpg" ;;;
  let features :=
    if qr_detected img then increment "digital_elements" (PInt 1) features
    else features in
  let text := image_to_string img in
  debug_write "_ocr_text.txt" ;;;
  let features :=
    if Py.any_in wallet_phrases (Py.lower text)
    then increment "digital_elements" (PFloat 2) features
    else features in
  ret features.

Definition paper_score (features : gmap string pynum) : pynum :=
  py_sub
    (py_add
      (py_add
        (py_add (py_mul (features !!! "orange_bar") (PFloat 1.5))
                (py_mul (features !!! "texture") (PFloat 1.0)))
        (py_mul (features !!! "perspective") (PFloat 0.8)))
      (py_mul (features !!! "shadow") (PFloat 0.7)))
    (py_mul (features !!! "digital_elements") (PFloat 2.0)).

Definition determine_ticket_type (img : image) : M string :=
  features <~ extract_features img ;;
  let score := paper_score features in
  debug_write "_features.json" ;;;
  ret (if py_gt score (PFloat 0.5) then "paper" else "digital").

(** ** Configuration selector: [_select_configuration] *)

(** The dictionary literal of the selector, in insertion order. *)
Definition issuer_indicators : list (string * list string) :=
  [ ("gwr", ["great western"; "gwr"]);
    ("lner", ["lner"; "london north eastern"]);
    ("tfl", ["transport for london"; "tfl"; "oyster"]);
    ("avanti", ["avanti"; "west coast"]);
    ("trainline_app", ["trainline"; "mobile ticket"; "qr code"]);
    ("generic_digital", []) ].

Fixpoint first_indicated (table : list (string * list string)) (text : string)
  : option string :=
  match table with
  | [] => None
  | (config_name, indicators) :: table' =>
      if Py.any_in indicators (Py.lower text) then Some config_name
      else first_indicated table' text
  end.

Definition select_configuration (img : image) : M string :=
  let text := image_to_string img in
  debug_write "_config_ocr.txt" ;;;
  match first_indicated issuer_indicators text with
  | Some config_name => ret config_name
  | None => ret "generic_digital"
  end.

(** ** Field extractor: [_extract_ticket_details] *)

(** [int(ratio * length)] *)
Definition scale (ratio : pynum) (length : Z) : outcome Z :=
  py_int (py_mul ratio (PInt length)).

(** [roi_x1, roi_y1, roi_x2, roi_y2], computed in this order. *)
Definition roi_bounds (r : pynum * pynum * pynum * pynum) (width height : Z)
  : outcome (Z * Z * Z * Z) :=
  let '(x1, y1, x2, y2) := r in
  outcome_bind (scale x1 width) (fun roi_x1 =>
  outcome_bind (scale y1 height) (fun roi_y1 =>
  outcome_bind (scale x2 width) (fun roi_x2 =>
  outcome_bind (scale y2 height) (fun roi_y2 =>
  Return (roi_x1, roi_y1, roi_x2, roi_y2))))).

(** [image[y1:y2, x1:x2].size] *)
Definition roi_size (img : image) (b : Z * Z * Z * Z) : Z :=
  let '(roi_x1, roi_y1, roi_x2, roi_y2) := b in
  (Py.slice_len roi_y1 roi_y2 (img_height img)
   * Py.slice_len roi_x1 roi_x2 (img_width img)
   * match img_channels img with Some c => c | None => 1 end)%Z.

(** The OCR text of a field; [None] when the crop is empty and the field is
    skipped ([continue]). *)
Definition field_text (img : image) (i : nat) (field : TicketField) : M (option string) :=
  match region field with
  | Some r =>
      b <~ lift (roi_bounds r (img_width img) (img_height img)) ;;
      let '(roi_x1, roi_y1, roi_x2, roi_y2) := b in
      let roi := img_slice img roi_y1 roi_y2 roi_x1 roi_x2 in
      if (roi_size img b =? 0)%Z then ret None
      else
        debug_write ("_roi_" ++ Py.str_of_int (Z.of_nat i) ++ "_" ++ name field ++ ".jpg") ;;;
        let text := image_to_string roi in
        debug_write ("_roi_" ++ Py.str_of_int (Z.of_nat i) ++ "_" ++ name field ++ "_text.txt") ;;;
        ret (Some text)
  | None => ret (Some (image_to_string img))
  end.

(** [re.IGNORECASE | re.MULTILINE] *)
Definition search_flags : Z := Z.lor IGNORECASE MULTILINE.

Definition record_search (pattern text : string) (flags : Z) : M unit :=
  modify (fun s => set_searched (searched s ++ [(pattern, text, flags)]) s).

Definition set_confidence (field_name : string) (c : float) : M unit :=
  modify (fun s => set_confidence_scores (<[field_name := c]> (confidence_scores s)) s).

(** [for pattern in field.patterns: match = re.search(...); if match: ...; break] *)
Fixpoint try_patterns (field_name : string) (ps : list string) (text : string)
    (details : gmap string string) : M (gmap string string) :=
  match ps with
  | [] => ret details
  | pattern :: ps' =>
      record_search pattern text search_flags ;;;
      match re_search pattern text search_flags with
      | Some m =>
          set_confidence field_name 1.0 ;;;
          ret (<[field_name := Py.strip (group_0 m)]> details)
      | None => try_patterns field_name ps' text details
      end
  end.

(** The character class of the first [re.sub] of the fuzzy fallback. *)
Definition is_regex_special (c : ascii) : bool :=
  existsb (fun d => bool_decide (c = d))
    (list_ascii_of_string "()[]{}.+*?|^$").

Definition clean_pattern (pattern : string) : string :=
  let clean := Py.remove_chars is_regex_special pattern in
  let clean := Py.replace "\d+" "" clean in
  Py.strip (Py.replace "\s+" " " clean).

Fixpoint fuzzy_patterns (field_name : string) (ps : list string) (text : string)
    (details : gmap string string) : M (gmap string string) :=
  match ps with
  | [] => ret details
  | pattern :: ps' =>
      let clean := clean_pattern pattern in
      match (if bool_decide (clean = "") then None else Py.find clean text) with
      | Some start =>
          let pos := (start + String.length clean)%nat in
          if (pos <? String.length text)%nat
          then
            let possible_value := Py.strip (Py.first_line (Py.slice pos 30 text)) in
            set_confidence field_name 0.6 ;;;
            ret (<[field_name := possible_value]> details)
          else fuzzy_patterns field_name ps' text details
      | None => fuzzy_patterns field_name ps' text details
      end
  end.

(** The body of the loop over [enumerate(config)]. *)
Definition process_field (img : image) (i : nat) (field : TicketField)
    (details : gmap string string) : M (gmap string string) :=
  input <~ field_text img i field ;;
  match input with
  | None => ret details
  | Some text =>
      debug_write "_all_roi.jpg" ;;;
      details <~ try_patterns (name field) (patterns field) text details ;;
      if bool_decide (details !! name field = None) && negb (bool_decide (text = ""))
      then fuzzy_patterns (name field) (patterns field) text details
      else ret details
  end.

Fixpoint extract_fields (img : image) (i : nat) (config : list TicketField)
    (details : gmap string string) : M (gmap string string) :=
  match config with
  | [] => ret details
  | field :: config' =>
      details <~ process_field img i field details ;;
      extract_fields img (S i) config' details
  end.

(** [if config_name not in self.configurations: config_name = "generic"] *)
Definition resolve_config_name (configs : gmap string (list TicketField))
    (config_name : string) : string :=
  match configs !! config_name with
  | Some _ => config_name
  | None => "generic"
  end.

Definition extract_ticket_details (img : image) (config_name : string)
  : M (gmap string string) :=
  s <~ get ;;
  let config_name := resolve_config_name (configurations s) config_name in
  match configurations s !! config_name with
  | None => raise (KeyError config_name)
  | Some config =>
      debug_write "_grid.jpg" ;;;
      extract_fields img 0 config ∅
  end.

(** ** Default configurations: [_get_default_configurations] *)

(** The pound sign of the price patterns, one character. *)
Definition pound : string := String (ascii_of_nat 163) "".

Definition get_trainline_configuration : list TicketField :=
  [ {| name := "ticket_provider";
       patterns := ["(Eticket)"; "(Trainline)"];
       region := Some (PFloat 0.13, PFloat 0.12, PFloat 0.3, PFloat 0.14) |};
    {| name := "origin_station";
       patterns := ["([A-Za-z\s]+(?::STATIONS)?)"];
       region := Some (PFloat 0.0, PFloat 0.49, PFloat 0.5, PFloat 0.53) |};
    {| name := "origin_code";
       patterns := ["([A-Z]{3})"];
       region := Some (PInt 0, PFloat 0.5, PFloat 0.46, PFloat 0.61) |};
    {| name := "destination_station";
       patterns := ["([A-Za-z\s]+)"];
       region := Some (PFloat 0.5, PFloat 0.49, PInt 1, PFloat 0.53) |};
    {| name := "destination_code";
       patterns := ["(GRA)"; "([A-Z]{3})"];
       region := Some (PFloat 0.5, PFloat 0.5, PInt 1, PFloat 0.61) |};
    {| name := "travel_date";
       patterns := ["(\d{2}\s+[A-Za-z]{3}\s+\d{4})"; "08\s+Feb\s+2025"];
       region := Some (PFloat 0.22, PFloat 0.58, PFloat 0.4, PFloat 0.6) |};
    {| name := "journey_direction";
       patterns := ["(Ret):\s+[A-Z]{3}\s*-\s*[A-Z]{3}"; "Out:\s+[A-Z]{3}\s*-\s*[A-Z]{3}"];
       region := Some (PFloat 0.5, PFloat 0.35, PInt 1, PFloat 0.5) |};
    {| name := "ticket_type";
       patterns := ["(Off-Peak|Anytime|Advance|Super Off-Peak)(?:\s+Return|Single)?"];
       region := Some (PInt 0, PFloat 0.5, PFloat 0.6, PFloat 0.8) |};
    {| name := "route";
       patterns := ["(Any Permitted)"; "(Not via .+|Via .+|Any Permitted)"];
       region := Some (PFloat 0.55, PFloat 0.5, PInt 1, PFloat 0.8) |};
    {| name := "passenger_type";
       patterns := ["(ADULT)"; "(CHILD)"];
       region := Some (PFloat 0.06, PFloat 0.8, PFloat 0.2, PFloat 0.83) |};
    {| name := "railcard";
       patterns := ["(26-30 Railcard)"; "(\d{2}-\d{2}\s+Railcard)"; "([A-Za-z\s\-]+Railcard)"];
       region := Some (PFloat 0.06, PFloat 0.83, PFloat 0.4, PFloat 0.85) |};
    {| name := "valid_until";
       patterns := ["(\d{2}\s+[A-Za-z]{3}\s+\d{4})"; "07\s+Mar\s+2025"];
       region := Some (PFloat 0.55, PFloat 0.83, PFloat 0.94, PFloat 0.85) |};
    {| name := "reference";
       patterns := ["(TTF[A-Z0-9]+)"; "([A-Z0-9]{9,12})"];
       region := Some (PFloat 0.2, PFloat 0.51, PFloat 0.8, PFloat 0.53) |};
    {| name := "digital_indicators";
       patterns := ["(Add to Google Wallet)"; "(Show Railcard)"];
       region := Some (PFloat 0.2, PFloat 0.25, PFloat 0.8, PFloat 0.35) |} ].

Definition generic_configuration : list TicketField :=
  [ {| name := "origin_station";
       patterns := ["(?:From|Origin)[:\s]+(.+?)(?:\s+to|\s*$|[,\.])"; "ORIGIN[:\s]+(.+?)(?:\s+to|\s*$|[,\.])"];
       region := Some (PFloat 0.05, PFloat 0.2, PFloat 0.45, PFloat 0.4) |};
    {| name := "destination_station";
       patterns := ["(?:To|Destination)[:\s]+(.+?)(?:\s*$|[,\.])"; "DESTINATION[:\s]+(.+?)(?:\s*$|[,\.])"];
       region := Some (PFloat 0.55, PFloat 0.2, PFloat 0.95, PFloat 0.4) |};
    {| name := "date";
       patterns := ["(?:Date|Valid)[:\s]+([0-9]{1,2}[\/\.\-][0-9]{1,2}[\/\.\-][0-9]{2,4})"; "(?:Date|Valid)[:\s]+([0-9]{1,2}(?:st|nd|rd|th)?\s+[A-Za-z]+\s+[0-9]{2,4})"];
       region := Some (PFloat 0.1, PFloat 0.4, PFloat 0.9, PFloat 0.6) |};
    {| name := "ticket_type";
       patterns := ["(?:Type|Class)[:\s]+(.+?)(?:\s*$|[,\.])"; "(STANDARD|FIRST|1ST|ANYTIME|OFF-PEAK|SUPER OFF-PEAK)(?:\s+CLASS)?"];
       region := Some (PFloat 0.1, PFloat 0.5, PFloat 0.9, PFloat 0.7) |};
    {| name := "price";
       patterns := [("(?:Price|Cost|Fare)[:\s]*" ++ pound ++ "?([0-9]+\.[0-9]{2})"); ("" ++ pound ++ "([0-9]+\.[0-9]{2})")];
       region := Some (PFloat 0.7, PFloat 0.7, PFloat 0.95, PFloat 0.9) |};
    {| name := "ticket_reference";
       patterns := ["(?:Reference|Ref)[:\s]*([A-Z0-9-]+)"; "([A-Z0-9]{2,}-[A-Z0-9]{2,}-[A-Z0-9]{2,})"];
       region := Some (PFloat 0.4, PFloat 0.8, PFloat 0.9, PFloat 0.95) |} ].

Definition gwr_configuration : list TicketField :=
  [ {| name := "origin_station";
       patterns := ["FROM\s+(.+?)(?:\s+TO|\s*$|[,\.])"; "(?:From|Origin)[:\s]+(.+?)(?:\s+to|\s*$|[,\.])"];
       region := Some (PFloat 0.05, PFloat 0.2, PFloat 0.45, PFloat 0.3) |};
    {| name := "destination_station";
       patterns := ["TO\s+(.+?)(?:\s*$|[,\.])"; "(?:To|Destination)[:\s]+(.+?)(?:\s*$|[,\.])"];
       region := Some (PFloat 0.55, PFloat 0.2, PFloat 0.95, PFloat 0.3) |};
    {| name := "date";
       patterns := ["VALID\s+(?:ON|FOR)\s+(.+?)(?:\s*$|[,\.])"; "(?:Date|Valid)[:\s]+(.+?)(?:\s*$|[,\.])"];
       region := Some (PFloat 0.1, PFloat 0.3, PFloat 0.9, PFloat 0.4) |};
    {| name := "ticket_type";
       patterns := ["(STANDARD|FIRST)\s+CLASS"; "(ANYTIME|OFF-PEAK|SUPER OFF-PEAK)"];
       region := Some (PFloat 0.1, PFloat 0.4, PFloat 0.9, PFloat 0.5) |};
    {| name := "price";
       patterns := [("" ++ pound ++ "([0-9]+\.[0-9]{2})"); "GBP\s+([0-9]+\.[0-9]{2})"];
       region := Some (PFloat 0.7, PFloat 0.7, PFloat 0.95, PFloat 0.8) |};
    {| name := "ticket_reference";
       patterns := ["TICKET\s+NUMBER\s+([A-Z0-9-]+)"; "REF[:\s]+([A-Z0-9-]+)"];
       region := Some (PFloat 0.4, PFloat 0.8, PFloat 0.9, PFloat 0.95) |} ].

Definition get_default_configurations : gmap string (list TicketField) :=
  <["generic_digital" := get_trainline_configuration]>
    (<["trainline_app" := get_trainline_configuration]>
      (<["gwr" := gwr_configuration]>
        (<["generic" := generic_configuration]> ∅))).

(** ** Reference synthesis: [_generate_ticket_reference] *)

(** The origin (or destination) part of the reference: the code when the
    field is there, else the first three characters of the station name in
    upper case, else nothing. *)
Definition ref_token (data : gmap string pyval) (code_key station_key : string)
  : M (list pyval) :=
  match data !! code_key with
  | Some v => ret [v]
  | None =>
      match data !! station_key with
      | Some (PStr station) => ret [PStr (Py.upper (Py.take 3 station))]
      | Some (PBool _) => raise (TypeError "'bool' object is not subscriptable")
      | None => ret []
      end
  end.

(** ['-'.join(ref_parts)] accepts strings only. *)
Fixpoint str_items (parts : list pyval) : option (list string) :=
  match parts with
  | [] => Some []
  | PStr s :: parts' => cons s <$> str_items parts'
  | PBool _ :: _ => None
  end.

(** The index of the first item that is not a string. *)
Fixpoint first_non_str (parts : list pyval) (i : nat) : nat :=
  match parts with
  | PStr _ :: parts' => first_non_str parts' (S i)
  | _ => i
  end.

Definition join_values (sep : string) (parts : list pyval) : M string :=
  match str_items parts with
  | Some items => ret (Py.join sep items)
  | None =>
      raise (TypeError ("sequence item "
                        ++ Py.str_of_int (Z.of_nat (first_non_str parts 0))
                        ++ ": expected str instance, bool found"))
  end.

Definition timestamp_suffix : string := Py.last_chars 6 (Py.str_of_int time_now).

Definition generate_ticket_reference : M unit :=
  s <~ get ;;
  origin <~ ref_token (extracted_data s) "origin_code" "origin_station" ;;
  destination <~ ref_token (extracted_data s) "destination_code" "destination_station" ;;
  let ref_parts := (origin ++ destination ++ [PStr timestamp_suffix])%list in
  reference <~ join_values "-" ref_parts ;;
  modify (fun s => set_extracted_data
                     (<["ticket_reference" := PStr reference]> (extracted_data s)) s) ;;;
  modify (fun s => set_extracted_data
                     (<["is_reference_generated" := PBool true]> (extracted_data s)) s) ;;;
  set_confidence "ticket_reference" 0.5.

(** ** The scan: [TicketScanner.scan] *)

Record scan_result := {
  result_ticket_type : option string;
  configuration_used : string;
  data : gmap string pyval;
  confidence : gmap string float
}.

(** The end of [scan], from the assignment of [self.extracted_data] on. *)
Definition complete_scan (config_name : string) (details : gmap string string)
  : M scan_result :=
  modify (set_extracted_data (PStr <$> details)) ;;;
  s <~ get ;;
  match extracted_data s !! "ticket_reference" with
  | None => generate_ticket_reference
  | Some _ => ret tt
  end ;;;
  s <~ get ;;
  ret {| result_ticket_type := ticket_type s;
         configuration_used := config_name;
         data := extracted_data s;
         confidence := confidence_scores s |}.

(** ** Preprocessing: [_preprocess_image] *)

(** [self.ticket_type == "paper"] *)
Definition is_paper (s : scanner) : bool := bool_decide (ticket_type s = Some "paper").

(** The paper branch: the image is deskewed when the segments found on the
    thresholded image vary in angle and a contour is found, and is the
    thresholded image otherwise. *)
Definition preprocess_paper (img : image) : M image :=
  debug_write "_gray.jpg" ;;;
  debug_write "_adaptive_thresh.jpg" ;;;
  match threshold_angles img with
  | Some angles =>
      let angle_variation := np_std angles in
      if PrimFloat.ltb 0.1 angle_variation && threshold_contours img
      then
        debug_write "_largest_contour.jpg" ;;;
        let warped := warp_ticket img in
        debug_write "_warped.jpg" ;;;
        ret warped
      else ret (threshold_image img)
  | None => ret (threshold_image img)
  end.

Definition preprocess_image (img : image) : M image :=
  s <~ get ;;
  if is_paper s then preprocess_paper img
  else
    let enhanced_bgr := enhance_image img in
    debug_write "_enhanced.jpg" ;;;
    ret enhanced_bgr.

(** ** Cropping: [_crop_ticket] *)

(** [sorted(contours, key=cv2.contourArea, reverse=True)]: the sort is
    stable, so contours of the same area keep their order. *)
Fixpoint insert_by_area (c : contour) (sorted : list contour) : list contour :=
  match sorted with
  | [] => [c]
  | d :: sorted' =>
      if PrimFloat.ltb (contour_area d) (contour_area c) then c :: d :: sorted'
      else d :: insert_by_area c sorted'
  end.

Definition sorted_by_area (contours : list contour) : list contour :=
  fold_left (fun sorted c => insert_by_area c sorted) contours [].

(** [w * h > image.shape[0] * image.shape[1] * share] *)
Definition large_enough (img : image) (w h : Z) (share : float) : bool :=
  py_gt (PInt (w * h))
        (py_mul (py_mul (PInt (img_height img)) (PInt (img_width img))) (PFloat share)).

(** The loop over the five largest contours: the first one whose
    approximation has four points, a valid aspect ratio and a fifth of the
    image is the ticket. *)
Fixpoint first_ticket_rect (img : image) (paper : bool) (candidates : list contour)
  : outcome (option (Z * Z * Z * Z)) :=
  match candidates with
  | [] => Return None
  | c :: candidates' =>
      if (approx_points c =? 4)%nat
      then
        let '(x, y, w, h) := approx_rect c in
        outcome_bind (int_truediv w h) (fun aspect_ratio =>
          let valid_ratio :=
            if paper
            then PrimFloat.ltb 1.8 aspect_ratio && PrimFloat.ltb aspect_ratio 2.5
            else PrimFloat.ltb 1.0 aspect_ratio && PrimFloat.ltb aspect_ratio 2.5 in
          if valid_ratio && large_enough img w h 0.2
          then Return (Some (x, y, w, h))
          else first_ticket_rect img paper candidates')
      else first_ticket_rect img paper candidates'
  end.

Definition crop_ticket (img : image) : M (option image) :=
  debug_write "_crop_edges.jpg" ;;;
  match find_contours img with
  | [] => ret None
  | c0 :: cs =>
      let contours := sorted_by_area (c0 :: cs) in
      debug_write "_all_contours.jpg" ;;;
      s <~ get ;;
      found <~ lift (first_ticket_rect img (is_paper s) (firstn 5 contours)) ;;
      match found with
      | Some (x, y, w, h) =>
          debug_write "_selected_rect.jpg" ;;;
          ret (Some (img_slice img y (y + h) x (x + w)))
      | None =>
          let '(x, y, w, h) := bounding_rect (hd c0 contours) in
          if large_enough img w h 0.3
          then
            debug_write "_fallback_rect.jpg" ;;;
            ret (Some (img_slice img y (y + h) x (x + w)))
          else ret None
      end
  end.

Definition scan (image_path : string) : M scan_result :=
  match imread image_path with
  | None => raise (ValueError ("Could not load image from " ++ image_path))
  | Some original_image =>
      modify (set_image_basename (path_stem image_path)) ;;;
      label <~ determine_ticket_type original_image ;;
      modify (set_ticket_type (Some label)) ;;;
      preprocessed <~ preprocess_image original_image ;;
      modify (set_preprocessed_image (Some preprocessed)) ;;;
      cropped <~ crop_ticket preprocessed ;;
      working_image <~
        match cropped with
        | Some cropped_image => debug_write "_cropped.jpg" ;;; ret cropped_image
        | None => ret preprocessed
        end ;;
      config_name <~ select_configuration working_image ;;
      details <~ extract_ticket_details working_image config_name ;;
      complete_scan config_name details
  end.

(** [TicketScanner.__init__]: [configurations or self._get_default_configurations()];
    the creation of the debug directory is left to the file system. *)
Definition new_scanner (configs : option (gmap string (list TicketField)))
    (debug : bool) (dir : string) : scanner :=
  {| configurations :=
       match configs with
       | Some c => if bool_decide (c = ∅) then get_default_configurations else c
       | None => get_default_configurations
       end;
     ticket_type := None;
     extracted_data := ∅;
     confidence_scores := ∅;
     preprocessed_image := None;
     debug_roi := debug;
     debug_dir := dir;
     image_basename := "";
     written := [];
     searched := [] |}.

(** ** Command line entry point *)

(** The value handed to [json.dumps]; an object lists its keys. *)
Inductive json :=
| JStr (s : string)
| JNum (f : float)
| JBool (b : bool)
| JNull
| JObj (members : list (string * json)).

Definition json_of_pyval (v : pyval) : json :=
  match v with PStr s => JStr s | PBool b => JBool b end.

Definition json_of_result (r : scan_result) : json :=
  JObj [ ("ticket_type", match result_ticket_type r with Some t => JStr t | None => JNull end);
         ("configuration_used", JStr (configuration_used r));
         ("data", JObj (prod_map id json_of_pyval <$> map_to_list (data r)));
         ("confidence", JObj (prod_map id JNum <$> map_to_list (confidence r))) ].

(** The [try] block of [__main__]: every exception becomes [{"error": str(e)}]. *)
Definition main (image_path : string) (debug : bool) (dir : string) : json :=
  match scan image_path (new_scanner None debug dir) with
  | (Return results, _) => json_of_result results
  | (Raise e, _) => JObj [("error", JStr (str_of_exn e))]
  end.

End Scanner.

(** ** The statements of the specification *)

(** The number that a binary64 number stands for, 0 for an infinity and NaN. *)
Definition float_value (f : float) : Q :=
  match Prim2SF f with
  | S754_finite s m e =>
      if s then (- (inject_Z (Zpos m) * 2 ^ e))%Q else (inject_Z (Zpos m) * 2 ^ e)%Q
  | _ => 0%Q
  end.

Definition float_finite (f : float) : bool :=
  match Prim2SF f with
  | S754_zero _ | S754_finite _ _ _ => true
  | _ => false
  end.

(** The number that a ratio stands for; an infinity and NaN stand for none. *)
Definition ratio_value (x : pynum) : option Q :=
  match x with
  | PInt z => Some (inject_Z z)
  | PFloat f => if float_finite f then Some (float_value f) else None
  end.

(** [0 <= a < b <= 1] *)
Definition valid_axis (a b : pynum) : Prop :=
  exists va vb,
    ratio_value a = Some va /\ ratio_value b = Some vb
    /\ (0 <= va /\ va < vb /\ vb <= 1)%Q.

(** A region with valid ratios. *)
Definition valid_region (r : pynum * pynum * pynum * pynum) : Prop :=
  let '(x1, y1, x2, y2) := r in valid_axis x1 x2 /\ valid_axis y1 y2.

(** The pixels that the ratios [a] and [b] are apart on an axis of [n]
    pixels, in exact arithmetic. *)
Definition axis_span (a b : pynum) (n : Z) : Q :=
  ((default 0 (ratio_value b) - default 0 (ratio_value a)) * inject_Z n)%Q.

(** A little more than one pixel. *)
Definition pixel_and_more : Q := (1 + (1 # 1000000))%Q.

(** The weighted score of the specification, over binary64 numbers. *)
Definition weighted_score (orange_bar texture perspective shadow digital_elements : float)
  : float :=
  (1.5 * orange_bar + 1.0 * texture + 0.8 * perspective + 0.7 * shadow
   - 2.0 * digital_elements)%float.

Definition unit_if (b : bool) : float := if b then 1%float else 0%float.

(** The five features as the specification words them. *)
Record feature_vector := {
  orange_bar : float;
  texture : float;
  perspective : float;
  shadow : float;
  digital_elements : float
}.

(** [pat] occurs in [s]. *)
Definition occurs_in (pat s : string) : Prop :=
  exists before after, s = (before ++ pat ++ after)%string.

(** The text shows a wallet or e-ticket phrase, in any case. *)
Definition shows_wallet_phrase (text : string) : Prop :=
  exists phrase,
    In phrase ["add to wallet"; "google wallet"; "show railcard"; "eticket"]
    /\ occurs_in phrase (Py.lower text).

Definition spec_features `{E : Externals} (img : image) : feature_vector :=
  {| orange_bar := unit_if (PrimFloat.ltb 0.2 (orange_fraction img));
     texture := unit_if (PrimFloat.ltb 10 (texture_measure img));
     perspective :=
       match hough_angles img with
       | Some (a :: angles) => unit_if (PrimFloat.ltb 0.05 (np_std (a :: angles)))
       | _ => 0%float
       end;
     shadow :=
       if bool_decide (img_channels img = Some 3%Z)
       then unit_if (PrimFloat.ltb 15 (illumination_var img))
       else 0%float;
     digital_elements :=
       ((if qr_detected img then 1 else 0)
        + (if Py.any_in ["add to wallet"; "google wallet"; "show railcard"; "eticket"]
                (Py.lower (image_to_string img))
           then 2 else 0))%float |}.

(** The feature dictionary of the classifier as a function of its six tests. *)
Definition features_of_tests (orange textured skewed shaded qr phrase : bool)
  : gmap string pynum :=
  let features := initial_features in
  let features := <["orange_bar" := indicator orange]> features in
  let features := <["texture" := indicator textured]> features in
  let features := <["perspective" := indicator skewed]> features in
  let features := <["shadow" := indicator shaded]> features in
  let features :=
    if qr then increment "digital_elements" (PInt 1) features else features in
  if phrase then increment "digital_elements" (PFloat 2) features else features.

(** The test of the perspective feature. *)
Definition skewed_test `{E : Externals} (img : image) : bool :=
  match hough_angles img with
  | Some (a :: angles) => PrimFloat.ltb 0.05 (np_std (a :: angles))
  | _ => false
  end.

(** The weighted score in exact arithmetic, in tenths. *)
Definition exact_score_tenths (orange textured skewed shaded qr phrase : bool) : Z :=
  (15 * Z.b2z orange + 10 * Z.b2z textured + 8 * Z.b2z skewed + 7 * Z.b2z shaded
   - 20 * (Z.b2z qr + 2 * Z.b2z phrase))%Z.

Definition spec_score (v : feature_vector) : float :=
  weighted_score (orange_bar v) (texture v) (perspective v) (shadow v) (digital_elements v).

(** The whitespace characters below 256, by code. *)
Definition whitespace_codes : list nat := [9; 10; 11; 12; 13; 28; 29; 30; 31; 32; 133; 160]%nat.

Definition is_whitespace (c : ascii) : Prop := In (nat_of_ascii c) whitespace_codes.

Definition all_whitespace (s : string) : Prop :=
  Forall is_whitespace (list_ascii_of_string s).

Definition first_char (s : string) : option ascii :=
  match s with
  | EmptyString => None
  | String c _ => Some c
  end.

Fixpoint last_char (s : string) : option ascii :=
  match s with
  | EmptyString => None
  | String c EmptyString => Some c
  | String _ s' => last_char s'
  end.

(** [v] is [s] without the whitespace at its two ends. *)
Definition trimmed (s v : string) : Prop :=
  exists l r,
    s = (l ++ v ++ r)%string /\ all_whitespace l /\ all_whitespace r
    /\ (forall c, first_char v = Some c -> ~ is_whitespace c)
    /\ (forall c, last_char v = Some c -> ~ is_whitespace c).


(** The capital forms of the letters below 256, as a table: the letters a
    to z, the accented letters by their codes, and the sharp s. *)
Definition accented_pairs : list (nat * nat) :=
  ([(224, 192); (225, 193); (226, 194); (227, 195); (228, 196); (229, 197); (230, 198);
     (231, 199); (232, 200); (233, 201); (234, 202); (235, 203); (236, 204); (237, 205);
     (238, 206); (239, 207); (240, 208); (241, 209); (242, 210); (243, 211); (244, 212);
     (245, 213); (246, 214); (248, 216); (249, 217); (250, 218); (251, 219); (252, 220);
     (253, 221); (254, 222)])%nat.

Definition capital_table : list (ascii * string) :=
  (zip (list_ascii_of_string "abcdefghijklmnopqrstuvwxyz")
       ((fun c => String c EmptyString)
          <$> list_ascii_of_string "ABCDEFGHIJKLMNOPQRSTUVWXYZ")
   ++ ((fun p => (ascii_of_nat p.1, String (ascii_of_nat p.2) EmptyString))
         <$> accented_pairs)
   ++ [(ascii_of_nat 223, "SS")])%list.

Definition capital (c : ascii) : string :=
  match List.find (fun e => bool_decide (e.1 = c)) capital_table with
  | Some e => e.2
  | None => String c EmptyString
  end.

Fixpoint capitals (s : string) : string :=
  match s with
  | EmptyString => EmptyString
  | String c s' => (capital c ++ capitals s')%string
  end.

(** The first three characters of a string, the whole string when it has
    fewer. *)
Definition first_three (s : string) : string :=
  match s with
  | String a (String b (String c _)) => String a (String b (String c EmptyString))
  | _ => s
  end.

(** The origin or destination token of a synthesized reference, if any. *)
Definition spec_token (details : gmap string string) (code_key station_key : string)
  : option string :=
  match details !! code_key with
  | Some c => Some c
  | None => capitals <$> (first_three <$> details !! station_key)
  end.

Definition with_hyphen (token : option string) : string :=
  match token with
  | Some t => (t ++ "-")%string
  | None => EmptyString
  end.

(** The end of the occurrence that the fuzzy fallback uses for a pattern:
    the cleaned pattern is not empty, occurs in the text, and its first
    occurrence ends before the end of the text. *)
Definition fuzzy_stop (pattern text : string) : option nat :=
  let clean := clean_pattern pattern in
  if bool_decide (clean = "") then None
  else
    match Py.find clean text with
    | Some start =>
        let pos := (start + String.length clean)%nat in
        if (pos <? String.length text)%nat then Some pos else None
    | None => None
    end.

(** The field list that the extractor runs over for a configuration name,
    under the default configurations. *)
Definition fields_for (config_name : string) : list TicketField :=
  match get_default_configurations !! config_name with
  | Some config => config
  | None => generic_configuration
  end.

(** A confidence value lies between 0.0 and 1.0. *)
Definition unit_interval (c : float) : Prop :=
  PrimFloat.leb 0 c = true /\ PrimFloat.leb c 1 = true.

(** What a step leaves untouched in the scanner when it only writes debug
    files or queries the regular expression engine. *)
Definition same_object `{E : Externals} (s s' : scanner) : Prop :=
  configurations s' = configurations s
  /\ extracted_data s' = extracted_data s
  /\ confidence_scores s' = confidence_scores s
  /\ debug_roi s' = debug_roi s.

(** The extracted values and the confidence mapping go together. *)
Definition paired `{E : Externals} (details : gmap string string) (s : scanner) : Prop :=
  dom details = dom (confidence_scores s)
  /\ map_Forall (fun _ c => unit_interval c) (confidence_scores s).

(** The reference that the specification describes for extracted
    [details]: the origin token and the destination token, each followed by
    a hyphen when it is there, and the end of the timestamp. *)
Definition reference_of `{E : Externals} (details : gmap string string) : string :=
  (with_hyphen (spec_token details "origin_code" "origin_station")
   ++ with_hyphen (spec_token details "destination_code" "destination_station")
   ++ timestamp_suffix)%string.

(** A character occurs in a string. *)
Fixpoint has_char (c : ascii) (s : string) : bool :=
  match s with
  | EmptyString => false
  | String d s' => bool_decide (c = d) || has_char c s'
  end.

(** The first three characters of a name have capital forms below 256:
    neither the micro sign nor the y with diaeresis is among them. *)
Definition one_byte_capitals (station : string) : Prop :=
  has_char (ascii_of_nat 181) (first_three station) = false
  /\ has_char (ascii_of_nat 255) (first_three station) = false.

(** What the entry point prints for an exception. *)
Definition is_error_record (j : json) : Prop :=
  exists message, j = JObj [("error", JStr message)].

(** ** Sample worlds *)

(** A world in which an image is identified with the text printed on it:
    every image is 600 by 1000 pixels in colour, flat and evenly lit,
    without a contour, the geometric stages leave it as it is, and a crop
    shows the same text. [decodes] tells whether files can be read, [lines]
    is the answer of the line detector and [search] the answer of the
    regular expression engine. *)
Definition sample_world (decodes : bool) (text : string) (lines : option (list float))
    (search : string -> string -> Z -> option re_match) (now : Z) : Externals :=
  {| image := string;
     contour := unit;
     imread := fun _ => if decodes then Some text else None;
     path_stem := fun p => p;
     img_height := fun _ => 1000%Z;
     img_width := fun _ => 600%Z;
     img_channels := fun _ => Some 3%Z;
     orange_fraction := fun _ => 0%float;
     texture_measure := fun _ => 0%float;
     hough_angles := fun _ => lines;
     np_std := fun _ => 0%float;
     illumination_var := fun _ => 0%float;
     qr_detected := fun _ => false;
     image_to_string := fun img => img;
     threshold_angles := fun _ => None;
     threshold_contours := fun _ => false;
     warp_ticket := fun img => img;
     threshold_image := fun img => img;
     enhance_image := fun img => img;
     find_contours := fun _ => [];
     contour_area := fun _ => 0%float;
     approx_points := fun _ => 0%nat;
     approx_rect := fun _ => (0, 0, 1, 1)%Z;
     approx_rect_height := fun _ => eq_refl;
     bounding_rect := fun _ => (0, 0, 0, 0)%Z;
     img_slice := fun img _ _ _ _ => img;
     re_search := search;
     time_now := now |}.

(** An engine that finds nothing. *)
Definition no_match : string -> string -> Z -> option re_match := fun _ _ _ => None.

(** An engine given by a table of (pattern, text, flags, match). *)
Definition table_search (table : list (string * string * Z * re_match))
  : string -> string -> Z -> option re_match :=
  fun pattern text flags =>
    snd <$> List.find (fun e => bool_decide (e.1 = (pattern, text, flags))) table.

(** A blank image: nothing is read on it and the line detector finds
    nothing. *)
Definition blank_world : Externals := sample_world true "" None no_match 1700000042.

(** An unreadable file. *)
Definition unreadable_world : Externals := sample_world false "" None no_match 1700000042.

(** The line detector on a printed ticket held straight: two level lines. *)
Definition level_lines : option (list float) := Some [0%float; 0%float].

(** An LNER ticket whose text matches none of the generic patterns. *)
Definition lner_world : Externals := sample_world true "LNER" level_lines no_match 1700000042.

(** An LNER ticket with a reference line, which the first reference pattern
    of the generic layout matches. *)
Definition lner_reference_world : Externals :=
  sample_world true "LNER Ref: AB-12" level_lines
    (table_search [("(?:Reference|Ref)[:\s]*([A-Z0-9-]+)", "LNER Ref: AB-12", 10%Z,
                    {| whole := "Ref: AB-12"; captures := [Some "AB-12"] |})])
    1700000042.

(** A Great Western ticket that also names Transport for London. *)
Definition gwr_tfl_world : Externals :=
  sample_world true "GWR Transport for London" level_lines no_match 1700000042.

(** A Transport for London ticket. *)
Definition tfl_world : Externals :=
  sample_world true "Transport For LONDON" level_lines no_match 1700000042.

(** A reference line read by the first generic reference pattern. *)
Definition reference_world : Externals :=
  sample_world true "Ref: AB-12 " level_lines
    (table_search [("(?:Reference|Ref)[:\s]*([A-Z0-9-]+)", "Ref: AB-12 ", 10%Z,
                    {| whole := "Ref: AB-12"; captures := [Some "AB-12"] |})])
    1700000042.

(** A reference line between spaces, in small letters: the first pattern of
    the field does not match it, the second one matches it with the spaces
    around it, thanks to the flag that ignores case. *)
Definition padded_reference_field : TicketField :=
  {| name := "ticket_reference";
     patterns := ["TICKET\s+NUMBER\s+([A-Z0-9-]+)"; "\s*REF[:\s]+([A-Z0-9-]+)\s*"];
     region := None |}.

Definition padded_world : Externals :=
  sample_world true "no  ref: ab-12  " level_lines
    (table_search [("\s*REF[:\s]+([A-Z0-9-]+)\s*", "no  ref: ab-12  ", 10%Z,
                    {| whole := "  ref: ab-12  "; captures := [Some "ab-12"] |})])
    1700000042.

(** A field of a caller's configuration and two texts for it: [Total.+]
    needs a character after the word, [Amount$.] never matches. *)
Definition total_field : TicketField :=
  {| name := "total"; patterns := ["Total.+"]; region := None |}.

Definition total_world : Externals := sample_world true "Total" level_lines no_match 1700000042.



(** The same world with every image [w] pixels wide and [h] pixels high. *)
Definition resized (W : Externals) (h w : Z) : Externals :=
  {| image := @image W;
     contour := @contour W;
     imread := @imread W;
     path_stem := @path_stem W;
     img_height := fun _ => h;
     img_width := fun _ => w;
     img_channels := @img_channels W;
     orange_fraction := @orange_fraction W;
     texture_measure := @texture_measure W;
     hough_angles := @hough_angles W;
     np_std := @np_std W;
     illumination_var := @illumination_var W;
     qr_detected := @qr_detected W;
     image_to_string := @image_to_string W;
     threshold_angles := @threshold_angles W;
     threshold_contours := @threshold_contours W;
     warp_ticket := @warp_ticket W;
     threshold_image := @threshold_image W;
     enhance_image := @enhance_image W;
     find_contours := @find_contours W;
     contour_area := @contour_area W;
     approx_points := @approx_points W;
     approx_rect := @approx_rect W;
     approx_rect_height := @approx_rect_height W;
     bounding_rect := @bounding_rect W;
     img_slice := @img_slice W;
     re_search := @re_search W;
     time_now := @time_now W |}.

(** A thumbnail, twenty pixels each way. *)
Definition thumbnail_world : Externals := resized blank_world 20 20.

(** The same world with the measurements of a printed ticket that shows a
    QR code: an orange bar, a paper texture, lines at varying angles and
    uneven light. *)
Definition printed (W : Externals) : Externals :=
  {| image := @image W;
     contour := @contour W;
     imread := @imread W;
     path_stem := @path_stem W;
     img_height := @img_height W;
     img_width := @img_width W;
     img_channels := @img_channels W;
     orange_fraction := fun _ => 0.35%float;
     texture_measure := fun _ => 12.5%float;
     hough_angles := fun _ => Some [0%float; 0.3%float];
     np_std := fun _ => 0.15%float;
     illumination_var := fun _ => 20.0%float;
     qr_detected := fun _ => true;
     image_to_string := @image_to_string W;
     threshold_angles := @threshold_angles W;
     threshold_contours := @threshold_contours W;
     warp_ticket := @warp_ticket W;
     threshold_image := @threshold_image W;
     enhance_image := @enhance_image W;
     find_contours := @find_contours W;
     contour_area := @contour_area W;
     approx_points := @approx_points W;
     approx_rect := @approx_rect W;
     approx_rect_height := @approx_rect_height W;
     bounding_rect := @bounding_rect W;
     img_slice := @img_slice W;
     re_search := @re_search W;
     time_now := @time_now W |}.

(** A printed ticket with a QR code, and one that also asks to show a
    railcard. *)
Definition printed_world : Externals := printed lner_world.

Definition railcard_world : Externals :=
  printed (sample_world true "Please SHOW Railcard" level_lines no_match 1700000042).

(** The header field of the Trainline layout. *)
Definition ticket_provider_field : TicketField :=
  {| name := "ticket_provider";
     patterns := ["(Eticket)"; "(Trainline)"];
     region := Some (PFloat 0.13, PFloat 0.12, PFloat 0.3, PFloat 0.14) |}.

(** The reference field of the generic layout. *)
Definition generic_reference_field : TicketField :=
  {| name := "ticket_reference";
     patterns := ["(?:Reference|Ref)[:\s]*([A-Z0-9-]+)";
                  "([A-Z0-9]{2,}-[A-Z0-9]{2,}-[A-Z0-9]{2,})"];
     region := Some (PFloat 0.4, PFloat 0.8, PFloat 0.9, PFloat 0.95) |}.

(** The value of an outcome, [d] for an exception. *)
Definition result_of {A : Type} (d : A) (o : outcome A) : A :=
  match o with Return a => a | Raise _ => d end.

Definition empty_result : scan_result :=
  {| result_ticket_type := None; configuration_used := ""; data := ∅; confidence := ∅ |}.

(** ** Notions for the properties of the stages *)

(** A computation keeps a property of the scanner, whatever its outcome. *)
Definition preserves `{E : Externals} {A : Type} (P : scanner -> Prop) (m : M A) : Prop :=
  forall s, P s -> P (m s).2.

(** What the scanner holds apart from its debug settings and the trace of
    the debug files. *)
Definition view `{E : Externals} (s : scanner) :=
  (configurations s, ticket_type s, extracted_data s, confidence_scores s,
   preprocessed_image s, searched s).

(** Two computations that, when both return, return the same value and
    have the same effect on the view, whatever the debug settings. *)
Definition agree `{E : Externals} {A : Type} (m1 m2 : M A) : Prop :=
  forall s1 s2 a1 a2 t1 t2,
    view s1 = view s2 -> m1 s1 = (Return a1, t1) -> m2 s2 = (Return a2, t2) ->
    a1 = a2 /\ view t1 = view t2.

(** The names of the fields of a configuration. *)
Definition field_names (config : list TicketField) : gset string :=
  list_to_set (name <$> config).

(** The fields of all the default configurations. *)
Definition default_fields : list TicketField :=
  (generic_configuration ++ gwr_configuration ++ get_trainline_configuration)%list.

Definition at_least_two (a b c : bool) : bool :=
  (a && b) || (a && c) || (b && c).

(** The label as a table of the six tests: "paper" needs no wallet phrase,
    and then one paper feature, or with a QR code the orange bar and two
    more. *)
Definition paper_decision (orange textured skewed shaded qr phrase : bool) : bool :=
  negb phrase
  && (if qr then orange && at_least_two textured skewed shaded
      else orange || textured || skewed || shaded).

(** The tests of the classifier on an image. *)
Definition orange_test `{E : Externals} (img : image) : bool :=
  PrimFloat.ltb 0.2 (orange_fraction img).

Definition texture_test `{E : Externals} (img : image) : bool :=
  PrimFloat.ltb 10 (texture_measure img).

Definition shadow_test `{E : Externals} (img : image) : bool :=
  bool_decide (img_channels img = Some 3%Z) && PrimFloat.ltb 15 (illumination_var img).

Definition phrase_test `{E : Externals} (img : image) : bool :=
  Py.any_in wallet_phrases (Py.lower (image_to_string img)).

(** The newline character. *)
Definition newline : ascii := ascii_of_nat 10.

(** The decimal digit of rank [k] of [n], as a character. *)
Definition decimal_digit (n : Z) (k : Z) : ascii :=
  Py.digit_char (n / 10 ^ k mod 10).

(** ** The extraction as a function *)

Definition outcome_map {A B : Type} (f : A -> B) (o : outcome A) : outcome B :=
  outcome_bind o (fun a => Return (f a)).

(** The text that the extractor reads for a field, [None] when the crop of
    its region is empty. *)
Definition field_input `{E : Externals} (img : image) (field : TicketField)
  : outcome (option string) :=
  match region field with
  | Some r =>
      outcome_bind (roi_bounds r (img_width img) (img_height img)) (fun b =>
        let '(roi_x1, roi_y1, roi_x2, roi_y2) := b in
        if (roi_size img b =? 0)%Z then Return None
        else Return (Some (image_to_string (img_slice img roi_y1 roi_y2 roi_x1 roi_x2))))
  | None => Return (Some (image_to_string img))
  end.

(** The match of the first pattern that matches. *)
Fixpoint first_match `{E : Externals} (ps : list string) (text : string) : option re_match :=
  match ps with
  | [] => None
  | p :: ps' =>
      match re_search p text search_flags with
      | Some m => Some m
      | None => first_match ps' text
      end
  end.

(** The end of the occurrence of the first cleaned pattern that has one. *)
Fixpoint first_fuzzy_stop (ps : list string) (text : string) : option nat :=
  match ps with
  | [] => None
  | p :: ps' =>
      match fuzzy_stop p text with
      | Some stop => Some stop
      | None => first_fuzzy_stop ps' text
      end
  end.

(** The value and the confidence that a field gets from its text, given the
    values extracted before it. *)
Definition text_value `{E : Externals} (field : TicketField) (details : gmap string string)
    (text : string) : option (string * float) :=
  match first_match (patterns field) text with
  | Some m => Some (Py.strip (group_0 m), 1.0%float)
  | None =>
      if bool_decide (details !! name field = None) && negb (bool_decide (text = ""))
      then
        match first_fuzzy_stop (patterns field) text with
        | Some stop => Some (Py.strip (Py.first_line (Py.slice stop 30 text)), 0.6%float)
        | None => None
        end
      else None
  end.

Definition field_value `{E : Externals} (img : image) (field : TicketField)
    (details : gmap string string) : outcome (option (string * float)) :=
  outcome_map (fun input => input ≫= text_value field details) (field_input img field).

(** The values extracted over a configuration, and the confidence entries
    recorded on the way, in order; an exception when the bounds of a region
    cannot be computed. *)
Fixpoint extraction `{E : Externals} (img : image) (config : list TicketField)
    (details : gmap string string) : outcome (gmap string string * list (string * float)) :=
  match config with
  | [] => Return (details, [])
  | field :: config' =>
      outcome_bind (field_value img field details) (fun value =>
        match value with
        | Some (v, c) =>
            outcome_map (fun rest => (rest.1, (name field, c) :: rest.2))
              (extraction img config' (<[name field := v]> details))
        | None => extraction img config' details
        end)
  end.

(** Recording a list of confidence entries, the later over the earlier. *)
Definition record_all (recorded : list (string * float)) (scores : gmap string float)
  : gmap string float :=
  foldl (fun m u => <[u.1 := u.2]> m) scores recorded.

(** The value of a string of decimal digits. *)
Fixpoint digits_value (s : string) (acc : Z) : Z :=
  match s with
  | EmptyString => acc
  | String c s' => digits_value s' (10 * acc + (Z.of_nat (Py.code c) - 48))
  end.

(** A scanner whose configurations have none of the names of the selector. *)
Definition southeastern_scanner `{E : Externals} : scanner :=
  new_scanner (Some (<["southeastern" := gwr_configuration]> ∅)) false "debug_roi_images".

(** A screenshot with the wallet button, and what the patterns of the
    Trainline layout find in its text. *)
Definition wallet_world : Externals :=
  sample_world true "Add to Google Wallet" level_lines
    (table_search
       [("([A-Za-z\s]+(?::STATIONS)?)", "Add to Google Wallet", 10%Z,
         {| whole := "Add to Google Wallet"; captures := [Some "Add to Google Wallet"] |});
        ("([A-Z]{3})", "Add to Google Wallet", 10%Z,
         {| whole := "Add"; captures := [Some "Add"] |});
        ("([A-Za-z\s]+)", "Add to Google Wallet", 10%Z,
         {| whole := "Add to Google Wallet"; captures := [Some "Add to Google Wallet"] |});
        ("(Add to Google Wallet)", "Add to Google Wallet", 10%Z,
         {| whole := "Add to Google Wallet"; captures := [Some "Add to Google Wallet"] |})])
    1700000042.

(** A clock set shortly after the epoch. *)
Definition epoch_world : Externals := sample_world true "" None no_match 4242.

(** ** Rounding to binary64 *)

(** Round to nearest, ties to even, of [m / 2 ^ k]. *)
Definition rne (m k : Z) : Z :=
  let q := (m / 2 ^ k)%Z in
  match (2 * (m mod 2 ^ k) ?= 2 ^ k)%Z with
  | Lt => q
  | Eq => if Z.even q then q else (q + 1)%Z
  | Gt => (q + 1)%Z
  end.

(** The value [m * 2 ^ e]. *)
Definition dyadic (m e : Z) : Q := (inject_Z m * 2 ^ e)%Q.

(** The exponent of the binary64 numbers next to [m * 2 ^ e]. *)
Definition round_exponent (m e : Z) : Z :=
  SpecFloat.fexp prec emax (SpecFloat.Zdigits2 m + e).

(** Rounding [m * 2 ^ e] to binary64: the integer and its exponent, before
    the result is normalised and tested for overflow. *)
Definition rounded (m e : Z) : Z * Z :=
  let E := round_exponent m e in
  if (E - e <=? 0)%Z then (m, e) else (rne m (E - e), E).

Definition rounded_value (m e : Z) : Q := dyadic (rounded m e).1 (rounded m e).2.

(** A binary64 number between 0 and 1 is a zero or a positive number. *)
Inductive unit_float (x : float) : Prop :=
| unit_zero (s : bool) : Prim2SF x = S754_zero s -> unit_float x
| unit_positive (m : positive) (e : Z) :
    Prim2SF x = S754_finite false m e ->
    SpecFloat.bounded prec emax m e = true ->
    (dyadic (Zpos m) e <= 1)%Q ->
    unit_float x.

(** [x * n] for a binary64 ratio [x] between 0 and 1 and an integer length
    [n] below [2 ^ 53]: the product is a zero, or the rounding of the exact
    product. *)
Inductive scaled_spec (x : float) (n : Z) : Prop :=
| scaled_zero :
    (float_value x == 0)%Q ->
    (float_value (x * float_of_int n) == 0)%Q ->
    int_of_float (x * float_of_int n) = Return 0%Z ->
    scaled_spec x n
| scaled_positive (m mw : positive) (e ew : Z) :
    (float_value x == dyadic (Zpos m) e)%Q ->
    (inject_Z n == dyadic (Zpos mw) ew)%Q ->
    round_exponent (Zpos mw) ew = ew ->
    (float_value (x * float_of_int n) == rounded_value (Zpos m * Zpos mw) (e + ew))%Q ->
    int_of_float (x * float_of_int n)
    = Return (Qfloor (float_value (x * float_of_int n))) ->
    scaled_spec x n.

(** * Properties *)

Local Open Scope list_scope.
Set Warnings "-clear-no-such-hyp".

(** ** Python strings on samples *)

Example str_of_int_samples :
  Py.str_of_int 1700000042 = "1700000042" /\ Py.str_of_int 0 = "0"
  /\ Py.str_of_int (-42) = "-42" /\ Py.last_chars 6 (Py.str_of_int 1700000042) = "000042".
Proof. repeat split; reflexivity. Qed.

Example strip_samples :
  Py.strip "  Ref: AB-12 " = "Ref: AB-12" /\ Py.first_line "12 Jan
x" = "12 Jan" /\ Py.replace "\s+" " " "a\s+b\s+" = "a b "
  /\ Py.find "Date" "x Date 1" = Some 2%nat /\ Py.find "Date" "x Dat" = None
  /\ Py.lower "Transport FOR London" = "transport for london"
  /\ Py.upper (Py.take 3 "liverpool") = "LIV"
  /\ Py.upper (Py.take 3 (String (ascii_of_nat 233) "cole"))
     = String (ascii_of_nat 201) "CO"
  /\ Py.upper (String (ascii_of_nat 223) "") = "SS".
Proof. repeat split; reflexivity. Qed.

(** ** Decimal strings and suffixes *)

Lemma append_cons (a : ascii) (s t : string) :
  (String a s ++ t)%string = String a (s ++ t)%string.
Proof. reflexivity. Qed.

Lemma append_assoc (s t u : string) :
  ((s ++ t) ++ u)%string = (s ++ (t ++ u))%string.
Proof.
  induction s as [|a s IH]; [reflexivity |].
  rewrite !append_cons. now rewrite IH.
Qed.

Lemma length_append (s t : string) :
  String.length (s ++ t)%string = (String.length s + String.length t)%nat.
Proof.
  induction s as [|a s IH]; [reflexivity |].
  rewrite append_cons. cbn [String.length]. now rewrite IH.
Qed.

Lemma substring_whole (s : string) : String.substring 0 (String.length s) s = s.
Proof. induction s as [|a s IH]; [reflexivity |]. cbn. now rewrite IH. Qed.

Lemma substring_skip (pre s : string) (n : nat) :
  String.substring (String.length pre) n (pre ++ s)%string = String.substring 0 n s.
Proof.
  induction pre as [|a pre IH]; [reflexivity |].
  rewrite append_cons. cbn [String.length String.substring]. exact IH.
Qed.

Lemma last_chars_app (pre s : string) :
  Py.last_chars (String.length s) (pre ++ s)%string = s.
Proof.
  unfold Py.last_chars. rewrite length_append.
  replace (String.length pre + String.length s - String.length s)%nat
    with (String.length pre) by lia.
  rewrite substring_skip. apply substring_whole.
Qed.

Lemma digit_char_is_digit (n : Z) : Py.is_digit (Py.digit_char (n mod 10)) = true.
Proof.
  unfold Py.digit_char.
  pose proof (Z.mod_pos_bound n 10 ltac:(lia)) as Hmod.
  assert (H : (Z.to_nat (n mod 10) < 10)%nat) by lia.
  set (k := Z.to_nat (n mod 10)) in *. clearbody k.
  do 10 (destruct k as [|k]; [reflexivity |]). lia.
Qed.

Lemma digits_acc_app (fuel : nat) (n : Z) (acc : string) :
  Py.digits_acc fuel n acc = (Py.digits_acc fuel n "" ++ acc)%string.
Proof.
  revert n acc. induction fuel as [|fuel IH]; intros n acc; [reflexivity |].
  cbn [Py.digits_acc]. destruct (n <? 10)%Z; [reflexivity |].
  rewrite IH. rewrite (IH _ (String _ "")). now rewrite append_assoc.
Qed.

(** From 100000 on, the decimal string ends with six digits. *)
Lemma digits_acc_six (fuel : nat) (n : Z) :
  (100000 <= n)%Z -> (6 <= fuel)%nat ->
  exists pre digits,
    Py.digits_acc fuel n "" = (pre ++ digits)%string
    /\ String.length digits = 6%nat
    /\ Py.all_chars Py.is_digit digits = true.
Proof.
  intros Hn Hfuel.
  do 6 (destruct fuel as [|fuel]; [lia |]). clear Hfuel.
  cbn [Py.digits_acc].
  assert (H1 : (10000 <= n / 10)%Z) by (apply Z.div_le_lower_bound; lia).
  assert (H2 : (1000 <= n / 10 / 10)%Z) by (apply Z.div_le_lower_bound; lia).
  assert (H3 : (100 <= n / 10 / 10 / 10)%Z) by (apply Z.div_le_lower_bound; lia).
  assert (H4 : (10 <= n / 10 / 10 / 10 / 10)%Z) by (apply Z.div_le_lower_bound; lia).
  rewrite (proj2 (Z.ltb_ge (n) 10)) by lia.
  rewrite (proj2 (Z.ltb_ge (n / 10) 10)) by lia.
  rewrite (proj2 (Z.ltb_ge (n / 10 / 10) 10)) by lia.
  rewrite (proj2 (Z.ltb_ge (n / 10 / 10 / 10) 10)) by lia.
  rewrite (proj2 (Z.ltb_ge (n / 10 / 10 / 10 / 10) 10)) by lia.
  match goal with
  | |- context [String ?d5 (String ?d4 (String ?d3 (String ?d2 (String ?d1 (String ?d0 ""))))) ] =>
      set (digits := String d5 (String d4 (String d3 (String d2 (String d1 (String d0 ""))))))
  end.
  assert (Hdigits : Py.all_chars Py.is_digit digits = true).
  { subst digits. cbn [Py.all_chars]. now rewrite !digit_char_is_digit. }
  destruct (n / 10 / 10 / 10 / 10 / 10 <? 10)%Z.
  - exists "", digits. now repeat split.
  - rewrite digits_acc_app. eexists _, digits. now repeat split.
Qed.

Lemma timestamp_six_digits (n : Z) :
  (100000 <= n)%Z ->
  String.length (Py.last_chars 6 (Py.str_of_int n)) = 6%nat
  /\ Py.all_chars Py.is_digit (Py.last_chars 6 (Py.str_of_int n)) = true.
Proof.
  intros Hn. unfold Py.str_of_int. rewrite (proj2 (Z.ltb_ge (n) 0)) by lia.
  assert (Hlog : (16 <= Z.log2 n)%Z).
  { change 16%Z with (Z.log2 100000). now apply Z.log2_le_mono. }
  destruct (digits_acc_six (S (Z.to_nat (Z.log2 n))) n Hn ltac:(lia))
    as (pre & digits & -> & Hlen & Hdigits).
  rewrite <- Hlen at 1 3. now rewrite last_chars_app.
Qed.

(** ** The decimal writing of an integer *)

Lemma digits_value_app (s t : string) (acc : Z) :
  digits_value (s ++ t)%string acc = digits_value t (digits_value s acc).
Proof.
  revert acc. induction s as [|c s IH]; intros acc; [reflexivity |].
  rewrite append_cons. cbn [digits_value]. apply IH.
Qed.

Lemma digit_char_value (d : Z) :
  (0 <= d < 10)%Z -> (Z.of_nat (Py.code (Py.digit_char d)) - 48 = d)%Z.
Proof.
  intros Hd. unfold Py.digit_char, Py.code.
  rewrite nat_ascii_embedding by lia. lia.
Qed.

(** The digits written for [n] have the value [n]: the fuel is enough. *)
Lemma digits_acc_value (fuel : nat) (n : Z) :
  (0 <= n < 2 ^ Z.of_nat fuel)%Z -> digits_value (Py.digits_acc fuel n "") 0%Z = n.
Proof.
  revert n. induction fuel as [|fuel IH]; intros n Hn.
  - change (2 ^ Z.of_nat 0)%Z with 1%Z in Hn. cbn. lia.
  - cbn [Py.digits_acc].
    pose proof (Z.mod_pos_bound n 10 ltac:(lia)) as Hmod.
    destruct (n <? 10)%Z eqn:Hlt.
    + apply Z.ltb_lt in Hlt. cbn [digits_value].
      rewrite digit_char_value by lia. rewrite Z.mod_small by lia. lia.
    + apply Z.ltb_ge in Hlt. rewrite digits_acc_app, digits_value_app.
      cbn [digits_value]. rewrite digit_char_value by lia.
      rewrite IH.
      * pose proof (Z.div_mod n 10 ltac:(lia)). lia.
      * split; [apply Z.div_pos; lia |].
        apply Z.div_lt_upper_bound; [lia |].
        rewrite Nat2Z.inj_succ, Z.pow_succ_r in Hn by lia. lia.
Qed.

Lemma str_of_int_value (n : Z) : (0 <= n)%Z -> digits_value (Py.str_of_int n) 0%Z = n.
Proof.
  intros Hn. unfold Py.str_of_int. rewrite (proj2 (Z.ltb_ge n 0)) by lia.
  apply digits_acc_value. split; [lia |].
  destruct (Z.eq_dec n 0%Z) as [-> | Hpos]; [cbn; lia |].
  rewrite Nat2Z.inj_succ, Z2Nat.id by apply Z.log2_nonneg.
  apply Z.log2_spec. lia.
Qed.

(** ** The timestamp of a synthesized reference *)

Lemma digits_acc_low_six (fuel : nat) (n : Z) :
  (100000 <= n)%Z -> (6 <= fuel)%nat ->
  exists pre,
    Py.digits_acc fuel n ""
    = (pre ++ String (decimal_digit n 5) (String (decimal_digit n 4)
               (String (decimal_digit n 3) (String (decimal_digit n 2)
                  (String (decimal_digit n 1) (String (decimal_digit n 0) ""))))))%string.
Proof.
  intros Hn Hfuel.
  do 6 (destruct fuel as [|fuel]; [lia |]). clear Hfuel.
  unfold decimal_digit.
  change (10 ^ 0)%Z with 1%Z. change (10 ^ 1)%Z with 10%Z.
  change (10 ^ 2)%Z with (10 * 10)%Z. change (10 ^ 3)%Z with (10 * 10 * 10)%Z.
  change (10 ^ 4)%Z with (10 * 10 * 10 * 10)%Z.
  change (10 ^ 5)%Z with (10 * 10 * 10 * 10 * 10)%Z.
  rewrite Z.div_1_r, <- !Z.div_div by lia.
  cbn [Py.digits_acc].
  assert (H1 : (10000 <= n / 10)%Z) by (apply Z.div_le_lower_bound; lia).
  assert (H2 : (1000 <= n / 10 / 10)%Z) by (apply Z.div_le_lower_bound; lia).
  assert (H3 : (100 <= n / 10 / 10 / 10)%Z) by (apply Z.div_le_lower_bound; lia).
  assert (H4 : (10 <= n / 10 / 10 / 10 / 10)%Z) by (apply Z.div_le_lower_bound; lia).
  rewrite (proj2 (Z.ltb_ge n 10)) by lia.
  rewrite (proj2 (Z.ltb_ge (n / 10) 10)) by lia.
  rewrite (proj2 (Z.ltb_ge (n / 10 / 10) 10)) by lia.
  rewrite (proj2 (Z.ltb_ge (n / 10 / 10 / 10) 10)) by lia.
  rewrite (proj2 (Z.ltb_ge (n / 10 / 10 / 10 / 10) 10)) by lia.
  destruct (n / 10 / 10 / 10 / 10 / 10 <? 10)%Z.
  - now exists "".
  - rewrite digits_acc_app. eexists. reflexivity.
Qed.

Lemma digits_acc_short (k fuel : nat) (n : Z) :
  (0 <= n < 10 ^ Z.of_nat (S k))%Z ->
  (String.length (Py.digits_acc fuel n "") <= S k)%nat.
Proof.
  revert k n. induction fuel as [|fuel IH]; intros k n Hn; [cbn; lia |].
  cbn [Py.digits_acc]. destruct (n <? 10)%Z eqn:Hlt; [cbn; lia |].
  apply Z.ltb_ge in Hlt. rewrite digits_acc_app, length_append. cbn [String.length].
  destruct k as [|k]; [change (10 ^ Z.of_nat 1)%Z with 10%Z in Hn; lia |].
  assert (Hdiv : (0 <= n / 10 < 10 ^ Z.of_nat (S k))%Z).
  { split; [apply Z.div_pos; lia |].
    apply Z.div_lt_upper_bound; [lia |].
    replace (Z.of_nat (S (S k))) with (Z.succ (Z.of_nat (S k))) in Hn by lia.
    rewrite Z.pow_succ_r in Hn by lia. lia. }
  specialize (IH k (n / 10)%Z Hdiv). lia.
Qed.

Lemma last_chars_short (n : nat) (s : string) :
  (String.length s <= n)%nat -> Py.last_chars n s = s.
Proof.
  intros Hlen. unfold Py.last_chars.
  replace (String.length s - n)%nat with 0%nat by lia.
  revert n Hlen. induction s as [|c s IH]; intros n Hlen; [now destruct n |].
  destruct n as [|n]; [cbn in Hlen; lia |].
  cbn [String.substring]. rewrite IH; [reflexivity | cbn in Hlen; lia].
Qed.

(** ** The fuzzy fallback: cleaned patterns and stored values *)

Lemma has_char_remove_chars (p : ascii -> bool) (c : ascii) (s : string) :
  p c = true -> has_char c (Py.remove_chars p s) = false.
Proof.
  intros Hc. induction s as [|d s IH]; [reflexivity |].
  cbn [Py.remove_chars]. destruct (p d) eqn:Hd; [exact IH |].
  cbn [has_char]. rewrite IH, orb_false_r.
  apply bool_decide_eq_false_2. intros ->. congruence.
Qed.

Lemma prefix_third_char (a b c : ascii) (s : string) :
  String.prefix (String a (String b (String c ""))) s = true -> has_char c s = true.
Proof.
  destruct s as [|x [|y [|z s]]]; cbn; try discriminate;
    destruct (ascii_dec a x); try discriminate;
    destruct (ascii_dec b y); try discriminate.
  destruct (ascii_dec c z) as [-> |]; [| discriminate].
  intros _. rewrite (bool_decide_eq_true_2 (z = z) eq_refl). now rewrite !orb_true_r.
Qed.

(** Replacing a three-character token whose last character does not occur
    in the string changes nothing. *)
Lemma replace_without_last_char (a b c : ascii) (new s : string) :
  has_char c s = false ->
  Py.replace (String a (String b (String c ""))) new s = s.
Proof.
  unfold Py.replace. induction s as [|d s IH]; [reflexivity |].
  intros Hc. cbn [Py.replace_go].
  destruct (String.prefix (String a (String b (String c ""))) (String d s)) eqn:Hp.
  - apply prefix_third_char in Hp. congruence.
  - cbn [has_char] in Hc. apply orb_false_elim in Hc as [_ Hc]. now rewrite IH.
Qed.

Lemma has_char_lstrip (c : ascii) (s : string) :
  has_char c (Py.lstrip s) = true -> has_char c s = true.
Proof.
  induction s as [|d s IH]; [discriminate |]. cbn [Py.lstrip].
  destruct (Py.isspace d); [| auto]. intros H. cbn [has_char]. now rewrite IH, orb_true_r.
Qed.

Lemma has_char_rev_app (c : ascii) (s t : string) :
  has_char c (String.rev_app s t) = has_char c s || has_char c t.
Proof.
  revert t. induction s as [|d s IH]; intros t; [reflexivity |].
  cbn [String.rev_app has_char]. rewrite IH. cbn [has_char].
  destruct (bool_decide (c = d)), (has_char c s), (has_char c t); reflexivity.
Qed.

Lemma has_char_rev (c : ascii) (s : string) : has_char c (String.rev s) = has_char c s.
Proof. unfold String.rev. rewrite has_char_rev_app. cbn. now rewrite orb_false_r. Qed.

Lemma has_char_strip (c : ascii) (s : string) :
  has_char c (Py.strip s) = true -> has_char c s = true.
Proof.
  unfold Py.strip, Py.rstrip. rewrite has_char_rev. intros H.
  apply has_char_lstrip in H. rewrite has_char_rev in H. now apply has_char_lstrip.
Qed.

Lemma length_lstrip (s : string) : (String.length (Py.lstrip s) <= String.length s)%nat.
Proof.
  induction s as [|d s IH]; [reflexivity |]. cbn [Py.lstrip].
  destruct (Py.isspace d); cbn [String.length]; lia.
Qed.

Lemma length_rev_app (s t : string) :
  String.length (String.rev_app s t) = (String.length s + String.length t)%nat.
Proof.
  revert t. induction s as [|d s IH]; intros t; [reflexivity |].
  cbn [String.rev_app]. rewrite IH. cbn [String.length]. lia.
Qed.

Lemma length_strip (s : string) : (String.length (Py.strip s) <= String.length s)%nat.
Proof.
  unfold Py.strip, Py.rstrip, String.rev. rewrite length_rev_app. cbn [String.length].
  pose proof (length_lstrip (String.rev_app (Py.lstrip s) "")) as H1.
  rewrite length_rev_app in H1. cbn [String.length] in H1.
  pose proof (length_lstrip s). lia.
Qed.

Lemma length_substring (lo n : nat) (s : string) :
  (String.length (String.substring lo n s) <= n)%nat.
Proof.
  revert lo n. induction s as [|d s IH]; intros lo n.
  - destruct lo, n; cbn; lia.
  - destruct lo as [|lo].
    + destruct n as [|n]; [cbn; lia |]. cbn [String.substring String.length].
      specialize (IH 0%nat n). lia.
    + cbn [String.substring]. apply IH.
Qed.

Lemma length_first_line (s : string) :
  (String.length (Py.first_line s) <= String.length s)%nat.
Proof.
  induction s as [|d s IH]; [reflexivity |]. cbn [Py.first_line].
  destruct (Py.code d =? 10)%nat; cbn [String.length]; lia.
Qed.

Lemma first_line_no_newline (s : string) : has_char newline (Py.first_line s) = false.
Proof.
  induction s as [|d s IH]; [reflexivity |]. cbn [Py.first_line].
  destruct (Py.code d =? 10)%nat eqn:Hd; [reflexivity |].
  cbn [has_char]. rewrite IH, orb_false_r.
  apply bool_decide_eq_false_2. intros <-. discriminate Hd.
Qed.

(** ** Rounding to binary64 *)

Section Binary64.

Local Open Scope Z_scope.

Lemma digits2_pos_bounds (p : positive) :
  2 ^ (Zpos (SpecFloat.digits2_pos p) - 1) <= Zpos p < 2 ^ Zpos (SpecFloat.digits2_pos p).
Proof.
  induction p as [p IH | p IH |]; cbn [SpecFloat.digits2_pos].
  - rewrite Pos2Z.inj_succ. replace (Z.succ (Zpos (SpecFloat.digits2_pos p)) - 1)
      with (Z.succ (Zpos (SpecFloat.digits2_pos p) - 1)) by lia.
    rewrite !Z.pow_succ_r by lia. lia.
  - rewrite Pos2Z.inj_succ. replace (Z.succ (Zpos (SpecFloat.digits2_pos p)) - 1)
      with (Z.succ (Zpos (SpecFloat.digits2_pos p) - 1)) by lia.
    rewrite !Z.pow_succ_r by lia. lia.
  - cbn. lia.
Qed.

Lemma shr_1_nonneg (m : Z) (r s : bool) :
  0 <= m ->
  SpecFloat.shr_1 {| SpecFloat.shr_m := m; SpecFloat.shr_r := r; SpecFloat.shr_s := s |}
  = {| SpecFloat.shr_m := m / 2; SpecFloat.shr_r := Z.odd m; SpecFloat.shr_s := r || s |}.
Proof.
  intros Hm. destruct m as [|p|p]; [reflexivity | | lia].
  destruct p as [p|p|]; cbn [SpecFloat.shr_1].
  - f_equal. rewrite Pos2Z.inj_xI. symmetry.
    rewrite (Z.mul_comm 2), Z.div_add_l by lia. reflexivity.
  - f_equal. rewrite Pos2Z.inj_xO. symmetry.
    rewrite (Z.mul_comm 2), Z.div_mul by lia. reflexivity.
  - reflexivity.
Qed.

Lemma iter_pos_nat {A : Type} (f : A -> A) (p : positive) (x : A) :
  SpecFloat.iter_pos f p x = Nat.iter (Pos.to_nat p) f x.
Proof.
  revert x. induction p as [p IH | p IH |]; intros x; cbn [SpecFloat.iter_pos].
  - rewrite !IH, Pos2Nat.inj_xI. 
    replace (S (2 * Pos.to_nat p))%nat with (Pos.to_nat p + (Pos.to_nat p + 1))%nat by lia.
    rewrite !Nat.iter_add. reflexivity.
  - rewrite !IH, Pos2Nat.inj_xO.
    replace (2 * Pos.to_nat p)%nat with (Pos.to_nat p + Pos.to_nat p)%nat by lia.
    rewrite Nat.iter_add. reflexivity.
  - reflexivity.
Qed.

Lemma mod_pow2_succ (m : Z) (k : Z) :
  0 <= k ->
  m mod 2 ^ (k + 1) = m mod 2 ^ k + 2 ^ k * (if Z.odd (m / 2 ^ k) then 1 else 0).
Proof.
  intros Hk. rewrite Z.pow_add_r, Z.pow_1_r by lia.
  assert (Hpos : 0 < 2 ^ k) by (apply Z.pow_pos_nonneg; lia).
  rewrite Z.rem_mul_r by lia. f_equal. f_equal.
  rewrite Zmod_odd. reflexivity.
Qed.

Lemma shr_iter (m : Z) (k : nat) :
  0 <= m ->
  Nat.iter (S k) SpecFloat.shr_1
    {| SpecFloat.shr_m := m; SpecFloat.shr_r := false; SpecFloat.shr_s := false |}
  = {| SpecFloat.shr_m := m / 2 ^ Z.of_nat (S k);
       SpecFloat.shr_r := Z.odd (m / 2 ^ Z.of_nat k);
       SpecFloat.shr_s := negb (m mod 2 ^ Z.of_nat k =? 0) |}.
Proof.
  intros Hm. induction k as [|k IH].
  - cbn [Nat.iter]. rewrite shr_1_nonneg by lia. cbn. rewrite Z.div_1_r, Z.mod_1_r.
    reflexivity.
  - change (Nat.iter (S (S k)) ?f ?x) with (f (Nat.iter (S k) f x)). rewrite IH.
    assert (Hpos : 0 < 2 ^ Z.of_nat (S k)) by (apply Z.pow_pos_nonneg; lia).
    rewrite shr_1_nonneg by (apply Z.div_pos; lia).
    f_equal.
    + rewrite Z.div_div by lia. f_equal.
      rewrite (Nat2Z.inj_succ (S k)), Z.pow_succ_r by lia. lia.
    + replace (Z.of_nat (S k)) with (Z.of_nat k + 1) by lia.
      rewrite (mod_pow2_succ m (Z.of_nat k)) by lia.
      assert (Hlow := Z.mod_pos_bound m (2 ^ Z.of_nat k) ltac:(apply Z.pow_pos_nonneg; lia)).
      assert (Hp : 0 < 2 ^ Z.of_nat k) by (apply Z.pow_pos_nonneg; lia).
      destruct (Z.odd (m / 2 ^ Z.of_nat k)); cbn [orb].
      * symmetry. apply negb_true_iff, Z.eqb_neq. lia.
      * rewrite Z.mul_0_r, Z.add_0_r. reflexivity.
Qed.

Lemma rne_of_record (m : Z) (k : nat) :
  0 <= m ->
  let rec := Nat.iter (S k) SpecFloat.shr_1
    {| SpecFloat.shr_m := m; SpecFloat.shr_r := false; SpecFloat.shr_s := false |} in
  SpecFloat.round_nearest_even (SpecFloat.shr_m rec) (SpecFloat.loc_of_shr_record rec)
  = rne m (Z.of_nat (S k)).
Proof.
  intros Hm rec. subst rec. rewrite shr_iter by lia.
  unfold rne. cbn [SpecFloat.shr_m SpecFloat.loc_of_shr_record].
  replace (Z.of_nat (S k)) with (Z.of_nat k + 1) by lia.
  rewrite (mod_pow2_succ m (Z.of_nat k)) by lia.
  assert (Hp : 0 < 2 ^ Z.of_nat k) by (apply Z.pow_pos_nonneg; lia).
  assert (Hlow := Z.mod_pos_bound m (2 ^ Z.of_nat k) Hp).
  rewrite (Z.pow_add_r 2 (Z.of_nat k) 1), Z.pow_1_r by lia.
  destruct (Z.odd (m / 2 ^ Z.of_nat k)).
  - destruct (Z.eqb_spec (m mod 2 ^ Z.of_nat k) 0) as [Hz | Hz]; cbn [negb].
    + rewrite Hz. replace (2 * (0 + 2 ^ Z.of_nat k * 1) ?= 2 ^ Z.of_nat k * 2) with Eq
        by (symmetry; apply Z.compare_eq_iff; lia).
      reflexivity.
    + replace (2 * (m mod 2 ^ Z.of_nat k + 2 ^ Z.of_nat k * 1) ?= 2 ^ Z.of_nat k * 2) with Gt
        by (symmetry; apply Z.compare_gt_iff; lia).
      reflexivity.
  - replace (2 * (m mod 2 ^ Z.of_nat k + 2 ^ Z.of_nat k * 0) ?= 2 ^ Z.of_nat k * 2) with Lt
      by (symmetry; apply Z.compare_lt_iff; lia).
    destruct (negb (m mod 2 ^ Z.of_nat k =? 0)); reflexivity.
Qed.

Lemma rne_cases (m k : Z) :
  0 <= k ->
  let q := m / 2 ^ k in
  let r := m mod 2 ^ k in
  m = 2 ^ k * q + r /\ 0 <= r < 2 ^ k
  /\ ((2 * r < 2 ^ k /\ rne m k = q)
      \/ (2 * r = 2 ^ k /\ rne m k = (if Z.even q then q else q + 1))
      \/ (2 ^ k < 2 * r /\ rne m k = q + 1)).
Proof.
  intros Hk q r.
  assert (Hp : 0 < 2 ^ k) by (apply Z.pow_pos_nonneg; lia).
  split; [apply Z.div_mod; lia |]. split; [apply Z.mod_pos_bound; lia |].
  unfold rne. fold q r.
  destruct (Z.compare_spec (2 * r) (2 ^ k)); auto.
Qed.

Lemma rne_mono (m1 m2 k : Z) : 0 <= k -> m1 <= m2 -> rne m1 k <= rne m2 k.
Proof.
  intros Hk Hle.
  assert (Hp : 0 < 2 ^ k) by (apply Z.pow_pos_nonneg; lia).
  destruct (rne_cases m1 k Hk) as (H1 & Hr1 & C1).
  destruct (rne_cases m2 k Hk) as (H2 & Hr2 & C2).
  assert (Hq : m1 / 2 ^ k <= m2 / 2 ^ k) by (apply Z.div_le_mono; lia).
  destruct (Z.eq_dec (m1 / 2 ^ k) (m2 / 2 ^ k)) as [Heq | Hne].
  - assert (Hr : m1 mod 2 ^ k <= m2 mod 2 ^ k) by lia.
    destruct C1 as [[? ->] | [[? ->] | [? ->]]], C2 as [[? ->] | [[? ->] | [? ->]]];
      rewrite ?Heq; try destruct (Z.even (m2 / 2 ^ k)); lia.
  - assert (rne m1 k <= m1 / 2 ^ k + 1)
      by (destruct C1 as [[? ->] | [[? ->] | [? ->]]]; try destruct (Z.even (m1 / 2 ^ k)); lia).
    assert (m2 / 2 ^ k <= rne m2 k)
      by (destruct C2 as [[? ->] | [[? ->] | [? ->]]]; try destruct (Z.even (m2 / 2 ^ k)); lia).
    lia.
Qed.

Lemma rne_exact (a k : Z) : 0 <= k -> rne (a * 2 ^ k) k = a.
Proof.
  intros Hk. assert (Hp : 0 < 2 ^ k) by (apply Z.pow_pos_nonneg; lia).
  unfold rne. rewrite Z.mod_mul, Z.div_mul by lia.
  replace (2 * 0 ?= 2 ^ k) with Lt by (symmetry; apply Z.compare_lt_iff; lia).
  reflexivity.
Qed.

Lemma rne_scale (m k j : Z) : 0 <= k -> 0 <= j -> rne (m * 2 ^ j) (k + j) = rne m k.
Proof.
  intros Hk Hj.
  assert (Hp : 0 < 2 ^ k) by (apply Z.pow_pos_nonneg; lia).
  assert (Hpj : 0 < 2 ^ j) by (apply Z.pow_pos_nonneg; lia).
  unfold rne. rewrite Z.pow_add_r by lia.
  rewrite Z.div_mul_cancel_r by lia.
  rewrite Zmult_mod_distr_r.
  assert (Hc : (2 * (m mod 2 ^ k * 2 ^ j) ?= 2 ^ k * 2 ^ j) = (2 * (m mod 2 ^ k) ?= 2 ^ k)).
  { destruct (Z.compare_spec (2 * (m mod 2 ^ k)) (2 ^ k)) as [H | H | H].
    - apply Z.compare_eq_iff. nia.
    - apply Z.compare_lt_iff. nia.
    - apply Z.compare_gt_iff. nia. }
  rewrite Hc. reflexivity.
Qed.

Lemma rne_error (m k : Z) : 0 <= k -> 2 * Z.abs (rne m k * 2 ^ k - m) <= 2 ^ k.
Proof.
  intros Hk. destruct (rne_cases m k Hk) as (H1 & Hr1 & C1).
  destruct C1 as [[? ->] | [[? ->] | [? ->]]]; try destruct (Z.even (m / 2 ^ k)); lia.
Qed.

Lemma rne_nonneg (m k : Z) : 0 <= k -> 0 <= m -> 0 <= rne m k.
Proof.
  intros Hk Hm. rewrite <- (rne_exact 0 k Hk). apply rne_mono; lia.
Qed.

Lemma fexp_eq (x : Z) : SpecFloat.fexp prec emax x = Z.max (x - 53) (-1074).
Proof. reflexivity. Qed.

Lemma rne_le_pow53 (p : positive) (e : Z) :
  let n := round_exponent (Zpos p) e - e in
  0 < n -> 0 <= rne (Zpos p) n <= 2 ^ 53.
Proof.
  intros n Hn. split; [apply rne_nonneg; lia |].
  rewrite <- (rne_exact (2 ^ 53) n) by lia. apply rne_mono; [lia |].
  pose proof (digits2_pos_bounds p) as [_ Hd].
  unfold n, round_exponent in *. cbn [SpecFloat.Zdigits2] in *. rewrite fexp_eq in *.
  set (d := Zpos (SpecFloat.digits2_pos p)) in *.
  assert (Hle : d <= 53 + (Z.max (d + e - 53) (-1074) - e)) by lia.
  assert (2 ^ d <= 2 ^ (53 + (Z.max (d + e - 53) (-1074) - e)))
    by (apply Z.pow_le_mono_r; lia).
  rewrite Z.pow_add_r in * by lia. lia.
Qed.

Lemma Zdigits2_le (q : positive) (b : Z) :
  0 <= b -> Zpos q < 2 ^ b -> Zpos (SpecFloat.digits2_pos q) <= b.
Proof.
  intros Hb Hq. pose proof (digits2_pos_bounds q) as [Hd _].
  destruct (Z_le_gt_dec (Zpos (SpecFloat.digits2_pos q)) b) as [H | H]; [exact H |].
  assert (2 ^ b <= 2 ^ (Zpos (SpecFloat.digits2_pos q) - 1))
    by (apply Z.pow_le_mono_r; lia).
  lia.
Qed.

Lemma binary_round_aux_rounded (s : bool) (p : positive) (e : Z) :
  let '(J, e') := rounded (Zpos p) e in
  0 <= J
  /\ ((J = 0 /\ SpecFloat.binary_round_aux prec emax s (Zpos p) e SpecFloat.loc_Exact
                = S754_zero s)
      \/ (exists m' e'',
            0 < J /\ e' <= e'' /\ (Zpos m' * 2 ^ (e'' - e') = J)%Z
            /\ SpecFloat.binary_round_aux prec emax s (Zpos p) e SpecFloat.loc_Exact
               = if e'' <=? emax - prec then S754_finite s m' e'' else S754_infinity s)).
Proof.
  unfold rounded, SpecFloat.binary_round_aux, SpecFloat.shr_fexp, SpecFloat.shr.
  fold (round_exponent (Zpos p) e).
  destruct (round_exponent (Zpos p) e - e) as [|k|k] eqn:Hn.
  - cbn [Z.leb Z.compare]. split; [lia |]. right.
    cbn [SpecFloat.shr_record_of_loc SpecFloat.shr_m SpecFloat.loc_of_shr_record
         SpecFloat.round_nearest_even].
    fold (round_exponent (Zpos p) e). rewrite Hn.
    exists p, e. cbn [SpecFloat.shr_m]. rewrite Z.sub_diag. repeat split; lia.
  - replace (Zpos k <=? 0) with false by (symmetry; apply Z.leb_gt; lia).
    pose proof (rne_le_pow53 p e) as Hb. cbv zeta in Hb. rewrite Hn in Hb.
    specialize (Hb ltac:(lia)).
    cbn [SpecFloat.shr_record_of_loc].
    rewrite iter_pos_nat.
    destruct (Pos2Nat.is_succ k) as [k' Hk']. rewrite Hk'.
    pose proof (rne_of_record (Zpos p) k' ltac:(lia)) as Hr. cbv zeta in Hr.
    rewrite Hr. replace (Z.of_nat (S k')) with (Zpos k) by lia.
    set (J := rne (Zpos p) (Zpos k)) in *.
    replace (e + Zpos k) with (round_exponent (Zpos p) e) by lia.
    set (E := round_exponent (Zpos p) e) in *.
    assert (HE : -1074 <= E) by (unfold E, round_exponent; rewrite fexp_eq; lia).
    split; [lia |].
    destruct (Z.eq_dec J 0) as [H0 | H0].
    + left. split; [exact H0 |]. rewrite H0. cbn [SpecFloat.Zdigits2].
      rewrite fexp_eq.
      destruct (Z.max (0 + E - 53) (-1074) - E) eqn:Hn2; try lia; reflexivity.
    + right. destruct (Z.eq_dec J (2 ^ 53)) as [H53 | H53].
      * rewrite H53. exists (Z.to_pos (2 ^ 52)), (E + 1).
        split; [lia |]. split; [lia |]. split; [replace (E + 1 - E) with 1 by lia; reflexivity |].
        change (SpecFloat.Zdigits2 (2 ^ 53)) with 54. rewrite fexp_eq.
        replace (Z.max (54 + E - 53) (-1074) - E) with 1 by lia.
        reflexivity.
      * destruct J as [|q|q] eqn:HI; [lia | | lia].
        exists q, E. split; [lia |]. split; [lia |].
        split; [rewrite Z.sub_diag; lia |].
        cbn [SpecFloat.Zdigits2]. rewrite fexp_eq.
        pose proof (Zdigits2_le q 53 ltac:(lia) ltac:(lia)).
        destruct (Z.max (Zpos (SpecFloat.digits2_pos q) + E - 53) (-1074) - E) eqn:Hn2;
          try lia; reflexivity.
  - replace (Zneg k <=? 0) with true by (symmetry; apply Z.leb_le; lia).
    split; [lia |]. right.
    cbn [SpecFloat.shr_record_of_loc SpecFloat.shr_m SpecFloat.loc_of_shr_record
         SpecFloat.round_nearest_even].
    fold (round_exponent (Zpos p) e). rewrite Hn.
    exists p, e. cbn [SpecFloat.shr_m]. rewrite Z.sub_diag. repeat split; lia.
Qed.

Local Open Scope Q_scope.

Lemma two_neq_0 : ~ 2 == 0.
Proof. discriminate. Qed.

Lemma pow2_pos (e : Z) : 0 < 2 ^ e.
Proof. apply Qpower_0_lt. reflexivity. Qed.

Lemma pow2_add (a b : Z) : 2 ^ (a + b) == 2 ^ a * 2 ^ b.
Proof. apply Qpower_plus, two_neq_0. Qed.

Lemma pow2_inject (k : Z) : (0 <= k)%Z -> inject_Z (2 ^ k) == 2 ^ k.
Proof. intros Hk. now rewrite Zpower_Qpower. Qed.

Lemma pow2_le (a b : Z) : (a <= b)%Z -> 2 ^ a <= 2 ^ b.
Proof.
  intros H. replace b with (a + (b - a))%Z by lia. rewrite pow2_add.
  rewrite <- (Qmult_1_r (2 ^ a)) at 1.
  apply Qmult_le_l; [apply pow2_pos |].
  rewrite <- pow2_inject by lia. change 1 with (inject_Z 1). rewrite <- Zle_Qle.
  assert (0 < 2 ^ (b - a))%Z by (apply Z.pow_pos_nonneg; lia). lia.
Qed.

Lemma dyadic_scale (m e k : Z) : (0 <= k)%Z -> dyadic (m * 2 ^ k) e == dyadic m (e + k).
Proof.
  intros Hk. unfold dyadic. rewrite inject_Z_mult, pow2_inject, pow2_add by lia. ring.
Qed.

Lemma dyadic_le (a b e : Z) : dyadic a e <= dyadic b e <-> (a <= b)%Z.
Proof.
  unfold dyadic. rewrite Zle_Qle. split; intros H.
  - apply Qmult_le_r in H; [exact H | apply pow2_pos].
  - apply Qmult_le_r; [apply pow2_pos | exact H].
Qed.

Lemma dyadic_lt (a b e : Z) : dyadic a e < dyadic b e <-> (a < b)%Z.
Proof.
  unfold dyadic. rewrite Zlt_Qlt. split; intros H.
  - apply Qmult_lt_r in H; [exact H | apply pow2_pos].
  - apply Qmult_lt_r; [apply pow2_pos | exact H].
Qed.

Lemma dyadic_pow2 (k e : Z) : (0 <= k)%Z -> dyadic (2 ^ k) e == 2 ^ (k + e).
Proof. intros Hk. unfold dyadic. now rewrite pow2_inject, pow2_add. Qed.

Lemma dyadic_nonneg (m e : Z) : (0 <= m)%Z -> 0 <= dyadic m e.
Proof.
  intros Hm. unfold dyadic. apply Qmult_le_0_compat.
  - change 0 with (inject_Z 0). now rewrite <- Zle_Qle.
  - apply Qlt_le_weak, pow2_pos.
Qed.

(** The digits of a positive number bound its value. *)
Lemma dyadic_digits (p : positive) (e : Z) :
  2 ^ (Zpos (SpecFloat.digits2_pos p) + e - 1) <= dyadic (Zpos p) e
  /\ dyadic (Zpos p) e < 2 ^ (Zpos (SpecFloat.digits2_pos p) + e).
Proof.
  pose proof (digits2_pos_bounds p) as [Hlo Hhi].
  set (d := Zpos (SpecFloat.digits2_pos p)) in *.
  assert (Hd : (1 <= d)%Z) by (unfold d; lia).
  split.
  - replace (d + e - 1)%Z with (d - 1 + e)%Z by lia.
    rewrite <- dyadic_pow2 by lia. now apply dyadic_le.
  - rewrite <- dyadic_pow2 by lia. now apply dyadic_lt.
Qed.

Lemma rounded_value_rne (m e N : Z) :
  (0 <= N)%Z -> (round_exponent m e - e <= N)%Z ->
  rounded_value m e
  == dyadic (rne (m * 2 ^ (N - (round_exponent m e - e))) N) (round_exponent m e).
Proof.
  intros HN Hn. unfold rounded_value, rounded.
  set (E := round_exponent m e) in *.
  destruct (Z.leb_spec (E - e) 0) as [Hle | Hgt]; cbn [fst snd].
  - replace (N - (E - e))%Z with ((e - E) + N)%Z by lia.
    rewrite Z.pow_add_r, Z.mul_assoc by lia. rewrite rne_exact by lia.
    rewrite dyadic_scale by lia. now replace (E + (e - E))%Z with e by lia.
  - replace N with ((E - e) + (N - (E - e)))%Z at 2 by lia.
    rewrite rne_scale by lia. reflexivity.
Qed.

Lemma round_exponent_mono (p1 p2 : positive) (e1 e2 : Z) :
  dyadic (Zpos p1) e1 <= dyadic (Zpos p2) e2 ->
  (round_exponent (Zpos p1) e1 <= round_exponent (Zpos p2) e2)%Z.
Proof.
  intros Hle. unfold round_exponent. cbn [SpecFloat.Zdigits2]. rewrite !fexp_eq.
  pose proof (dyadic_digits p1 e1) as [Hlo1 _].
  pose proof (dyadic_digits p2 e2) as [_ Hhi2].
  set (d1 := Zpos (SpecFloat.digits2_pos p1)) in *.
  set (d2 := Zpos (SpecFloat.digits2_pos p2)) in *.
  destruct (Z_le_gt_dec (d1 + e1) (d2 + e2)) as [H | H]; [lia |].
  exfalso. assert (Hp : 2 ^ (d2 + e2) <= 2 ^ (d1 + e1 - 1)) by (apply pow2_le; lia).
  apply (Qlt_irrefl (dyadic (Zpos p2) e2)).
  eapply Qlt_le_trans; [exact Hhi2 |].
  eapply Qle_trans; [exact Hp |]. eapply Qle_trans; [exact Hlo1 | exact Hle].
Qed.

Lemma round_exponent_pos (p : positive) (e : Z) :
  let d := Zpos (SpecFloat.digits2_pos p) in
  (round_exponent (Zpos p) e = Z.max (d + e - 53) (-1074))%Z.
Proof. reflexivity. Qed.

Lemma rounded_value_upper (p : positive) (e : Z) :
  rounded_value (Zpos p) e <= 2 ^ (53 + round_exponent (Zpos p) e).
Proof.
  pose proof (round_exponent_pos p e) as HE. cbv zeta in HE.
  pose proof (digits2_pos_bounds p) as [_ Hhi].
  set (d := Zpos (SpecFloat.digits2_pos p)) in *.
  set (E := round_exponent (Zpos p) e) in *.
  set (N := Z.max (E - e) 0).
  rewrite (rounded_value_rne (Zpos p) e N) by lia. fold E.
  rewrite <- dyadic_pow2 by lia. apply dyadic_le.
  rewrite <- (rne_exact (2 ^ 53) N) by lia. apply rne_mono; [lia |].
  assert (Hp : (0 < 2 ^ (N - (E - e)))%Z) by (apply Z.pow_pos_nonneg; lia).
  assert (Hd : (2 ^ d * 2 ^ (N - (E - e)) <= 2 ^ 53 * 2 ^ N)%Z).
  { rewrite <- !Z.pow_add_r by lia. apply Z.pow_le_mono_r; lia. }
  nia.
Qed.

Lemma rounded_value_lower (p : positive) (e : Z) :
  (-1074 < round_exponent (Zpos p) e)%Z ->
  2 ^ (52 + round_exponent (Zpos p) e) <= rounded_value (Zpos p) e.
Proof.
  intros Hnormal.
  pose proof (round_exponent_pos p e) as HE. cbv zeta in HE.
  pose proof (digits2_pos_bounds p) as [Hlo _].
  set (d := Zpos (SpecFloat.digits2_pos p)) in *.
  set (E := round_exponent (Zpos p) e) in *.
  assert (Hd1 : (1 <= d)%Z) by (unfold d; lia).
  set (N := Z.max (E - e) 0).
  rewrite (rounded_value_rne (Zpos p) e N) by lia. fold E.
  rewrite <- dyadic_pow2 by lia. apply dyadic_le.
  rewrite <- (rne_exact (2 ^ 52) N) at 1 by lia. apply rne_mono; [lia |].
  assert (Hp : (0 < 2 ^ (N - (E - e)))%Z) by (apply Z.pow_pos_nonneg; lia).
  assert (Hd : (2 ^ 52 * 2 ^ N = 2 ^ (d - 1) * 2 ^ (N - (E - e)))%Z).
  { rewrite <- !Z.pow_add_r by lia. f_equal. lia. }
  nia.
Qed.

(** Rounding to binary64 is monotone. *)
Lemma rounded_value_mono (p1 p2 : positive) (e1 e2 : Z) :
  dyadic (Zpos p1) e1 <= dyadic (Zpos p2) e2 ->
  rounded_value (Zpos p1) e1 <= rounded_value (Zpos p2) e2.
Proof.
  intros Hle. pose proof (round_exponent_mono p1 p2 e1 e2 Hle) as HE.
  set (E1 := round_exponent (Zpos p1) e1) in *.
  set (E2 := round_exponent (Zpos p2) e2) in *.
  destruct (Z.eq_dec E1 E2) as [Heq | Hne].
  - set (N := Z.max (Z.max (E1 - e1) (E2 - e2)) 0).
    rewrite (rounded_value_rne (Zpos p1) e1 N), (rounded_value_rne (Zpos p2) e2 N)
      by (fold E1 E2; lia).
    fold E1 E2. rewrite Heq. apply dyadic_le, rne_mono; [lia |].
    apply (dyadic_le _ _ (E2 - N)).
    rewrite !dyadic_scale by lia.
    replace (E2 - N + (N - (E2 - e1)))%Z with e1 by lia.
    replace (E2 - N + (N - (E2 - e2)))%Z with e2 by lia.
    exact Hle.
  - eapply Qle_trans; [apply rounded_value_upper |].
    eapply Qle_trans; [| apply rounded_value_lower].
    + apply pow2_le. fold E1 E2. lia.
    + pose proof (round_exponent_pos p1 e1) as H1. cbv zeta in H1. fold E1 in H1.
      fold E2. lia.
Qed.

(** A number that needs no rounding is left as it is. *)
Lemma rounded_exact (m e : Z) : (round_exponent m e <= e)%Z -> rounded m e = (m, e).
Proof.
  intros H. unfold rounded.
  now replace (round_exponent m e - e <=? 0)%Z with true by (symmetry; apply Z.leb_le; lia).
Qed.

Lemma dyadic_plus (a b e : Z) : dyadic (a + b) e == dyadic a e + dyadic b e.
Proof. unfold dyadic. rewrite inject_Z_plus. ring. Qed.

(** The error of rounding is at most half a unit of the last place. *)
Lemma rounded_value_error (p : positive) (e : Z) :
  dyadic (Zpos p) e - 2 ^ (round_exponent (Zpos p) e - 1) <= rounded_value (Zpos p) e
  /\ rounded_value (Zpos p) e <= dyadic (Zpos p) e + 2 ^ (round_exponent (Zpos p) e - 1).
Proof.
  set (E := round_exponent (Zpos p) e).
  pose proof (pow2_pos (E - 1)) as Hhalf.
  destruct (Z.leb_spec (E - e) 0) as [Hle | Hgt].
  - unfold rounded_value. rewrite rounded_exact by (fold E; lia). cbn [fst snd].
    split; lra.
  - rewrite (rounded_value_rne (Zpos p) e (E - e)) by (fold E; lia). fold E.
    rewrite Z.sub_diag, Z.mul_1_r.
    pose proof (rne_error (Zpos p) (E - e) ltac:(lia)) as Herr.
    set (J := rne (Zpos p) (E - e)) in *.
    assert (Hp : (2 ^ (E - e) = 2 * 2 ^ (E - e - 1))%Z).
    { rewrite <- Z.pow_succ_r by lia. f_equal. lia. }
    assert (HJ : dyadic J E == dyadic (J * 2 ^ (E - e)) e).
    { rewrite dyadic_scale by lia. now replace (e + (E - e))%Z with E by lia. }
    assert (Hh : 2 ^ (E - 1) == dyadic (2 ^ (E - e - 1)) e).
    { rewrite dyadic_pow2 by lia. now replace (E - e - 1 + e)%Z with (E - 1)%Z by lia. }
    rewrite HJ, Hh. split.
    + assert (H : dyadic (Zpos p + - 2 ^ (E - e - 1)) e <= dyadic (J * 2 ^ (E - e)) e)
        by (apply dyadic_le; lia).
      rewrite dyadic_plus in H. unfold dyadic in *. rewrite inject_Z_opp in H. lra.
    + assert (H : dyadic (J * 2 ^ (E - e)) e <= dyadic (Zpos p + 2 ^ (E - e - 1)) e)
        by (apply dyadic_le; lia).
      now rewrite dyadic_plus in H.
Qed.

(** ** Binary64 numbers between 0 and 1 *)

Lemma bounded_canonical (m : positive) (e : Z) :
  SpecFloat.bounded prec emax m e = true ->
  round_exponent (Zpos m) e = e /\ (e <= 971)%Z.
Proof.
  unfold SpecFloat.bounded, SpecFloat.canonical_mantissa. intros H.
  apply andb_true_iff in H as [H1 H2]. apply Z.eqb_eq in H1. apply Z.leb_le in H2.
  split; [exact H1 | exact H2].
Qed.

Lemma canonical_lt (m1 m2 : positive) (e1 e2 : Z) :
  round_exponent (Zpos m1) e1 = e1 -> round_exponent (Zpos m2) e2 = e2 ->
  (e1 < e2)%Z -> dyadic (Zpos m1) e1 < dyadic (Zpos m2) e2.
Proof.
  intros H1 H2 Hlt. rewrite round_exponent_pos in H1, H2. cbv zeta in H1, H2.
  pose proof (dyadic_digits m1 e1) as [_ Hhi]. pose proof (dyadic_digits m2 e2) as [Hlo _].
  eapply Qlt_le_trans; [exact Hhi |]. eapply Qle_trans; [| exact Hlo].
  apply pow2_le. lia.
Qed.

Lemma compare_cont_Eq (m1 m2 : positive) : Pos.compare_cont Eq m1 m2 = (m1 ?= m2)%positive.
Proof. reflexivity. Qed.

Lemma SFltb_value (m1 m2 : positive) (e1 e2 : Z) :
  SpecFloat.bounded prec emax m1 e1 = true -> SpecFloat.bounded prec emax m2 e2 = true ->
  SpecFloat.SFltb (S754_finite false m1 e1) (S754_finite false m2 e2) = true ->
  dyadic (Zpos m1) e1 < dyadic (Zpos m2) e2.
Proof.
  intros B1 B2. apply bounded_canonical in B1 as [C1 _], B2 as [C2 _].
  unfold SpecFloat.SFltb, SpecFloat.SFcompare.
  destruct (Z.compare_spec e1 e2) as [Heq | Hlt | Hgt]; try discriminate.
  - subst e2. rewrite compare_cont_Eq.
    destruct (Pos.compare_spec m1 m2); try discriminate. intros _. apply dyadic_lt. lia.
  - intros _. now apply canonical_lt.
Qed.

Lemma SFleb_value (m1 m2 : positive) (e1 e2 : Z) :
  SpecFloat.bounded prec emax m1 e1 = true -> SpecFloat.bounded prec emax m2 e2 = true ->
  SpecFloat.SFleb (S754_finite false m1 e1) (S754_finite false m2 e2) = true ->
  dyadic (Zpos m1) e1 <= dyadic (Zpos m2) e2.
Proof.
  intros B1 B2. apply bounded_canonical in B1 as [C1 _], B2 as [C2 _].
  unfold SpecFloat.SFleb, SpecFloat.SFcompare.
  destruct (Z.compare_spec e1 e2) as [Heq | Hlt | Hgt]; try discriminate.
  - subst e2. rewrite compare_cont_Eq.
    destruct (Pos.compare_spec m1 m2); try discriminate; intros _; apply dyadic_le; lia.
  - intros _. now apply Qlt_le_weak, canonical_lt.
Qed.

Lemma Prim2SF_one : Prim2SF 1 = S754_finite false 4503599627370496 (-52).
Proof. reflexivity. Qed.

Lemma Prim2SF_zero : Prim2SF 0 = S754_zero false.
Proof. reflexivity. Qed.

Lemma unit_float_of_leb (x : float) :
  PrimFloat.leb 0 x = true -> PrimFloat.leb x 1 = true -> unit_float x.
Proof.
  rewrite !FloatAxioms.leb_spec, Prim2SF_one, Prim2SF_zero. intros H0 H1.
  pose proof (Prim2SF_valid x) as Hv.
  destruct (Prim2SF x) as [s | s | | s m e] eqn:Hx.
  - now apply (unit_zero x s).
  - destruct s; discriminate.
  - discriminate.
  - destruct s; [discriminate |]. cbn in Hv.
    apply (unit_positive x m e Hx Hv).
    assert (Hone : dyadic (Zpos 4503599627370496) (-52) == 1) by reflexivity.
    rewrite <- Hone. apply SFleb_value; [exact Hv | reflexivity | exact H1].
Qed.

(** ** Rounded results that do not overflow *)

Lemma round_result (s : bool) (p : positive) (e : Z) :
  rounded_value (Zpos p) e < 2 ^ 972 ->
  (rounded_value (Zpos p) e == 0
   /\ SpecFloat.binary_round_aux prec emax s (Zpos p) e SpecFloat.loc_Exact = S754_zero s)
  \/ (exists m' e',
        SpecFloat.binary_round_aux prec emax s (Zpos p) e SpecFloat.loc_Exact
        = S754_finite s m' e'
        /\ dyadic (Zpos m') e' == rounded_value (Zpos p) e).
Proof.
  intros Hsmall. pose proof (binary_round_aux_rounded s p e) as H.
  unfold rounded_value in *. destruct (rounded (Zpos p) e) as [J e0]. cbn [fst snd] in *.
  destruct H as (HJ & [[-> Hzero] | (m' & e' & Hpos & He & Hm & Hres)]).
  - left. split; [| exact Hzero]. unfold dyadic. ring.
  - right. exists m', e'.
    assert (Hval : dyadic (Zpos m') e' == dyadic J e0).
    { rewrite <- Hm, dyadic_scale by lia. now replace (e0 + (e' - e0))%Z with e' by lia. }
    split; [| exact Hval].
    destruct (Z.leb_spec e' (emax - prec)) as [Hle | Hgt]; [exact Hres |].
    exfalso. change (emax - prec)%Z with 971%Z in Hgt.
    apply (Qlt_irrefl (2 ^ 972)). eapply Qle_lt_trans; [| exact Hsmall].
    rewrite <- Hval. eapply Qle_trans; [apply (pow2_le 972 e'); lia |].
    rewrite <- (Z.add_0_l e'), <- dyadic_pow2 by lia. apply dyadic_le.
    change (2 ^ 0)%Z with 1%Z. lia.
Qed.

Lemma pos_iter_xO (p k : positive) : (Zpos (Pos.iter xO p k) = Zpos p * 2 ^ Zpos k)%Z.
Proof.
  induction k as [|k IH] using Pos.peano_ind.
  - cbn [Pos.iter]. lia.
  - rewrite Pos.iter_succ, Pos2Z.inj_xO, IH, Pos2Z.inj_succ, Z.pow_succ_r by lia. lia.
Qed.

(** [float(n)] is exact below [2 ^ 53]. *)
Lemma float_of_int_exact (n : Z) :
  (0 < n < 2 ^ 53)%Z ->
  exists m e,
    Prim2SF (float_of_int n) = S754_finite false m e
    /\ SpecFloat.bounded prec emax m e = true
    /\ dyadic (Zpos m) e == inject_Z n.
Proof.
  intros Hn. unfold float_of_int.
  replace (n <? 0)%Z with false by (symmetry; apply Z.ltb_ge; lia).
  pose proof (Prim2SF_valid (of_uint63 (Uint63.of_Z n))) as Hvalid.
  rewrite of_uint63_spec in *. rewrite Uint63.of_Z_spec in *.
  rewrite Z.mod_small in * by (change Uint63.wB with (2 ^ 63)%Z; lia).
  destruct n as [|p|p]; [lia | | lia].
  unfold SpecFloat.binary_normalize, SpecFloat.binary_round in *.
  pose proof (digits2_pos_bounds p) as [Hlo Hhi].
  set (d := Zpos (SpecFloat.digits2_pos p)) in *.
  assert (Hd : (1 <= d <= 53)%Z).
  { split; [unfold d; lia |]. apply Zdigits2_le; lia. }
  rewrite fexp_eq in *. rewrite Z.add_0_r in *.
  replace (Z.max (d - 53) (-1074)) with (d - 53)%Z in * by lia.
  assert (Hshift : exists mz,
            SpecFloat.shl_align p 0 (d - 53) = (mz, (d - 53)%Z)
            /\ (Zpos mz = Zpos p * 2 ^ (53 - d))%Z).
  { unfold SpecFloat.shl_align. destruct (d - 53 - 0)%Z as [|k|k] eqn:Hk.
    - exists p. replace (d - 53)%Z with 0%Z by lia. split; [reflexivity |].
      replace (53 - d)%Z with 0%Z by lia. lia.
    - lia.
    - exists (Pos.iter xO p k). split; [reflexivity |].
      rewrite pos_iter_xO. f_equal. f_equal. lia. }
  destruct Hshift as (mz & Hsh & Hmz). rewrite Hsh in *.
  assert (Hmz53 : (Zpos mz < 2 ^ 53)%Z).
  { rewrite Hmz. replace 53%Z with (d + (53 - d))%Z at 2 by lia.
    rewrite Z.pow_add_r by lia.
    assert (0 < 2 ^ (53 - d))%Z by (apply Z.pow_pos_nonneg; lia). nia. }
  assert (Hexact : rounded (Zpos mz) (d - 53) = (Zpos mz, (d - 53)%Z)).
  { apply rounded_exact. rewrite round_exponent_pos. cbv zeta.
    pose proof (Zdigits2_le mz 53 ltac:(lia) Hmz53). lia. }
  assert (Hvalue : dyadic (Zpos mz) (d - 53) == inject_Z (Zpos p)).
  { rewrite Hmz, dyadic_scale by lia. replace (d - 53 + (53 - d))%Z with 0%Z by lia.
    unfold dyadic. change (2 ^ 0) with 1. ring. }
  destruct (round_result false mz (d - 53)) as [[Hz _] | (m' & e' & Hres & Hval)].
  - unfold rounded_value. rewrite Hexact. cbn [fst snd]. rewrite Hvalue.
    change (2 ^ 972) with (inject_Z (2 ^ 972)). rewrite <- Zlt_Qlt. 
    assert (2 ^ 53 < 2 ^ 972)%Z by (apply Z.pow_lt_mono_r; lia). lia.
  - exfalso. revert Hz. unfold rounded_value. rewrite Hexact. cbn [fst snd].
    rewrite Hvalue. change 0 with (inject_Z 0). rewrite inject_Z_injective. lia.
  - rewrite Hres in *. exists m', e'. split; [reflexivity |]. split; [exact Hvalid |].
    rewrite Hval. unfold rounded_value. rewrite Hexact. exact Hvalue.
Qed.

(** ** Truncation *)

Lemma Qfloor_dyadic (m : positive) (e : Z) :
  Qfloor (dyadic (Zpos m) e)
  = if (0 <=? e)%Z then (Zpos m * 2 ^ e)%Z else (Zpos m / 2 ^ (- e))%Z.
Proof.
  destruct (Z.leb_spec 0 e) as [He | He].
  - assert (H : dyadic (Zpos m) e == inject_Z (Zpos m * 2 ^ e)).
    { unfold dyadic. rewrite inject_Z_mult, pow2_inject by lia. reflexivity. }
    rewrite H. apply Qfloor_Z.
  - assert (Hp : (0 < 2 ^ (- e))%Z) by (apply Z.pow_pos_nonneg; lia).
    assert (H : dyadic (Zpos m) e == Zpos m # Z.to_pos (2 ^ (- e))).
    { rewrite Qmake_Qdiv, Z2Pos.id by lia. unfold dyadic, Qdiv.
      rewrite pow2_inject by lia. rewrite <- Qpower_opp.
      now replace (- - e)%Z with e by lia. }
    rewrite H. cbn [Qfloor]. now rewrite Z2Pos.id by lia.
Qed.

Lemma int_of_float_finite (f : float) (m : positive) (e : Z) :
  Prim2SF f = S754_finite false m e ->
  int_of_float f = Return (Qfloor (float_value f))
  /\ float_value f == dyadic (Zpos m) e.
Proof.
  intros H. unfold int_of_float, float_value. rewrite H. 
  fold (dyadic (Zpos m) e). rewrite Qfloor_dyadic. split; reflexivity.
Qed.

Lemma int_of_float_zero (f : float) (s : bool) :
  Prim2SF f = S754_zero s ->
  int_of_float f = Return (Qfloor (float_value f)) /\ float_value f == 0.
Proof.
  intros H. unfold int_of_float, float_value. rewrite H. split; reflexivity.
Qed.

Lemma unit_float_value (x : float) : unit_float x -> 0 <= float_value x <= 1.
Proof.
  intros [s H | m e H Hb Hle]; unfold float_value; rewrite H.
  - split; [apply Qle_refl | discriminate].
  - fold (dyadic (Zpos m) e). split; [apply dyadic_nonneg; lia | exact Hle].
Qed.

Lemma dyadic_mult (m1 m2 e1 e2 : Z) :
  dyadic (m1 * m2) (e1 + e2) == dyadic m1 e1 * dyadic m2 e2.
Proof. unfold dyadic. rewrite inject_Z_mult, pow2_add. ring. Qed.

(** ** A ratio times a length *)

Lemma scaled_cases (x : float) (n : Z) :
  unit_float x -> (0 < n < 2 ^ 53)%Z -> scaled_spec x n.
Proof.
  intros Hx Hn.
  destruct (float_of_int_exact n Hn) as (mw & ew & HW & HbW & HvW).
  pose proof (bounded_canonical mw ew HbW) as [HcW _].
  destruct Hx as [s H | m e H Hb Hle].
  - assert (Hprod : Prim2SF (x * float_of_int n) = S754_zero (xorb s false)).
    { rewrite FloatAxioms.mul_spec, H, HW. reflexivity. }
    destruct (int_of_float_zero _ _ Hprod) as [Hint Hval].
    apply scaled_zero.
    + unfold float_value. now rewrite H.
    + exact Hval.
    + rewrite Hint. unfold float_value. now rewrite Hprod.
  - assert (Hprod : Prim2SF (x * float_of_int n)
                    = SpecFloat.binary_round_aux prec emax false (Zpos (m * mw)) (e + ew)
                        SpecFloat.loc_Exact).
    { rewrite FloatAxioms.mul_spec, H, HW. reflexivity. }
    assert (Hsmall : rounded_value (Zpos (m * mw)) (e + ew) <= inject_Z n).
    { rewrite <- HvW. 
      assert (Hexact : dyadic (Zpos mw) ew == rounded_value (Zpos mw) ew).
      { unfold rounded_value. rewrite rounded_exact by lia. reflexivity. }
      rewrite Hexact. apply rounded_value_mono.
      rewrite Pos2Z.inj_mul, dyadic_mult.
      rewrite <- (Qmult_1_l (dyadic (Zpos mw) ew)) at 2.
      apply Qmult_le_compat_r; [exact Hle | apply dyadic_nonneg; lia]. }
    assert (Hlt : rounded_value (Zpos (m * mw)) (e + ew) < 2 ^ 972).
    { eapply Qle_lt_trans; [exact Hsmall |].
      change (2 ^ 972) with (inject_Z (2 ^ 972)). rewrite <- Zlt_Qlt.
      assert (2 ^ 53 < 2 ^ 972)%Z by (apply Z.pow_lt_mono_r; lia). lia. }
    destruct (round_result false (m * mw) (e + ew) Hlt)
      as [[Hz Hres] | (m' & e' & Hres & Hval)]; rewrite Hres in Hprod.
    + destruct (int_of_float_zero _ _ Hprod) as [Hint Hv0].
      apply (scaled_positive x n m mw e ew).
      * unfold float_value. rewrite H. reflexivity.
      * now rewrite HvW.
      * exact HcW.
      * rewrite Hv0, <- Pos2Z.inj_mul. now rewrite Hz.
      * exact Hint.
    + destruct (int_of_float_finite _ _ _ Hprod) as [Hint Hv].
      apply (scaled_positive x n m mw e ew).
      * unfold float_value. rewrite H. reflexivity.
      * now rewrite HvW.
      * exact HcW.
      * rewrite Hv, <- Pos2Z.inj_mul. exact Hval.
      * exact Hint.
Qed.

Lemma rounded_value_nonneg (p : positive) (e : Z) : 0 <= rounded_value (Zpos p) e.
Proof.
  set (N := Z.max (round_exponent (Zpos p) e - e) 0).
  rewrite (rounded_value_rne (Zpos p) e N) by lia.
  apply dyadic_nonneg, rne_nonneg; [lia |].
  assert (0 < 2 ^ (N - (round_exponent (Zpos p) e - e)))%Z
    by (apply Z.pow_pos_nonneg; lia).
  lia.
Qed.

Lemma half_ulp_bound (p : positive) (e : Z) :
  2 ^ (round_exponent (Zpos p) e - 1) <= dyadic (Zpos p) e * 2 ^ (-53) + 2 ^ (-1075).
Proof.
  rewrite round_exponent_pos. cbv zeta.
  pose proof (dyadic_digits p e) as [Hlo _].
  set (d := Zpos (SpecFloat.digits2_pos p)) in *.
  pose proof (pow2_pos (-1075)) as Htiny. pose proof (pow2_pos (-53)) as H53.
  destruct (Z.max_spec (d + e - 53) (-1074)) as [[_ ->] | [_ ->]].
  - change (-1074 - 1)%Z with (-1075)%Z.
    assert (0 <= dyadic (Zpos p) e * 2 ^ (-53)).
    { apply Qmult_le_0_compat; [apply dyadic_nonneg; lia | now apply Qlt_le_weak]. }
    lra.
  - replace (d + e - 53 - 1)%Z with ((d + e - 1) + (-53))%Z by lia. rewrite pow2_add.
    assert (2 ^ (d + e - 1) * 2 ^ (-53) <= dyadic (Zpos p) e * 2 ^ (-53))
      by (apply Qmult_le_compat_r; [exact Hlo | now apply Qlt_le_weak]).
    lra.
Qed.

(** The product of a ratio and a length, truncated. *)
Lemma scaled_range (x : float) (n : Z) :
  unit_float x -> (0 < n < 2 ^ 53)%Z ->
  int_of_float (x * float_of_int n) = Return (Qfloor (float_value (x * float_of_int n)))
  /\ 0 <= float_value (x * float_of_int n) <= inject_Z n.
Proof.
  intros Hx Hn. pose proof (unit_float_value x Hx) as [_ Hle].
  destruct (scaled_cases x n Hx Hn) as [Hx0 Hv Hint | m mw e ew Hxv HW HcW Hv Hint].
  - rewrite Hv. split; [exact Hint |]. split; [apply Qle_refl |].
    change 0 with (inject_Z 0). rewrite <- Zle_Qle. lia.
  - split; [exact Hint |]. rewrite Hv, <- Pos2Z.inj_mul. 
    split; [apply rounded_value_nonneg |].
    rewrite HW.
    assert (Hexact : dyadic (Zpos mw) ew == rounded_value (Zpos mw) ew).
    { unfold rounded_value. rewrite rounded_exact by lia. reflexivity. }
    rewrite Hexact. apply rounded_value_mono.
    rewrite Pos2Z.inj_mul, dyadic_mult, <- Hxv.
    rewrite <- (Qmult_1_l (dyadic (Zpos mw) ew)) at 2.
    apply Qmult_le_compat_r; [exact Hle | apply dyadic_nonneg; lia].
Qed.

Lemma scaled_mono (x1 x2 : float) (n : Z) :
  unit_float x1 -> unit_float x2 -> (0 < n < 2 ^ 53)%Z ->
  float_value x1 <= float_value x2 ->
  float_value (x1 * float_of_int n) <= float_value (x2 * float_of_int n).
Proof.
  intros H1 H2 Hn Hle.
  destruct (scaled_cases x1 n H1 Hn) as [Hx1 Hv1 _ | m1 mw1 e1 ew1 Hxv1 HW1 _ Hv1 _].
  - rewrite Hv1. apply (scaled_range x2 n H2 Hn).
  - destruct (scaled_cases x2 n H2 Hn) as [Hx2 Hv2 _ | m2 mw2 e2 ew2 Hxv2 HW2 _ Hv2 _].
    + exfalso. rewrite Hxv1, Hx2 in Hle.
      assert (0 < dyadic (Zpos m1) e1).
      { unfold dyadic. apply Qmult_lt_0_compat; [reflexivity | apply pow2_pos]. }
      lra.
    + rewrite Hv1, Hv2, <- !Pos2Z.inj_mul. apply rounded_value_mono.
      rewrite !Pos2Z.inj_mul, !dyadic_mult, <- Hxv1, <- Hxv2, <- HW1, <- HW2.
      apply Qmult_le_compat_r; [exact Hle |].
      change 0 with (inject_Z 0). rewrite <- Zle_Qle. lia.
Qed.

Lemma scaled_error (x : float) (n : Z) :
  unit_float x -> (0 < n < 2 ^ 53)%Z ->
  let exact := float_value x * inject_Z n in
  let slack := exact * 2 ^ (-53) + 2 ^ (-1075) in
  exact - slack <= float_value (x * float_of_int n)
  /\ float_value (x * float_of_int n) <= exact + slack.
Proof.
  intros Hx Hn exact slack. subst exact slack.
  pose proof (pow2_pos (-1075)) as Htiny. pose proof (pow2_pos (-53)) as H53.
  destruct (scaled_cases x n Hx Hn) as [Hx0 Hv _ | m mw e ew Hxv HW _ Hv _].
  - rewrite Hv, Hx0. split; lra.
  - rewrite Hv, <- Pos2Z.inj_mul.
    pose proof (rounded_value_error (m * mw) (e + ew)) as [Hlo Hhi].
    pose proof (half_ulp_bound (m * mw) (e + ew)) as Hulp.
    assert (Hd : dyadic (Zpos (m * mw)) (e + ew) == float_value x * inject_Z n).
    { rewrite Pos2Z.inj_mul, dyadic_mult, Hxv, HW. reflexivity. }
    rewrite Hd in *. split; lra.
Qed.

End Binary64.

(** ** Field extractor: pixel bounds *)

Lemma slice_len_inside (lo hi n : Z) :
  (0 <= lo)%Z -> (lo <= hi)%Z -> (hi <= n)%Z -> Py.slice_len lo hi n = (hi - lo)%Z.
Proof.
  intros H0 Hle Hn. unfold Py.slice_len, Py.slice_bound.
  rewrite (proj2 (Z.ltb_ge lo 0)), (proj2 (Z.ltb_ge hi 0)) by lia. lia.
Qed.

(** A binary64 ratio whose value lies between 0 and 1. *)
Lemma ratio_unit_float (f : float) (v : Q) :
  ratio_value (PFloat f) = Some v -> (0 <= v)%Q -> (v <= 1)%Q ->
  unit_float f /\ (float_value f == v)%Q.
Proof.
  unfold ratio_value, float_finite, float_value. intros Hv H0 H1.
  pose proof (Prim2SF_valid f) as Hvalid.
  destruct (Prim2SF f) as [s | s | | s m e] eqn:Hf; try discriminate.
  - injection Hv as <-. split; [now apply (unit_zero f s) | reflexivity].
  - injection Hv as <-. destruct s.
    + exfalso. fold (dyadic (Zpos m) e) in H0.
      assert (0 < dyadic (Zpos m) e)%Q.
      { unfold dyadic. apply Qmult_lt_0_compat; [reflexivity | apply pow2_pos]. }
      lra.
    + split; [| reflexivity]. now apply (unit_positive f m e).
Qed.

(** The error that rounding may add to the product of a ratio and a length. *)
Lemma slack_small (v : Q) (n : Z) :
  (0 <= v)%Q -> (v <= 1)%Q -> (0 < n < 2 ^ 31)%Z ->
  (v * inject_Z n * 2 ^ (-53) + 2 ^ (-1075) <= 1 # 4000000)%Q.
Proof.
  intros H0 H1 Hn.
  assert (Hn' : (inject_Z n <= inject_Z (2 ^ 31))%Q) by (rewrite <- Zle_Qle; lia).
  assert (H0n : (0 <= inject_Z n)%Q) by (change 0%Q with (inject_Z 0); rewrite <- Zle_Qle; lia).
  assert (Hvn : (v * inject_Z n <= inject_Z (2 ^ 31))%Q).
  { eapply Qle_trans; [| exact Hn'].
    rewrite <- (Qmult_1_l (inject_Z n)) at 2. now apply Qmult_le_compat_r. }
  assert (H53 : (0 < 2 ^ (-53))%Q) by apply pow2_pos.
  assert (Hprod : (v * inject_Z n * 2 ^ (-53) <= inject_Z (2 ^ 31) * 2 ^ (-53))%Q)
    by (apply Qmult_le_compat_r; [exact Hvn | now apply Qlt_le_weak]).
  eapply Qle_trans; [apply Qplus_le_compat; [exact Hprod | apply Qle_refl] |].
  vm_compute. discriminate.
Qed.

(** [int(ratio * length)] for a ratio between 0 and 1: the truncation of a
    number between 0 and the length that is within the rounding error of the
    exact product. *)
Lemma scale_spec (a : pynum) (v : Q) (n : Z) :
  ratio_value a = Some v -> (0 <= v)%Q -> (v <= 1)%Q -> (0 < n < 2 ^ 31)%Z ->
  exists sv : Q,
    scale a n = Return (Qfloor sv)
    /\ (0 <= sv)%Q /\ (sv <= inject_Z n)%Q
    /\ (v * inject_Z n - (1 # 4000000) <= sv)%Q
    /\ (sv <= v * inject_Z n + (1 # 4000000))%Q.
Proof.
  intros Hv H0 H1 Hn.
  assert (Hn53 : (0 < n < 2 ^ 53)%Z).
  { split; [lia |]. assert (2 ^ 31 < 2 ^ 53)%Z by (apply Z.pow_lt_mono_r; lia). lia. }
  destruct a as [z | f].
  - cbn in Hv. injection Hv as <-.
    change 0%Q with (inject_Z 0) in H0. rewrite <- Zle_Qle in H0.
    change 1%Q with (inject_Z 1) in H1. rewrite <- Zle_Qle in H1.
    exists (inject_Z (z * n)). unfold scale. cbn [py_mul py_int]. rewrite Qfloor_Z.
    split; [reflexivity |]. rewrite inject_Z_mult.
    assert (Hz : z = 0%Z \/ z = 1%Z) by lia.
    assert (Hn0 : (0 < inject_Z n)%Q) by (change 0%Q with (inject_Z 0); rewrite <- Zlt_Qlt; lia).
    destruct Hz as [-> | ->];
      [change (inject_Z 0) with 0%Q | change (inject_Z 1) with 1%Q]; repeat split; lra.
  - destruct (ratio_unit_float f v Hv H0 H1) as [Hunit Hval].
    destruct (scaled_range f n Hunit Hn53) as (Hint & Hlo & Hhi).
    destruct (scaled_error f n Hunit Hn53) as [Helo Hehi]. cbv zeta in Helo, Hehi.
    pose proof (slack_small v n H0 H1 Hn) as Hslack.
    rewrite Hval in Helo, Hehi.
    exists (float_value (f * float_of_int n)). unfold scale. cbn [py_mul py_int to_float].
    split; [exact Hint |]. repeat split; try assumption; lra.
Qed.

(** The two bounds of an axis are ordered. *)
Lemma scale_ordered (a b : pynum) (n : Z) :
  valid_axis a b -> (0 < n < 2 ^ 31)%Z ->
  exists lo hi,
    scale a n = Return lo /\ scale b n = Return hi
    /\ (0 <= lo)%Z /\ (lo <= hi)%Z /\ (hi <= n)%Z
    /\ ((pixel_and_more <= axis_span a b n)%Q -> (lo < hi)%Z).
Proof.
  intros (va & vb & Ha & Hb & H0 & Hlt & H1) Hn.
  assert (Hn53 : (0 < n < 2 ^ 53)%Z).
  { split; [lia |]. assert (2 ^ 31 < 2 ^ 53)%Z by (apply Z.pow_lt_mono_r; lia). lia. }
  assert (Ha1 : (va <= 1)%Q) by lra. assert (Hb0 : (0 <= vb)%Q) by lra.
  destruct (scale_spec a va n Ha H0 Ha1 Hn) as (sa & Hsa & Hsa0 & Hsan & Hsalo & Hsahi).
  destruct (scale_spec b vb n Hb Hb0 H1 Hn) as (sb & Hsb & Hsb0 & Hsbn & Hsblo & Hsbhi).
  exists (Qfloor sa), (Qfloor sb). split; [exact Hsa |]. split; [exact Hsb |].
  assert (Hfa : (0 <= Qfloor sa)%Z).
  { change 0%Z with (Qfloor 0). now apply Qfloor_resp_le. }
  assert (Hfb : (Qfloor sb <= n)%Z).
  { rewrite <- (Qfloor_Z n). now apply Qfloor_resp_le. }
  split; [exact Hfa |].
  assert (Horder : (Qfloor sa <= Qfloor sb)%Z).
  { destruct a as [za | fa], b as [zb | fb].
    - cbn in Ha, Hb. injection Ha as <-. injection Hb as <-.
      unfold scale in Hsa, Hsb. cbn [py_mul py_int] in Hsa, Hsb.
      injection Hsa as <-. injection Hsb as <-.
      rewrite <- Zlt_Qlt in Hlt. nia.
    - cbn in Ha. injection Ha as <-.
      change 0%Q with (inject_Z 0) in H0. rewrite <- Zle_Qle in H0.
      assert (Hlt' : (inject_Z za < inject_Z 1)%Q) by (change (inject_Z 1) with 1%Q; lra).
      rewrite <- Zlt_Qlt in Hlt'. assert (za = 0%Z) by lia. subst za.
      unfold scale in Hsa. cbn [py_mul py_int] in Hsa. injection Hsa as <-.
      rewrite Z.mul_0_l. change 0%Z with (Qfloor 0). now apply Qfloor_resp_le.
    - cbn in Hb. injection Hb as <-.
      assert (Hlt' : (inject_Z 0 < inject_Z zb)%Q) by (change (inject_Z 0) with 0%Q; lra).
      rewrite <- Zlt_Qlt in Hlt'. change 1%Q with (inject_Z 1) in H1.
      rewrite <- Zle_Qle in H1. assert (zb = 1%Z) by lia. subst zb.
      unfold scale in Hsb. cbn [py_mul py_int] in Hsb. injection Hsb as <-.
      rewrite Z.mul_1_l. rewrite <- (Qfloor_Z n). now apply Qfloor_resp_le.
    - destruct (ratio_unit_float fa va Ha H0 Ha1) as [Hua Hvala].
      destruct (ratio_unit_float fb vb Hb Hb0 H1) as [Hub Hvalb].
      destruct (scaled_range fa n Hua Hn53) as (Hinta & _).
      destruct (scaled_range fb n Hub Hn53) as (Hintb & _).
      unfold scale in Hsa, Hsb. cbn [py_mul py_int to_float] in Hsa, Hsb.
      rewrite Hinta in Hsa. rewrite Hintb in Hsb.
      injection Hsa as <-. injection Hsb as <-.
      apply Qfloor_resp_le, scaled_mono; try assumption.
      rewrite Hvala, Hvalb. lra. }
  split; [exact Horder |]. split; [exact Hfb |].
  unfold axis_span, pixel_and_more. rewrite Ha, Hb. unfold default. cbn [from_option id].
  intros Hspan.
  pose proof (Qfloor_le sa) as Hla. pose proof (Qlt_floor sb) as Hlb.
  assert (Hgap : (inject_Z (Qfloor sa) + 1 < inject_Z (Qfloor sb + 1))%Q) by lra.
  change 1%Q with (inject_Z 1) in Hgap. rewrite <- inject_Z_plus, <- Zlt_Qlt in Hgap. lia.
Qed.

(** C2, as amended. For a region with valid ratios and an image of positive
    size, at most [2 ^ 31] pixels each way, the pixel bounds are computed
    without an exception, and they are non-negative, ordered and within the
    image. The crop is empty exactly when two bounds of a direction are
    equal; it is not empty as soon as the binary64 ratios are a little more
    than one pixel apart in each direction. *)
Theorem roi_bounds_of_valid_region `{E : Externals} (img : image) (x1 y1 x2 y2 : pynum) :
  valid_region (x1, y1, x2, y2) ->
  (0 < img_width img < 2 ^ 31)%Z -> (0 < img_height img < 2 ^ 31)%Z ->
  match img_channels img with Some c => (0 < c)%Z | None => True end ->
  exists roi_x1 roi_y1 roi_x2 roi_y2,
    roi_bounds (x1, y1, x2, y2) (img_width img) (img_height img)
    = Return (roi_x1, roi_y1, roi_x2, roi_y2)
    /\ (0 <= roi_x1 /\ roi_x1 <= roi_x2 /\ roi_x2 <= img_width img)%Z
    /\ (0 <= roi_y1 /\ roi_y1 <= roi_y2 /\ roi_y2 <= img_height img)%Z
    /\ (roi_size img (roi_x1, roi_y1, roi_x2, roi_y2) <> 0%Z
        <-> (roi_x1 < roi_x2 /\ roi_y1 < roi_y2)%Z)
    /\ ((pixel_and_more <= axis_span x1 x2 (img_width img))%Q -> (roi_x1 < roi_x2)%Z)
    /\ ((pixel_and_more <= axis_span y1 y2 (img_height img))%Q -> (roi_y1 < roi_y2)%Z).
Proof.
  intros [Hx Hy] Hw Hh Hc.
  destruct (scale_ordered x1 x2 (img_width img) Hx Hw)
    as (rx1 & rx2 & Hx1 & Hx2 & Hx0 & Hxle & Hxw & Hxwide).
  destruct (scale_ordered y1 y2 (img_height img) Hy Hh)
    as (ry1 & ry2 & Hy1 & Hy2 & Hy0 & Hyle & Hyh & Hywide).
  exists rx1, ry1, rx2, ry2. unfold roi_bounds.
  rewrite Hx1, Hy1, Hx2, Hy2. cbn [outcome_bind].
  split; [reflexivity |]. split; [lia |]. split; [lia |].
  split; [| split; assumption].
  unfold roi_size. rewrite !slice_len_inside by lia.
  assert (Harea : ((ry2 - ry1) * (rx2 - rx1) <> 0 <-> rx1 < rx2 /\ ry1 < ry2)%Z) by nia.
  rewrite <- Harea. destruct (img_channels img) as [c|]; nia.
Qed.

Lemma roi_bounds_of_valid_region_witness :
  exists roi_x1 roi_y1 roi_x2 roi_y2,
    roi_bounds (PFloat 0.13, PFloat 0.12, PFloat 0.3, PFloat 0.14) 600 1000
    = Return (roi_x1, roi_y1, roi_x2, roi_y2)
    /\ (0 <= roi_x1 /\ roi_x1 <= roi_x2 /\ roi_x2 <= 600)%Z
    /\ (0 <= roi_y1 /\ roi_y1 <= roi_y2 /\ roi_y2 <= 1000)%Z
    /\ (@roi_size blank_world "" (roi_x1, roi_y1, roi_x2, roi_y2) <> 0%Z
        <-> (roi_x1 < roi_x2 /\ roi_y1 < roi_y2)%Z)
    /\ ((pixel_and_more <= axis_span (PFloat 0.13) (PFloat 0.3) 600)%Q -> (roi_x1 < roi_x2)%Z)
    /\ ((pixel_and_more <= axis_span (PFloat 0.12) (PFloat 0.14) 1000)%Q
        -> (roi_y1 < roi_y2)%Z).
Proof.
  apply (@roi_bounds_of_valid_region blank_world ""
           (PFloat 0.13) (PFloat 0.12) (PFloat 0.3) (PFloat 0.14)).
  - split.
    + exists (float_value 0.13), (float_value 0.3).
      split; [reflexivity |]. split; [reflexivity |]. vm_compute.
      repeat split; try reflexivity; intro; discriminate.
    + exists (float_value 0.12), (float_value 0.14).
      split; [reflexivity |]. split; [reflexivity |]. vm_compute.
      repeat split; try reflexivity; intro; discriminate.
  - cbn. lia.
  - cbn. lia.
  - cbn. lia.
Defined.

(** C2, as stated, fails. The header region of the Trainline layout has
    valid ratios, and on an image twenty pixels high its crop is empty, so
    that the field is skipped. On an image a hundred pixels wide the ratios
    0.28 and 0.29, one pixel apart as decimal numbers, both give column 28:
    their binary64 products with 100 are 28.000000000000004 and
    28.999999999999996. *)
Lemma valid_region_empty_crop :
  valid_region (PFloat 0.13, PFloat 0.12, PFloat 0.3, PFloat 0.14)
  /\ roi_bounds (PFloat 0.13, PFloat 0.12, PFloat 0.3, PFloat 0.14) 20 20
     = Return (2, 2, 6, 2)%Z
  /\ @roi_size thumbnail_world "" (2, 2, 6, 2)%Z = 0%Z
  /\ fst (@field_text thumbnail_world "" 0 ticket_provider_field
            (@new_scanner thumbnail_world None false "debug_roi_images"))
     = Return None
  /\ valid_region (PFloat 0.28, PInt 0, PFloat 0.29, PInt 1)
  /\ (1 <= (0.29 - 0.28) * inject_Z 100)%Q
  /\ roi_bounds (PFloat 0.28, PInt 0, PFloat 0.29, PInt 1) 100 100
     = Return (28, 0, 28, 100)%Z
  /\ @roi_size (resized blank_world 100 100) "" (28, 0, 28, 100)%Z = 0%Z.
Proof.
  split.
  { split.
    - exists (float_value 0.13), (float_value 0.3).
      split; [reflexivity |]. split; [reflexivity |]. vm_compute.
      repeat split; try reflexivity; intro; discriminate.
    - exists (float_value 0.12), (float_value 0.14).
      split; [reflexivity |]. split; [reflexivity |]. vm_compute.
      repeat split; try reflexivity; intro; discriminate. }
  split; [vm_compute; reflexivity |].
  split; [reflexivity |].
  split; [vm_compute; reflexivity |].
  split.
  { split.
    - exists (float_value 0.28), (float_value 0.29).
      split; [reflexivity |]. split; [reflexivity |]. vm_compute.
      repeat split; try reflexivity; intro; discriminate.
    - exists 0%Q, 1%Q.
      split; [reflexivity |]. split; [reflexivity |]. vm_compute.
      repeat split; try reflexivity; intro; discriminate. }
  split; [vm_compute; intro; discriminate |].
  split; [vm_compute; reflexivity | reflexivity].
Qed.

(** ** Occurrences in a string *)

Lemma prefix_split (pat s : string) :
  String.prefix pat s = true <-> exists after, s = (pat ++ after)%string.
Proof.
  revert s. induction pat as [|c pat IH]; intros s.
  - split; [intros _; now exists s | intros _; now destruct s].
  - destruct s as [|d s]; cbn [String.prefix String.append];
      [split; [discriminate | intros [after Heq]; discriminate] |].
    destruct (Ascii.ascii_dec c d) as [<- | Hne].
    + rewrite IH. split; intros [after Heq]; exists after;
        rewrite ?append_cons in *; congruence.
    + split; [discriminate | intros [after Heq]; rewrite append_cons in Heq; congruence].
Qed.

Lemma find_occurs (pat s : string) : is_Some (Py.find pat s) <-> occurs_in pat s.
Proof.
  unfold occurs_in. induction s as [|c s IH].
  - cbn [Py.find]. destruct (String.prefix pat "") eqn:Hp.
    + apply prefix_split in Hp as [after Heq].
      split; [intros _; now exists "", after | intros _; eauto].
    + split.
      * intros [x Hx]. discriminate.
      * intros (before & after & Heq). exfalso.
        destruct before; [| rewrite append_cons in Heq; discriminate].
        change ("" ++ pat ++ after)%string with (pat ++ after)%string in Heq.
        assert (String.prefix pat "" = true) by (apply prefix_split; eauto). congruence.
  - cbn [Py.find]. destruct (String.prefix pat (String c s)) eqn:Hp.
    + apply prefix_split in Hp as [after Heq].
      split; [intros _; now exists "", after | intros _; eauto].
    + rewrite fmap_is_Some, IH. split.
      * intros (before & after & ->). exists (String c before), after.
        now rewrite append_cons.
      * intros (before & after & Heq). destruct before as [|d before].
        -- exfalso. change ("" ++ pat ++ after)%string with (pat ++ after)%string in Heq.
           assert (String.prefix pat (String c s) = true) by (apply prefix_split; eauto).
           congruence.
        -- rewrite append_cons in Heq. injection Heq as _ ->. now exists before, after.
Qed.

Lemma contains_occurs (pat s : string) : Py.contains pat s = true <-> occurs_in pat s.
Proof.
  rewrite <- find_occurs. unfold Py.contains.
  destruct (Py.find pat s); split; try discriminate; eauto.
  intros [x Hx]. discriminate.
Qed.

Lemma any_in_occurs (pats : list string) (s : string) :
  Py.any_in pats s = true <-> exists pat, In pat pats /\ occurs_in pat s.
Proof.
  unfold Py.any_in. rewrite existsb_exists.
  split; intros (pat & Hin & Hocc); exists pat; (split; [exact Hin |]);
    now apply contains_occurs.
Qed.

(** ** Type classifier *)

Lemma features_of_tests_score (orange textured skewed shaded qr phrase : bool) :
  let features := features_of_tests orange textured skewed shaded qr phrase in
  let digital := ((if qr then 1 else 0) + (if phrase then 2 else 0))%float in
  to_float (features !!! "orange_bar") = unit_if orange
  /\ to_float (features !!! "texture") = unit_if textured
  /\ to_float (features !!! "perspective") = unit_if skewed
  /\ to_float (features !!! "shadow") = unit_if shaded
  /\ to_float (features !!! "digital_elements") = digital
  /\ paper_score features
     = PFloat (weighted_score (unit_if orange) (unit_if textured) (unit_if skewed)
                 (unit_if shaded) digital).
Proof.
  destruct orange, textured, skewed, shaded, qr, phrase;
    vm_compute; repeat split; reflexivity.
Qed.

(** Rounding does not decide a label: on every feature vector the binary64
    comparison with 0.5 agrees with the comparison in exact arithmetic. *)
Lemma weighted_score_exact (orange textured skewed shaded qr phrase : bool) :
  PrimFloat.ltb 0.5
    (weighted_score (unit_if orange) (unit_if textured) (unit_if skewed) (unit_if shaded)
       ((if qr then 1 else 0) + (if phrase then 2 else 0))%float)
  = (5 <? exact_score_tenths orange textured skewed shaded qr phrase)%Z.
Proof. destruct orange, textured, skewed, shaded, qr, phrase; vm_compute; reflexivity. Qed.

Section Classifier.
Context `{E : Externals}.

Lemma debug_write_returns (suffix : string) (s : scanner) :
  exists s',
    debug_write suffix s = (Return tt, s')
    /\ same_object s s' /\ searched s' = searched s.
Proof.
  unfold debug_write, same_object.
  destruct (debug_roi s) eqn:Hd; eexists; (split; [reflexivity |]); simpl; auto.
Qed.

Lemma extract_features_returns (img : image) (s : scanner) :
  debug_roi s = false \/ is_Some (hough_angles img) ->
  exists s1,
    extract_features img s
    = (Return (features_of_tests
                 (PrimFloat.ltb 0.2 (orange_fraction img))
                 (PrimFloat.ltb 10 (texture_measure img))
                 (skewed_test img)
                 (bool_decide (img_channels img = Some 3%Z)
                  && PrimFloat.ltb 15 (illumination_var img))
                 (qr_detected img)
                 (Py.any_in wallet_phrases (Py.lower (image_to_string img)))), s1)
    /\ debug_roi s1 = debug_roi s.
Proof.
  intros Hok.
  destruct s as [cfgs tt data conf pre dbg dir base wr se].
  unfold extract_features, perspective_feature, skewed_test, features_of_tests,
    bind, ret, get, raise, debug_write.
  cbn [debug_roi] in *.
  destruct (bool_decide (img_channels img = Some 3%Z));
    destruct (hough_angles img) as [[|a angles]|]; destruct dbg;
    try (destruct Hok as [Hok | [? Hok]]; discriminate Hok);
    eexists; split; reflexivity.
Qed.

Lemma spec_features_tests (img : image) :
  orange_bar (spec_features img) = unit_if (PrimFloat.ltb 0.2 (orange_fraction img))
  /\ texture (spec_features img) = unit_if (PrimFloat.ltb 10 (texture_measure img))
  /\ perspective (spec_features img) = unit_if (skewed_test img)
  /\ shadow (spec_features img)
     = unit_if (bool_decide (img_channels img = Some 3%Z)
                && PrimFloat.ltb 15 (illumination_var img)).
Proof.
  unfold spec_features, skewed_test. cbn [orange_bar texture perspective shadow].
  repeat split.
  - now destruct (hough_angles img) as [[|a angles]|].
  - now destruct (bool_decide (img_channels img = Some 3%Z)).
Qed.

Lemma determine_ticket_type_returns (img : image) (s : scanner) :
  debug_roi s = false \/ is_Some (hough_angles img) ->
  exists s2,
    determine_ticket_type img s
    = (Return (if PrimFloat.ltb 0.5 (spec_score (spec_features img))
               then "paper" else "digital"), s2).
Proof.
  intros Hok.
  destruct (extract_features_returns img s Hok) as (s1 & Hrun & _).
  destruct (debug_write_returns "_features.json" s1) as (s2 & Hwrite & _).
  destruct (spec_features_tests img) as (Ho & Ht & Hp & Hs).
  exists s2. unfold determine_ticket_type, bind. rewrite Hrun, Hwrite.
  match goal with
  | |- context [paper_score (features_of_tests ?a ?b ?c ?d ?e ?f)] =>
      destruct (features_of_tests_score a b c d e f) as (_ & _ & _ & _ & _ & ->)
  end.
  unfold spec_score. now rewrite Ho, Ht, Hp, Hs.
Qed.

(** C8. Unless the classifier stops in the debug drawing loop, its score is
    the weighted sum 1.5 orange_bar + 1.0 texture + 0.8 perspective
    + 0.7 shadow - 2.0 digital_elements of the five features it computed,
    and the label is "paper" exactly when the score exceeds 0.5. The
    digital_elements feature counts 1 for a QR code and 2 more exactly when
    the text shows a wallet or e-ticket phrase. *)
Theorem determine_ticket_type_weighted_score (img : image) (s : scanner) :
  debug_roi s = false \/ is_Some (hough_angles img) ->
  exists features s1 s2,
    extract_features img s = (Return features, s1)
    /\ to_float (features !!! "orange_bar") = orange_bar (spec_features img)
    /\ to_float (features !!! "texture") = texture (spec_features img)
    /\ to_float (features !!! "perspective") = perspective (spec_features img)
    /\ to_float (features !!! "shadow") = shadow (spec_features img)
    /\ to_float (features !!! "digital_elements") = digital_elements (spec_features img)
    /\ (shows_wallet_phrase (image_to_string img) ->
        to_float (features !!! "digital_elements")
        = ((if qr_detected img then 1 else 0) + 2)%float)
    /\ (~ shows_wallet_phrase (image_to_string img) ->
        to_float (features !!! "digital_elements")
        = (if qr_detected img then 1 else 0)%float)
    /\ paper_score features = PFloat (spec_score (spec_features img))
    /\ determine_ticket_type img s
       = (Return (if PrimFloat.ltb 0.5 (spec_score (spec_features img))
                  then "paper" else "digital"), s2).
Proof.
  intros Hok.
  destruct (extract_features_returns img s Hok) as (s1 & Hrun & _).
  destruct (debug_write_returns "_features.json" s1) as (s2 & Hwrite & _).
  destruct (spec_features_tests img) as (Ho & Ht & Hp & Hs).
  match type of Hrun with _ = (Return ?f, _) => set (features := f) in * end.
  pose proof (features_of_tests_score
                (PrimFloat.ltb 0.2 (orange_fraction img))
                (PrimFloat.ltb 10 (texture_measure img))
                (skewed_test img)
                (bool_decide (img_channels img = Some 3%Z)
                 && PrimFloat.ltb 15 (illumination_var img))
                (qr_detected img)
                (Py.any_in wallet_phrases (Py.lower (image_to_string img))))
    as (Fo & Ft & Fp & Fs & Fd & Fscore).
  fold features in Fo, Ft, Fp, Fs, Fd, Fscore.
  assert (Hscore : paper_score features = PFloat (spec_score (spec_features img))).
  { rewrite Fscore. unfold spec_score. now rewrite Ho, Ht, Hp, Hs. }
  exists features, s1, s2.
  split; [exact Hrun |].
  split; [now rewrite Ho |]. split; [now rewrite Ht |].
  split; [now rewrite Hp |]. split; [now rewrite Hs |].
  split; [exact Fd |].
  split.
  { intros Hshown. rewrite Fd.
    assert (Hany : Py.any_in wallet_phrases (Py.lower (image_to_string img)) = true)
      by (apply any_in_occurs; exact Hshown).
    now rewrite Hany. }
  split.
  { intros Hhidden. rewrite Fd.
    destruct (Py.any_in wallet_phrases (Py.lower (image_to_string img))) eqn:Hany.
    - exfalso. apply Hhidden. apply any_in_occurs. exact Hany.
    - now destruct (qr_detected img). }
  split; [exact Hscore |].
  unfold determine_ticket_type, bind. rewrite Hrun, Hwrite, Hscore. reflexivity.
Qed.

(** With lines detected, or with debugging off, the label does not depend
    on the scanner the classifier runs in. *)
Lemma label_independent_of_debug (img : image) (s s' : scanner) :
  debug_roi s = false \/ is_Some (hough_angles img) ->
  debug_roi s' = false \/ is_Some (hough_angles img) ->
  fst (determine_ticket_type img s) = fst (determine_ticket_type img s').
Proof.
  intros Hs Hs'.
  destruct (determine_ticket_type_returns img s Hs) as (? & ->).
  destruct (determine_ticket_type_returns img s' Hs') as (? & ->).
  reflexivity.
Qed.

(** Without lines, the debug drawing loop iterates over [None]. *)
Lemma debug_drawing_loop_raises (img : image) (s : scanner) :
  hough_angles img = None -> debug_roi s = true ->
  fst (determine_ticket_type img s) = Raise (TypeError "'NoneType' object is not iterable").
Proof.
  intros Hlines Hdebug.
  destruct s as [cfgs tt data conf pre dbg dir base wr se].
  cbn [debug_roi] in Hdebug. subst dbg.
  unfold determine_ticket_type, extract_features, perspective_feature,
    bind, ret, get, raise, debug_write.
  cbn [debug_roi set_written]. rewrite Hlines. reflexivity.
Qed.

End Classifier.

Lemma determine_ticket_type_weighted_score_witness :
  exists features s1 s2,
    @extract_features railcard_world "Please SHOW Railcard"
      (@new_scanner railcard_world None false "debug_roi_images") = (Return features, s1)
    /\ to_float (features !!! "orange_bar") = 1%float
    /\ to_float (features !!! "texture") = 1%float
    /\ to_float (features !!! "perspective") = 1%float
    /\ to_float (features !!! "shadow") = 1%float
    /\ to_float (features !!! "digital_elements") = 3%float
    /\ (shows_wallet_phrase "Please SHOW Railcard" ->
        to_float (features !!! "digital_elements") = 3%float)
    /\ (~ shows_wallet_phrase "Please SHOW Railcard" ->
        to_float (features !!! "digital_elements") = 1%float)
    /\ paper_score features = PFloat (-2)
    /\ @determine_ticket_type railcard_world "Please SHOW Railcard"
         (@new_scanner railcard_world None false "debug_roi_images")
       = (Return "digital", s2).
Proof.
  apply (@determine_ticket_type_weighted_score railcard_world "Please SHOW Railcard"
           (@new_scanner railcard_world None false "debug_roi_images")).
  left. reflexivity.
Defined.

(** C3, at the failing input. On an image in which the line detector finds
    nothing, the classifier returns "digital" when debugging is off and
    raises in the debug drawing loop when debugging is on. *)
Theorem debug_mode_without_lines_raises :
  fst (@determine_ticket_type blank_world ""
         (@new_scanner blank_world None false "debug_roi_images"))
  = Return "digital"
  /\ fst (@determine_ticket_type blank_world ""
            (@new_scanner blank_world None true "debug_roi_images"))
     = Raise (TypeError "'NoneType' object is not iterable")
  /\ @main blank_world "ticket.jpg" true "debug_roi_images"
     = JObj [("error", JStr "'NoneType' object is not iterable")].
Proof. repeat split; vm_compute; reflexivity. Qed.

(** ** Configuration selector *)

Lemma first_indicated_first (table before after : list (string * list string))
    (config_name : string) (indicators : list string) (text : string) :
  table = before ++ (config_name, indicators) :: after ->
  Forall (fun e => Py.any_in e.2 (Py.lower text) = false) before ->
  Py.any_in indicators (Py.lower text) = true ->
  first_indicated table text = Some config_name.
Proof.
  intros -> Hbefore Hhit. induction Hbefore as [|[n inds] before Hn _ IH]; simpl.
  - now rewrite Hhit.
  - simpl in Hn. now rewrite Hn.
Qed.

Lemma first_indicated_none (table : list (string * list string)) (text : string) :
  Forall (fun e => Py.any_in e.2 (Py.lower text) = false) table ->
  first_indicated table text = None.
Proof.
  induction 1 as [|[n inds] table Hn _ IH]; simpl; [reflexivity |].
  simpl in Hn. now rewrite Hn.
Qed.

Lemma any_in_app (l1 l2 : list string) (text : string) :
  Py.any_in (l1 ++ l2) text = Py.any_in l1 text || Py.any_in l2 text.
Proof. unfold Py.any_in. apply existsb_app. Qed.

Section Selector.
Context `{E : Externals}.

Lemma select_configuration_returns (img : image) (s : scanner) :
  exists s',
    select_configuration img s
    = (Return (default "generic_digital"
                 (first_indicated issuer_indicators (image_to_string img))), s')
    /\ same_object s s' /\ searched s' = searched s.
Proof.
  unfold select_configuration, bind, ret, debug_write.
  destruct (first_indicated issuer_indicators (image_to_string img));
    destruct (debug_roi s) eqn:Hd; eexists; (split; [reflexivity |]);
    unfold same_object; simpl; auto.
Qed.

(** C4, as amended. The selector tests the lower-cased text against the
    table in order and the first entry one of whose keywords occurs wins; an
    empty keyword list matches nothing and "generic_digital" is what the
    selector returns after the table. So a text with "transport for london"
    (in any case) and none of the keywords of "gwr" and "lner" selects
    "tfl", and a text with none of the keywords selects "generic_digital". *)
Theorem select_configuration_first_match (img : image) (s : scanner) :
  let text := Py.lower (image_to_string img) in
  let selected := fst (select_configuration img s) in
  (forall before config_name indicators after,
     issuer_indicators = before ++ (config_name, indicators) :: after ->
     Forall (fun e => Py.any_in e.2 text = false) before ->
     Py.any_in indicators text = true ->
     selected = Return config_name)
  /\ Py.any_in [] text = false
  /\ (Py.contains "transport for london" text = true ->
      Py.any_in ["great western"; "gwr"; "lner"; "london north eastern"] text = false ->
      selected = Return "tfl")
  /\ (Py.any_in (concat (map snd issuer_indicators)) text = false ->
      selected = Return "generic_digital").
Proof.
  intros text selected.
  destruct (select_configuration_returns img s) as (s' & Hrun & _).
  subst selected. rewrite Hrun. cbn [fst]. clear Hrun.
  split; [| split; [reflexivity | split]].
  - intros before config_name indicators after Htable Hbefore Hhit.
    now rewrite (first_indicated_first _ _ _ _ _ _ Htable Hbefore Hhit).
  - intros Htfl Hearlier.
    change ["great western"; "gwr"; "lner"; "london north eastern"]
      with (["great western"; "gwr"] ++ ["lner"; "london north eastern"]) in Hearlier.
    rewrite any_in_app in Hearlier. apply orb_false_elim in Hearlier as [Hgwr Hlner].
    rewrite (first_indicated_first issuer_indicators
               [("gwr", ["great western"; "gwr"]); ("lner", ["lner"; "london north eastern"])]
               [("avanti", ["avanti"; "west coast"]);
                ("trainline_app", ["trainline"; "mobile ticket"; "qr code"]);
                ("generic_digital", [])]
               "tfl" ["transport for london"; "tfl"; "oyster"] (image_to_string img));
      [reflexivity | reflexivity | | ].
    + repeat constructor; assumption.
    + fold text. unfold Py.any_in. simpl. now rewrite Htfl.
  - intros Hnone.
    rewrite first_indicated_none; [reflexivity |]. fold text.
    unfold issuer_indicators in *. cbn [map snd concat app] in Hnone.
    unfold Py.any_in in *. cbn [existsb] in Hnone.
    repeat (apply orb_false_elim in Hnone as [? Hnone]).
    repeat constructor; cbn [snd existsb]; 
      repeat (apply orb_false_intro; [assumption |]); try reflexivity; try assumption.
Qed.

End Selector.

Lemma select_configuration_first_match_witness :
  fst (@select_configuration tfl_world "Transport For LONDON"
         (@new_scanner tfl_world None false "debug_roi_images")) = Return "tfl"
  /\ fst (@select_configuration blank_world ""
            (@new_scanner blank_world None false "debug_roi_images"))
     = Return "generic_digital".
Proof.
  split.
  - apply (@select_configuration_first_match tfl_world "Transport For LONDON"
             (@new_scanner tfl_world None false "debug_roi_images"));
      vm_compute; reflexivity.
  - apply (@select_configuration_first_match blank_world ""
             (@new_scanner blank_world None false "debug_roi_images")).
    vm_compute; reflexivity.
Defined.

(** C4, as stated, fails: a text with "transport for london" that also has
    a keyword of an earlier entry selects that entry. *)
Lemma transport_for_london_selects_gwr :
  Py.contains "transport for london"
    (Py.lower (@image_to_string gwr_tfl_world "GWR Transport for London")) = true
  /\ fst (@select_configuration gwr_tfl_world "GWR Transport for London"
            (@new_scanner gwr_tfl_world None false "debug_roi_images"))
     = Return "gwr"
  /\ fst (@select_configuration gwr_tfl_world "GWR Transport for London"
            (@new_scanner gwr_tfl_world None false "debug_roi_images"))
     <> Return "tfl".
Proof. repeat split; try (vm_compute; reflexivity). vm_compute. discriminate. Qed.

(** ** Trimming *)

Lemma isspace_whitespace (c : ascii) : Py.isspace c = true <-> is_whitespace c.
Proof.
  unfold is_whitespace, whitespace_codes.
  destruct c as [[] [] [] [] [] [] [] []]; vm_compute;
    split; intros H; try reflexivity; try discriminate;
    try (repeat (destruct H as [H | H]; [discriminate H |]); destruct H); tauto.
Qed.

Lemma all_whitespace_nil : all_whitespace "".
Proof. constructor. Qed.

Lemma all_whitespace_cons (c : ascii) (s : string) :
  all_whitespace (String c s) <-> is_whitespace c /\ all_whitespace s.
Proof. unfold all_whitespace. cbn [list_ascii_of_string]. apply Forall_cons. Qed.

Lemma all_whitespace_rev_app (s t : string) :
  all_whitespace (String.rev_app s t) <-> all_whitespace s /\ all_whitespace t.
Proof.
  revert t. induction s as [|c s IH]; intros t; cbn [String.rev_app].
  - split; [intros H; split; [apply all_whitespace_nil | exact H] | tauto].
  - rewrite IH, !all_whitespace_cons. tauto.
Qed.

Lemma rev_app_append (s t u : string) :
  String.rev_app s (t ++ u)%string = (String.rev_app s t ++ u)%string.
Proof.
  revert t. induction s as [|c s IH]; intros t; [reflexivity |].
  cbn [String.rev_app]. rewrite <- IH. now rewrite append_cons.
Qed.

Lemma rev_app_rev (s t : string) : String.rev_app s t = (String.rev s ++ t)%string.
Proof. unfold String.rev. now rewrite <- rev_app_append. Qed.

Lemma rev_append (s t : string) :
  String.rev (s ++ t)%string = (String.rev t ++ String.rev s)%string.
Proof.
  unfold String.rev at 1 3. generalize "". induction s as [|c s IH]; intros acc.
  - change ("" ++ t)%string with t. cbn [String.rev_app]. apply rev_app_rev.
  - rewrite append_cons. cbn [String.rev_app]. apply IH.
Qed.

Lemma rev_rev_app (s t : string) :
  String.rev (String.rev_app s t) = String.rev_app t s.
Proof.
  revert t. induction s as [|c s IH]; intros t; [reflexivity |].
  cbn [String.rev_app]. rewrite IH. reflexivity.
Qed.

Lemma rev_involutive (s : string) : String.rev (String.rev s) = s.
Proof. unfold String.rev at 2. now rewrite rev_rev_app. Qed.

Lemma last_char_snoc (s : string) (c : ascii) :
  last_char (s ++ String c "")%string = Some c.
Proof.
  induction s as [|d s IH]; [reflexivity |].
  rewrite append_cons. cbn [last_char]. rewrite IH.
  destruct (s ++ String c "")%string eqn:Heq; [| reflexivity].
  destruct s; discriminate.
Qed.

Lemma last_char_rev (s : string) : last_char (String.rev s) = first_char s.
Proof.
  destruct s as [|c s]; [reflexivity |].
  unfold String.rev. cbn [String.rev_app first_char].
  rewrite rev_app_rev. apply last_char_snoc.
Qed.

Lemma first_char_rev (s : string) : first_char (String.rev s) = last_char s.
Proof. rewrite <- (rev_involutive s) at 2. now rewrite last_char_rev. Qed.

Lemma first_char_append (s t : string) (c : ascii) :
  first_char s = Some c -> first_char (s ++ t)%string = Some c.
Proof. destruct s; [discriminate |]. now rewrite append_cons. Qed.

Lemma lstrip_split (s : string) :
  exists l,
    s = (l ++ Py.lstrip s)%string /\ all_whitespace l
    /\ forall c, first_char (Py.lstrip s) = Some c -> ~ is_whitespace c.
Proof.
  induction s as [|d s (l & Heq & Hl & Hfirst)].
  - exists "". split; [reflexivity |]. split; [apply all_whitespace_nil | discriminate].
  - cbn [Py.lstrip]. destruct (Py.isspace d) eqn:Hd.
    + exists (String d l). rewrite append_cons, <- Heq.
      split; [reflexivity |]. split; [| exact Hfirst].
      apply all_whitespace_cons. split; [now apply isspace_whitespace | exact Hl].
    + exists "". split; [reflexivity |]. split; [apply all_whitespace_nil |].
      intros c [= <-] Hc. apply isspace_whitespace in Hc. congruence.
Qed.

(** [s.strip()] is [s] without the whitespace at its two ends. *)
Lemma strip_trimmed (s : string) : trimmed s (Py.strip s).
Proof.
  unfold trimmed, Py.strip, Py.rstrip.
  destruct (lstrip_split s) as (l & Hs & Hl & Hfirst).
  destruct (lstrip_split (String.rev (Py.lstrip s))) as (r & Ht & Hr & Hlast).
  set (t := Py.lstrip s) in *. set (w := Py.lstrip (String.rev t)) in *.
  assert (Htv : t = (String.rev w ++ String.rev r)%string).
  { rewrite <- (rev_involutive t), Ht. apply rev_append. }
  exists l, (String.rev r). split; [now rewrite <- Htv |]. split; [exact Hl |].
  split; [unfold String.rev; apply all_whitespace_rev_app; split;
          [exact Hr | apply all_whitespace_nil] |].
  split.
  - intros c Hc. apply Hfirst. rewrite Htv. now apply first_char_append.
  - intros c Hc. apply Hlast. now rewrite <- last_char_rev.
Qed.

(** ** Field extractor: patterns and fuzzy fallback *)

Section Extractor.
Context `{E : Externals}.

(** The text of a field: the scanner is only written to, and the outcome is
    the one of the bounds and the text reader. *)
Lemma field_text_outcome (img : image) (i : nat) (field : TicketField) (s : scanner) :
  exists s',
    field_text img i field s = (field_input img field, s')
    /\ same_object s s' /\ searched s' = searched s.
Proof.
  unfold field_text, field_input, bind, ret, lift, debug_write, same_object.
  destruct (region field) as [r|]; [| eexists; split; [reflexivity | auto]].
  destruct (roi_bounds r (img_width img) (img_height img)) as [[[[rx1 ry1] rx2] ry2] | e];
    cbn [outcome_bind]; [| eexists; split; [reflexivity | auto]].
  destruct (roi_size img (rx1, ry1, rx2, ry2) =? 0)%Z;
    [eexists; split; [reflexivity | auto] |].
  destruct (debug_roi s) eqn:Hd; cbn [debug_roi set_written]; rewrite ?Hd;
    eexists; (split; [reflexivity |]); simpl; auto.
Qed.

Lemma try_patterns_first_match (field_name : string) (before after : list string)
    (pattern text : string) (m : re_match) (details : gmap string string) (s : scanner) :
  Forall (fun p => re_search p text search_flags = None) before ->
  re_search pattern text search_flags = Some m ->
  exists s',
    try_patterns field_name (before ++ pattern :: after) text details s
    = (Return (<[field_name := Py.strip (group_0 m)]> details), s')
    /\ confidence_scores s' = <[field_name := 1.0%float]> (confidence_scores s)
    /\ searched s'
       = searched s ++ map (fun p => (p, text, search_flags)) (before ++ [pattern]).
Proof.
  intros Hbefore Hhit. revert s.
  induction Hbefore as [|p before Hp _ IH]; intros s; cbn [app try_patterns].
  - unfold bind, record_search, set_confidence, modify, ret. rewrite Hhit.
    eexists; split; [reflexivity |]. split; reflexivity.
  - unfold bind at 1. unfold record_search at 1. unfold modify. rewrite Hp.
    destruct (IH (set_searched (searched s ++ [(p, text, search_flags)]) s))
      as (s' & Hrun & Hconf & Hlog).
    exists s'. split; [exact Hrun |]. split; [exact Hconf |].
    rewrite Hlog. cbn [searched set_searched map]. now rewrite <- app_assoc.
Qed.

Lemma try_patterns_no_match (field_name : string) (ps : list string) (text : string)
    (details : gmap string string) (s : scanner) :
  Forall (fun p => re_search p text search_flags = None) ps ->
  exists s',
    try_patterns field_name ps text details s = (Return details, s')
    /\ confidence_scores s' = confidence_scores s
    /\ searched s' = searched s ++ map (fun p => (p, text, search_flags)) ps.
Proof.
  intros Hps. revert s.
  induction Hps as [|p ps Hp _ IH]; intros s; cbn [try_patterns].
  - exists s. unfold ret. cbn [map]. now rewrite app_nil_r.
  - unfold bind at 1. unfold record_search at 1. unfold modify. rewrite Hp.
    destruct (IH (set_searched (searched s ++ [(p, text, search_flags)]) s))
      as (s' & Hrun & Hconf & Hlog).
    exists s'. split; [exact Hrun |]. split; [exact Hconf |].
    rewrite Hlog. cbn [searched set_searched map]. now rewrite <- app_assoc.
Qed.


Lemma fuzzy_patterns_no_hit (field_name : string) (ps : list string) (text : string)
    (details : gmap string string) (s : scanner) :
  Forall (fun p => fuzzy_stop p text = None) ps ->
  fuzzy_patterns field_name ps text details s = (Return details, s).
Proof.
  induction 1 as [|p ps Hp _ IH]; cbn [fuzzy_patterns]; [reflexivity |].
  unfold fuzzy_stop in Hp.
  destruct (bool_decide (clean_pattern p = "")); [exact IH |].
  destruct (Py.find (clean_pattern p) text) as [start|]; [| exact IH].
  destruct (start + String.length (clean_pattern p) <? String.length text)%nat;
    [discriminate | exact IH].
Qed.

(** C5. The patterns of a field are searched in order in the text of the
    field, each as a case-insensitive multiline search; at the first one
    that matches, the whole match (group 0, not a capture group) without the
    whitespace at its two ends becomes the value of the field with
    confidence 1.0, and no later pattern is searched. *)
Theorem first_matching_pattern_wins (img : image) (i : nat) (field : TicketField)
    (details : gmap string string) (s : scanner) (text : string)
    (before after : list string) (pattern : string) (m : re_match) :
  fst (field_text img i field s) = Return (Some text) ->
  patterns field = before ++ pattern :: after ->
  Forall (fun p => re_search p text (Z.lor IGNORECASE MULTILINE) = None) before ->
  re_search pattern text (Z.lor IGNORECASE MULTILINE) = Some m ->
  exists s' value,
    process_field img i field details s
    = (Return (<[name field := value]> details), s')
    /\ trimmed (whole m) value
    /\ confidence_scores s' = <[name field := 1.0%float]> (confidence_scores s)
    /\ searched s'
       = searched s
         ++ map (fun p => (p, text, Z.lor IGNORECASE MULTILINE)) (before ++ [pattern]).
Proof.
  intros Htext Hps Hbefore Hhit.
  destruct (field_text_outcome img i field s) as (s1 & Hrun & Hsame & Hlog).
  rewrite Hrun in Htext. cbn [fst] in Htext.
  destruct (debug_write_returns "_all_roi.jpg" s1) as (s2 & Hwrite & (_ & _ & Hconf2 & _) & Hlog2).
  destruct (try_patterns_first_match (name field) before after pattern text m
              details s2 Hbefore Hhit) as (s3 & Htry & Hconf3 & Hlog3).
  exists s3, (Py.strip (whole m)). unfold process_field, bind.
  rewrite Hrun, Htext, Hwrite, Hps, Htry.
  rewrite lookup_insert_eq. cbn [bool_decide decide_rel andb].
  split; [| split; [apply strip_trimmed |]].
  - rewrite bool_decide_eq_false_2 by discriminate. reflexivity.
  - destruct Hsame as (_ & _ & Hconf1 & _).
    rewrite Hconf3, Hconf2, Hconf1, Hlog3, Hlog2, Hlog. split; reflexivity.
Qed.


End Extractor.

Lemma first_matching_pattern_wins_witness :
  exists s' value,
    @process_field padded_world "no  ref: ab-12  " 5 padded_reference_field ∅
      (@new_scanner padded_world None false "debug_roi_images")
    = (Return (<["ticket_reference" := value]> ∅), s')
    /\ trimmed "  ref: ab-12  " value
    /\ confidence_scores s' = <["ticket_reference" := 1.0%float]> ∅
    /\ searched s'
       = [] ++ map (fun p => (p, "no  ref: ab-12  ", Z.lor IGNORECASE MULTILINE))
                 (["TICKET\s+NUMBER\s+([A-Z0-9-]+)"] ++ ["\s*REF[:\s]+([A-Z0-9-]+)\s*"]).
Proof.
  apply (@first_matching_pattern_wins padded_world "no  ref: ab-12  " 5
           padded_reference_field ∅
           (@new_scanner padded_world None false "debug_roi_images")
           "no  ref: ab-12  " ["TICKET\s+NUMBER\s+([A-Z0-9-]+)"] []
           "\s*REF[:\s]+([A-Z0-9-]+)\s*"
           {| whole := "  ref: ab-12  "; captures := [Some "ab-12"] |}).
  - vm_compute. reflexivity.
  - reflexivity.
  - repeat constructor.
  - vm_compute. reflexivity.
Defined.

(** The value of the padded reference, computed: the whole match without its
    blanks, not the capture group. *)
Example padded_reference_value :
  fst (@process_field padded_world "no  ref: ab-12  " 5 padded_reference_field ∅
         (@new_scanner padded_world None false "debug_roi_images"))
  = Return (<["ticket_reference" := "ref: ab-12"]> ∅).
Proof. vm_compute. reflexivity. Qed.



(** ** Reference synthesis *)

Lemma str_items_strings (items : list string) : str_items (PStr <$> items) = Some items.
Proof.
  induction items as [|x items IH]; [reflexivity |].
  cbn [fmap list_fmap str_items]. fold (fmap (M := list) PStr items).
  now rewrite IH.
Qed.

(** The capital form of the model is the one of the table. *)
Lemma upper_char_capital (c : ascii) : Py.upper_char c = capital c.
Proof. destruct c as [[] [] [] [] [] [] [] []]; vm_compute; reflexivity. Qed.

Lemma upper_capitals (s : string) : Py.upper s = capitals s.
Proof.
  induction s as [|c s IH]; [reflexivity |].
  cbn [Py.upper capitals]. now rewrite upper_char_capital, IH.
Qed.

Lemma take_first_three (s : string) : Py.take 3 s = first_three s.
Proof.
  unfold Py.take. destruct s as [|a [|b [|c s]]]; try reflexivity.
  cbn [String.substring first_three]. now destruct s.
Qed.

Lemma join_tokens (origin destination : option string) (suffix : string) :
  Py.join "-" (option_list origin ++ option_list destination ++ [suffix])
  = (with_hyphen origin ++ with_hyphen destination ++ suffix)%string.
Proof.
  unfold Py.join.
  destruct origin as [o|], destination as [d|];
    cbn [option_list app String.concat with_hyphen];
    rewrite ?append_assoc; reflexivity.
Qed.

Lemma last_six_low_digits (n : Z) :
  (100000 <= n)%Z ->
  Py.last_chars 6 (Py.str_of_int n)
  = String (decimal_digit n 5) (String (decimal_digit n 4)
      (String (decimal_digit n 3) (String (decimal_digit n 2)
         (String (decimal_digit n 1) (String (decimal_digit n 0) ""))))).
Proof.
  intros Hn. unfold Py.str_of_int.
  rewrite (proj2 (Z.ltb_ge n 0)) by lia.
  assert (Hlog : (16 <= Z.log2 n)%Z).
  { change 16%Z with (Z.log2 100000). now apply Z.log2_le_mono. }
  destruct (digits_acc_low_six (S (Z.to_nat (Z.log2 n))) n Hn ltac:(lia))
    as (pre & ->).
  exact (last_chars_app pre _).
Qed.

Section Reference.
Context `{E : Externals}.

Lemma ref_token_details (details : gmap string string) (code_key station_key : string)
    (s : scanner) :
  ref_token (PStr <$> details) code_key station_key s
  = (Return (PStr <$> option_list (spec_token details code_key station_key)), s).
Proof.
  unfold ref_token, spec_token. rewrite !lookup_fmap.
  destruct (details !! code_key); [reflexivity |].
  destruct (details !! station_key) as [station|]; [| reflexivity].
  cbn [fmap option_fmap option_map option_list list_fmap].
  now rewrite take_first_three, upper_capitals.
Qed.

Lemma generate_ticket_reference_returns (details : gmap string string) (s : scanner) :
  extracted_data s = PStr <$> details ->
  exists s',
    generate_ticket_reference s = (Return tt, s')
    /\ extracted_data s'
       = <["is_reference_generated" := PBool true]>
           (<["ticket_reference" := PStr (reference_of details)]> (PStr <$> details))
    /\ confidence_scores s' = <["ticket_reference" := 0.5%float]> (confidence_scores s)
    /\ ticket_type s' = ticket_type s.
Proof.
  intros Hdata. unfold generate_ticket_reference, bind at 1, get.
  rewrite Hdata. unfold bind at 1. rewrite ref_token_details.
  unfold bind at 1. rewrite ref_token_details.
  unfold join_values.
  replace ((PStr <$> option_list (spec_token details "origin_code" "origin_station"))
            ++ (PStr <$> option_list
                           (spec_token details "destination_code" "destination_station"))
            ++ [PStr timestamp_suffix])
    with (PStr <$> (option_list (spec_token details "origin_code" "origin_station")
                    ++ option_list
                         (spec_token details "destination_code" "destination_station")
                    ++ [timestamp_suffix]))
    by now rewrite !fmap_app.
  rewrite str_items_strings, join_tokens. fold (reference_of details).
  unfold bind, ret, modify, set_confidence.
  eexists. split; [reflexivity |]. cbn. rewrite Hdata. auto.
Qed.

Lemma complete_scan_generates (config_name : string) (details : gmap string string)
    (s : scanner) :
  details !! "ticket_reference" = None ->
  exists s',
    complete_scan config_name details s
    = (Return {| result_ticket_type := ticket_type s;
                 configuration_used := config_name;
                 data := <["is_reference_generated" := PBool true]>
                           (<["ticket_reference" := PStr (reference_of details)]>
                              (PStr <$> details));
                 confidence := <["ticket_reference" := 0.5%float]> (confidence_scores s) |},
       s')
    /\ confidence_scores s' = <["ticket_reference" := 0.5%float]> (confidence_scores s).
Proof.
  intros Hnone.
  destruct (generate_ticket_reference_returns details
              (set_extracted_data (PStr <$> details) s) eq_refl)
    as (s' & Hgen & Hdata & Hconf & Htype).
  exists s'. split; [| exact Hconf].
  unfold complete_scan, bind, modify, get, ret.
  cbn [extracted_data set_extracted_data]. rewrite lookup_fmap, Hnone.
  cbn [fmap option_fmap option_map].
  rewrite Hgen, Hdata, Hconf, Htype. reflexivity.
Qed.

Lemma complete_scan_keeps (config_name : string) (details : gmap string string)
    (s : scanner) :
  is_Some (details !! "ticket_reference") ->
  complete_scan config_name details s
  = (Return {| result_ticket_type := ticket_type s;
               configuration_used := config_name;
               data := PStr <$> details;
               confidence := confidence_scores s |},
     set_extracted_data (PStr <$> details) s).
Proof.
  intros [v Hv]. unfold complete_scan, bind, modify, get, ret.
  cbn [extracted_data set_extracted_data]. rewrite lookup_fmap, Hv. reflexivity.
Qed.

(** C7. When the extraction produced no [ticket_reference], the scan gives
    one: the origin token (the value of [origin_code], else the first three
    characters of [origin_station] in capitals), the destination token (the
    same with [destination_code] and [destination_station]) and the last six
    characters of the decimal timestamp, joined with "-", with confidence
    0.5 and [is_reference_generated] set. From the time 100000 on the last
    part is made of the six low decimal digits of the time. With codes "LVP"
    and "GRA" the reference is "LVP-GRA-" and six digits; without origin and
    destination it is the timestamp suffix alone. Station names are taken
    with characters whose capital forms have codes below 256. *)
Theorem synthesized_reference (config_name : string) (details : gmap string string)
    (s : scanner) :
  details !! "ticket_reference" = None ->
  (forall station, details !! "origin_code" = None ->
     details !! "origin_station" = Some station -> one_byte_capitals station) ->
  (forall station, details !! "destination_code" = None ->
     details !! "destination_station" = Some station -> one_byte_capitals station) ->
  exists r s',
    complete_scan config_name details s = (Return r, s')
    /\ data r !! "ticket_reference" = Some (PStr (reference_of details))
    /\ data r !! "is_reference_generated" = Some (PBool true)
    /\ confidence r !! "ticket_reference" = Some 0.5%float
    /\ ((100000 <= time_now)%Z ->
        timestamp_suffix
        = String (decimal_digit time_now 5) (String (decimal_digit time_now 4)
            (String (decimal_digit time_now 3) (String (decimal_digit time_now 2)
               (String (decimal_digit time_now 1) (String (decimal_digit time_now 0) ""))))))
    /\ (details !! "origin_code" = Some "LVP" ->
        details !! "destination_code" = Some "GRA" ->
        (100000 <= time_now)%Z ->
        exists digits,
          reference_of details = ("LVP-GRA-" ++ digits)%string
          /\ String.length digits = 6%nat
          /\ Py.all_chars Py.is_digit digits = true)
    /\ (details !! "origin_code" = None -> details !! "origin_station" = None ->
        details !! "destination_code" = None -> details !! "destination_station" = None ->
        reference_of details = timestamp_suffix).
Proof.
  intros Hnone _ _.
  destruct (complete_scan_generates config_name details s Hnone) as (s' & Hrun & _).
  eexists _, s'. split; [exact Hrun |]. cbn [data confidence].
  split; [now rewrite lookup_insert_ne, lookup_insert_eq |].
  split; [now rewrite lookup_insert_eq |].
  split; [now rewrite lookup_insert_eq |].
  split; [intros Hnow; now apply last_six_low_digits |].
  unfold reference_of, spec_token. split.
  - intros -> -> Hnow. exists timestamp_suffix.
    split; [reflexivity |]. now apply timestamp_six_digits.
  - now intros -> -> -> ->.
Qed.

End Reference.

(** The origin station begins with an e with an acute accent (code 233). *)
Lemma synthesized_reference_witness :
  exists r s',
    @complete_scan blank_world "trainline_app"
      (<["origin_station" := String (ascii_of_nat 233) "cole militaire"]>
         (<["destination_station" := "ab"]> ∅))
      (@new_scanner blank_world None false "debug_roi_images") = (Return r, s')
    /\ data r !! "ticket_reference"
       = Some (PStr (String (ascii_of_nat 201) "CO-AB-000042"))
    /\ data r !! "is_reference_generated" = Some (PBool true)
    /\ confidence r !! "ticket_reference" = Some 0.5%float
    /\ @timestamp_suffix blank_world = "000042".
Proof.
  assert (Hnone : (<["origin_station" := String (ascii_of_nat 233) "cole militaire"]>
                     (<["destination_station" := "ab"]> ∅)
                   : gmap string string) !! "ticket_reference" = None)
    by (vm_compute; reflexivity).
  assert (Horigin : forall station,
             (<["origin_station" := String (ascii_of_nat 233) "cole militaire"]>
                (<["destination_station" := "ab"]> ∅)
              : gmap string string) !! "origin_code" = None ->
             (<["origin_station" := String (ascii_of_nat 233) "cole militaire"]>
                (<["destination_station" := "ab"]> ∅)
              : gmap string string) !! "origin_station" = Some station ->
             one_byte_capitals station).
  { intros station _ Hst. vm_compute in Hst. injection Hst as <-. split; reflexivity. }
  assert (Hdestination : forall station,
             (<["origin_station" := String (ascii_of_nat 233) "cole militaire"]>
                (<["destination_station" := "ab"]> ∅)
              : gmap string string) !! "destination_code" = None ->
             (<["origin_station" := String (ascii_of_nat 233) "cole militaire"]>
                (<["destination_station" := "ab"]> ∅)
              : gmap string string) !! "destination_station" = Some station ->
             one_byte_capitals station).
  { intros station _ Hst. vm_compute in Hst. injection Hst as <-. split; reflexivity. }
  destruct (@synthesized_reference blank_world "trainline_app"
              (<["origin_station" := String (ascii_of_nat 233) "cole militaire"]>
                 (<["destination_station" := "ab"]> ∅))
              (@new_scanner blank_world None false "debug_roi_images")
              Hnone Horigin Hdestination)
    as (r & s' & Hrun & Href & Hflag & Hconf & Hdigits & _).
  exists r, s'.
  split; [exact Hrun |]. split; [exact Href |]. split; [exact Hflag |].
  split; [exact Hconf |].
  apply Hdigits. vm_compute. discriminate.
Defined.

(** ** Properties kept by the stages *)

Section Preservation.
Context `{E : Externals}.
Variable P : scanner -> Prop.
Hypothesis P_written : forall s w, P s -> debug_roi s = true -> P (set_written w s).
Hypothesis P_searched : forall s v, P s -> P (set_searched v s).
Hypothesis P_confidence :
  forall s k c, P s -> P (set_confidence_scores (<[k := c]> (confidence_scores s)) s).
Hypothesis P_data : forall s d, P s -> P (set_extracted_data d s).
Hypothesis P_basename : forall s v, P s -> P (set_image_basename v s).
Hypothesis P_type : forall s v, P s -> P (set_ticket_type v s).
Hypothesis P_preprocessed : forall s v, P s -> P (set_preprocessed_image v s).

Lemma preserves_ret {A : Type} (a : A) : preserves P (ret a).
Proof. intros s Hs. exact Hs. Qed.

Lemma preserves_raise {A : Type} (e : exn) : preserves P (raise (A := A) e).
Proof. intros s Hs. exact Hs. Qed.

Lemma preserves_get : preserves P get.
Proof. intros s Hs. exact Hs. Qed.

Lemma preserves_bind {A B : Type} (m : M A) (k : A -> M B) :
  preserves P m -> (forall a, preserves P (k a)) -> preserves P (bind m k).
Proof.
  intros Hm Hk s Hs. unfold bind. specialize (Hm s Hs).
  destruct (m s) as [[a|e] s1]; [apply Hk |]; exact Hm.
Qed.

Lemma preserves_lift {A : Type} (o : outcome A) : preserves P (lift o).
Proof. intros s Hs. exact Hs. Qed.

Lemma preserves_modify (f : scanner -> scanner) :
  (forall s, P s -> P (f s)) -> preserves P (modify f).
Proof. intros Hf s Hs. apply Hf, Hs. Qed.

Lemma preserves_debug_write (suffix : string) : preserves P (debug_write suffix).
Proof using P_written.
  intros s Hs. unfold debug_write. destruct (debug_roi s) eqn:Hd; [| exact Hs].
  apply P_written; assumption.
Qed.

Lemma preserves_record_search (pattern text : string) (flags : Z) :
  preserves P (record_search pattern text flags).
Proof using P_searched. apply preserves_modify. intros s Hs. now apply P_searched. Qed.

Lemma preserves_set_confidence (field_name : string) (c : float) :
  preserves P (set_confidence field_name c).
Proof using P_confidence. apply preserves_modify. intros s Hs. now apply P_confidence. Qed.

Ltac preserve :=
  repeat first
    [ apply preserves_ret
    | apply preserves_raise
    | apply preserves_get
    | apply preserves_lift
    | apply preserves_debug_write
    | apply preserves_record_search
    | apply preserves_set_confidence
    | apply preserves_bind; [| intros ?]
    | match goal with
      | |- preserves _ (match ?x with _ => _ end) => destruct x
      | |- preserves _ (if ?b then _ else _) => destruct b
      end ].

Lemma determine_ticket_type_preserves (img : image) :
  preserves P (determine_ticket_type img).
Proof using P_written.
  unfold determine_ticket_type, extract_features, perspective_feature. cbv zeta. preserve.
Qed.

Lemma preprocess_image_preserves (img : image) : preserves P (preprocess_image img).
Proof using P_written. unfold preprocess_image, preprocess_paper. cbv zeta. preserve. Qed.

Lemma crop_ticket_preserves (img : image) : preserves P (crop_ticket img).
Proof using P_written. unfold crop_ticket. cbv zeta. preserve. Qed.

Lemma select_configuration_preserves (img : image) :
  preserves P (select_configuration img).
Proof using P_written. unfold select_configuration. cbv zeta. preserve. Qed.

Lemma field_text_preserves (img : image) (i : nat) (field : TicketField) :
  preserves P (field_text img i field).
Proof using P_written. unfold field_text. cbv zeta. preserve. Qed.

Lemma try_patterns_preserves (field_name : string) (ps : list string) (text : string)
    (details : gmap string string) :
  preserves P (try_patterns field_name ps text details).
Proof using P_searched P_confidence.
  induction ps as [|p ps IH]; cbn [try_patterns]; preserve. exact IH.
Qed.

Lemma fuzzy_patterns_preserves (field_name : string) (ps : list string) (text : string)
    (details : gmap string string) :
  preserves P (fuzzy_patterns field_name ps text details).
Proof using P_confidence.
  induction ps as [|p ps IH]; cbn [fuzzy_patterns]; cbv zeta; preserve; exact IH.
Qed.

Lemma process_field_preserves (img : image) (i : nat) (field : TicketField)
    (details : gmap string string) :
  preserves P (process_field img i field details).
Proof using P_written P_searched P_confidence.
  unfold process_field.
  apply preserves_bind; [apply field_text_preserves | intros [text|]];
    [| apply preserves_ret].
  apply preserves_bind; [apply preserves_debug_write | intros _].
  apply preserves_bind; [apply try_patterns_preserves | intros details'].
  destruct (bool_decide (details' !! name field = None) && negb (bool_decide (text = "")));
    [apply fuzzy_patterns_preserves | apply preserves_ret].
Qed.

Lemma extract_fields_preserves (img : image) (config : list TicketField) (i : nat)
    (details : gmap string string) :
  preserves P (extract_fields img i config details).
Proof using P_written P_searched P_confidence.
  revert i details. induction config as [|field config IH]; intros i details;
    cbn [extract_fields]; [apply preserves_ret |].
  apply preserves_bind; [apply process_field_preserves | intros details'; apply IH].
Qed.

Lemma extract_ticket_details_preserves (img : image) (config_name : string) :
  preserves P (extract_ticket_details img config_name).
Proof using P_written P_searched P_confidence.
  unfold extract_ticket_details. cbv zeta.
  apply preserves_bind; [apply preserves_get | intros s].
  destruct (configurations s !! resolve_config_name (configurations s) config_name);
    [| apply preserves_raise].
  apply preserves_bind; [apply preserves_debug_write | intros _].
  apply extract_fields_preserves.
Qed.

Lemma generate_ticket_reference_preserves : preserves P generate_ticket_reference.
Proof using P_confidence P_data.
  unfold generate_ticket_reference, ref_token, join_values. cbv zeta. preserve;
    apply preserves_modify; intros s Hs; now apply P_data.
Qed.

Lemma complete_scan_preserves (config_name : string) (details : gmap string string) :
  preserves P (complete_scan config_name details).
Proof using P_confidence P_data.
  unfold complete_scan.
  apply preserves_bind; [apply preserves_modify; intros s Hs; now apply P_data | intros _].
  apply preserves_bind; [apply preserves_get | intros s].
  apply preserves_bind; [| intros _].
  - destruct (extracted_data s !! "ticket_reference");
      [apply preserves_ret | apply generate_ticket_reference_preserves].
  - apply preserves_bind; [apply preserves_get | intros s']. apply preserves_ret.
Qed.

Lemma scan_preserves (image_path : string) : preserves P (scan image_path).
Proof using All.
  unfold scan. destruct (imread image_path) as [original|]; [| apply preserves_raise].
  apply preserves_bind;
    [apply preserves_modify; intros s Hs; now apply P_basename | intros _].
  apply preserves_bind; [apply determine_ticket_type_preserves | intros label].
  apply preserves_bind;
    [apply preserves_modify; intros s Hs; now apply P_type | intros _].
  apply preserves_bind; [apply preprocess_image_preserves | intros preprocessed].
  apply preserves_bind;
    [apply preserves_modify; intros s Hs; now apply P_preprocessed | intros _].
  apply preserves_bind; [apply crop_ticket_preserves | intros cropped].
  apply preserves_bind; [| intros working].
  - destruct cropped; [| apply preserves_ret].
    apply preserves_bind; [apply preserves_debug_write | intros _; apply preserves_ret].
  - apply preserves_bind; [apply select_configuration_preserves | intros config_name].
    apply preserves_bind; [apply extract_ticket_details_preserves | intros details].
    apply complete_scan_preserves.
Qed.

End Preservation.

(** ** The scan *)

Lemma unit_interval_direct : unit_interval 1.0%float.
Proof. split; vm_compute; reflexivity. Qed.

Lemma unit_interval_fuzzy : unit_interval 0.6%float.
Proof. split; vm_compute; reflexivity. Qed.

Lemma unit_interval_generated : unit_interval 0.5%float.
Proof. split; vm_compute; reflexivity. Qed.

Section Scan.
Context `{E : Externals}.

Lemma view_inv (s1 s2 : scanner) :
  view s1 = view s2 ->
  configurations s1 = configurations s2 /\ ticket_type s1 = ticket_type s2
  /\ extracted_data s1 = extracted_data s2 /\ confidence_scores s1 = confidence_scores s2
  /\ preprocessed_image s1 = preprocessed_image s2 /\ searched s1 = searched s2.
Proof. unfold view. intros [= -> -> -> -> -> ->]. repeat split. Qed.

Lemma bind_returns {A B : Type} (m : M A) (k : A -> M B) (s s' : scanner) (b : B) :
  bind m k s = (Return b, s') ->
  exists a s1, m s = (Return a, s1) /\ k a s1 = (Return b, s').
Proof. unfold bind. destruct (m s) as [[a|e] s1]; [eauto | discriminate]. Qed.

Lemma bind_return {A B : Type} (m : M A) (k : A -> M B) (s s1 : scanner) (a : A) :
  m s = (Return a, s1) -> bind m k s = k a s1.
Proof. unfold bind. now intros ->. Qed.

(** A stage that only writes debug files leaves the rest of the scanner as
    it is, whatever its outcome. *)
Lemma writes_only {A : Type} (m : M A) (s s' : scanner) (o : outcome A) :
  (forall P : scanner -> Prop,
     (forall s w, P s -> debug_roi s = true -> P (set_written w s)) -> preserves P m) ->
  m s = (o, s') ->
  view s' = view s /\ debug_roi s' = debug_roi s.
Proof.
  intros Hm Hrun.
  pose proof (Hm (fun t => view t = view s /\ debug_roi t = debug_roi s)
                ltac:(intros t w [Hv Hd] _; split; [exact Hv | exact Hd])
                s (conj eq_refl eq_refl)) as Hkeep.
  now rewrite Hrun in Hkeep.
Qed.

Lemma determine_ticket_type_view (img : image) (s s' : scanner) (o : outcome string) :
  determine_ticket_type img s = (o, s') -> view s' = view s /\ debug_roi s' = debug_roi s.
Proof.
  apply writes_only. intros P HP. now apply determine_ticket_type_preserves.
Qed.

Lemma preprocess_image_view (img : image) (s s' : scanner) (o : outcome image) :
  preprocess_image img s = (o, s') -> view s' = view s /\ debug_roi s' = debug_roi s.
Proof. apply writes_only. intros P HP. now apply preprocess_image_preserves. Qed.

Lemma crop_ticket_view (img : image) (s s' : scanner) (o : outcome (option image)) :
  crop_ticket img s = (o, s') -> view s' = view s /\ debug_roi s' = debug_roi s.
Proof. apply writes_only. intros P HP. now apply crop_ticket_preserves. Qed.

Lemma debug_write_view (suffix : string) (s s' : scanner) (o : outcome unit) :
  debug_write suffix s = (o, s') -> view s' = view s /\ debug_roi s' = debug_roi s.
Proof. apply writes_only. intros P HP. now apply preserves_debug_write. Qed.

Lemma select_configuration_view (img : image) (s s' : scanner) (o : outcome string) :
  select_configuration img s = (o, s') -> view s' = view s /\ debug_roi s' = debug_roi s.
Proof. apply writes_only. intros P HP. now apply select_configuration_preserves. Qed.

(** The two geometric stages return. *)
Lemma preprocess_image_returns (img : image) (s : scanner) :
  exists preprocessed s', preprocess_image img s = (Return preprocessed, s').
Proof.
  unfold preprocess_image, bind at 1, get.
  destruct (is_paper s).
  - unfold preprocess_paper.
    destruct (debug_write_returns "_gray.jpg" s) as (s1 & Hw1 & _).
    rewrite (bind_return _ _ _ _ _ Hw1).
    destruct (debug_write_returns "_adaptive_thresh.jpg" s1) as (s2 & Hw2 & _).
    rewrite (bind_return _ _ _ _ _ Hw2).
    destruct (threshold_angles img) as [angles|]; [| unfold ret; eauto].
    destruct (PrimFloat.ltb 0.1 (np_std angles) && threshold_contours img);
      [| unfold ret; eauto].
    destruct (debug_write_returns "_largest_contour.jpg" s2) as (s3 & Hw3 & _).
    rewrite (bind_return _ _ _ _ _ Hw3).
    destruct (debug_write_returns "_warped.jpg" s3) as (s4 & Hw4 & _).
    rewrite (bind_return _ _ _ _ _ Hw4). unfold ret. eauto.
  - destruct (debug_write_returns "_enhanced.jpg" s) as (s1 & Hw1 & _).
    rewrite (bind_return _ _ _ _ _ Hw1). unfold ret. eauto.
Qed.

Lemma first_ticket_rect_returns (img : image) (paper : bool) (candidates : list contour) :
  exists found, first_ticket_rect img paper candidates = Return found.
Proof.
  induction candidates as [|c candidates IH]; cbn [first_ticket_rect]; [eauto |].
  destruct (approx_points c =? 4)%nat; [| exact IH].
  pose proof (approx_rect_height c) as Hh.
  destruct (approx_rect c) as [[[x y] w] h]. cbn [snd] in Hh.
  unfold int_truediv. apply Z.ltb_lt in Hh.
  rewrite (proj2 (Z.eqb_neq h 0)) by lia. cbn [outcome_bind].
  match goal with |- context [if ?b then _ else _] => destruct b end; [eauto | exact IH].
Qed.

Lemma crop_ticket_returns (img : image) (s : scanner) :
  exists cropped s', crop_ticket img s = (Return cropped, s').
Proof.
  unfold crop_ticket.
  destruct (debug_write_returns "_crop_edges.jpg" s) as (s1 & Hw1 & _).
  rewrite (bind_return _ _ _ _ _ Hw1).
  destruct (find_contours img) as [|c0 cs]; [unfold ret; eauto |].
  destruct (debug_write_returns "_all_contours.jpg" s1) as (s2 & Hw2 & _).
  rewrite (bind_return _ _ _ _ _ Hw2).
  unfold bind at 1, get.
  destruct (first_ticket_rect_returns img (is_paper s2)
              (firstn 5 (sorted_by_area (c0 :: cs)))) as (found & Hfound).
  unfold bind at 1, lift. rewrite Hfound.
  destruct found as [[[[x y] w] h]|].
  - destruct (debug_write_returns "_selected_rect.jpg" s2) as (s3 & Hw3 & _).
    rewrite (bind_return _ _ _ _ _ Hw3). unfold ret. eauto.
  - destruct (bounding_rect (hd c0 (sorted_by_area (c0 :: cs)))) as [[[x y] w] h].
    destruct (large_enough img w h 0.3); [| unfold ret; eauto].
    destruct (debug_write_returns "_fallback_rect.jpg" s2) as (s3 & Hw3 & _).
    rewrite (bind_return _ _ _ _ _ Hw3). unfold ret. eauto.
Qed.

Lemma paired_same (details : gmap string string) (s s' : scanner) :
  confidence_scores s' = confidence_scores s -> paired details s -> paired details s'.
Proof. unfold paired. now intros ->. Qed.

Lemma paired_insert (details : gmap string string) (s s' : scanner)
    (field_name value : string) (c : float) :
  unit_interval c ->
  confidence_scores s' = <[field_name := c]> (confidence_scores s) ->
  paired details s -> paired (<[field_name := value]> details) s'.
Proof.
  unfold paired. intros Hc -> [Hdom Hall]. split.
  - rewrite !dom_insert_L. now rewrite Hdom.
  - now apply map_Forall_insert_2.
Qed.

Lemma try_patterns_paired (field_name : string) (ps : list string) (text : string)
    (details : gmap string string) (s : scanner) :
  paired details s ->
  exists details' s',
    try_patterns field_name ps text details s = (Return details', s')
    /\ paired details' s'.
Proof.
  revert s. induction ps as [|p ps IH]; intros s Hpaired; cbn [try_patterns].
  - now exists details, s.
  - unfold bind at 1. unfold record_search at 1. unfold modify.
    destruct (re_search p text search_flags) as [m|].
    + unfold bind, set_confidence, modify, ret. eexists _, _. split; [reflexivity |].
      eapply paired_insert; [apply unit_interval_direct | | exact Hpaired]. reflexivity.
    + apply IH. eapply paired_same; [| exact Hpaired]. reflexivity.
Qed.

Lemma fuzzy_patterns_paired (field_name : string) (ps : list string) (text : string)
    (details : gmap string string) (s : scanner) :
  paired details s ->
  exists details' s',
    fuzzy_patterns field_name ps text details s = (Return details', s')
    /\ paired details' s'.
Proof.
  intros Hpaired. induction ps as [|p ps IH]; cbn [fuzzy_patterns].
  - now exists details, s.
  - destruct (if bool_decide (clean_pattern p = "") then None
              else Py.find (clean_pattern p) text) as [start|]; [| exact IH].
    destruct (start + String.length (clean_pattern p) <? String.length text)%nat;
      [| exact IH].
    unfold bind, set_confidence, modify, ret. eexists _, _. split; [reflexivity |].
    eapply paired_insert; [apply unit_interval_fuzzy | | exact Hpaired]. reflexivity.
Qed.

Lemma process_field_paired (img : image) (i : nat) (field : TicketField)
    (details details' : gmap string string) (s s' : scanner) :
  paired details s ->
  process_field img i field details s = (Return details', s') ->
  paired details' s'.
Proof.
  intros Hpaired. unfold process_field, bind at 1.
  destruct (field_text_outcome img i field s) as (s1 & -> & (_ & _ & Hconf1 & _) & _).
  destruct (field_input img field) as [[text|]|e]; [| | discriminate].
  - unfold bind at 1.
    destruct (debug_write_returns "_all_roi.jpg" s1)
      as (s2 & -> & (_ & _ & Hconf2 & _) & _).
    assert (Hpaired2 : paired details s2).
    { eapply paired_same; [| exact Hpaired]. now rewrite Hconf2. }
    destruct (try_patterns_paired (name field) (patterns field) text details s2 Hpaired2)
      as (details3 & s3 & Htry & Hpaired3).
    unfold bind. rewrite Htry.
    destruct (bool_decide (details3 !! name field = None) && negb (bool_decide (text = ""))).
    + destruct (fuzzy_patterns_paired (name field) (patterns field) text details3 s3 Hpaired3)
        as (details4 & s4 & -> & Hpaired4).
      now intros [= <- <-].
    + unfold ret. now intros [= <- <-].
  - unfold ret. intros [= <- <-]. eapply paired_same; eassumption.
Qed.

Lemma extract_fields_paired (img : image) (config : list TicketField) (i : nat)
    (details details' : gmap string string) (s s' : scanner) :
  paired details s ->
  extract_fields img i config details s = (Return details', s') ->
  paired details' s'.
Proof.
  revert i details s.
  induction config as [|field config IH]; intros i details s Hpaired; cbn [extract_fields].
  - unfold ret. now intros [= <- <-].
  - intros Hrun. apply bind_returns in Hrun as (details1 & s1 & Hfield & Hrest).
    apply (IH (S i) details1 s1); [| exact Hrest].
    exact (process_field_paired img i field details details1 s s1 Hpaired Hfield).
Qed.

(** The extractor runs over the configuration of the resolved name, and
    raises when even "generic" is missing. *)
Lemma extract_ticket_details_cases (img : image) (config_name : string) (s : scanner) :
  let resolved := resolve_config_name (configurations s) config_name in
  (configurations s !! resolved = None
   /\ extract_ticket_details img config_name s = (Raise (KeyError resolved), s))
  \/ (exists config s1,
        configurations s !! resolved = Some config
        /\ same_object s s1
        /\ extract_ticket_details img config_name s = extract_fields img 0 config ∅ s1).
Proof.
  cbv zeta.
  assert (Heq : extract_ticket_details img config_name s
                = match configurations s
                        !! resolve_config_name (configurations s) config_name with
                  | Some config =>
                      bind (debug_write "_grid.jpg")
                        (fun _ => extract_fields img 0 config ∅) s
                  | None =>
                      (Raise (KeyError (resolve_config_name (configurations s) config_name)), s)
                  end).
  { unfold extract_ticket_details, bind at 1, get.
    now destruct (configurations s !! resolve_config_name (configurations s) config_name). }
  rewrite Heq. clear Heq.
  destruct (configurations s !! resolve_config_name (configurations s) config_name)
    as [config|]; [right | left; now split].
  destruct (debug_write_returns "_grid.jpg" s) as (s1 & Hwrite & Hsame & _).
  exists config, s1. unfold bind. now rewrite Hwrite.
Qed.

Lemma determine_ticket_type_labels (img : image) (s s' : scanner) (label : string) :
  determine_ticket_type img s = (Return label, s') -> label = "paper" \/ label = "digital".
Proof.
  unfold determine_ticket_type, bind.
  destruct (extract_features img s) as [[features|e] s1]; [| discriminate].
  destruct (debug_write_returns "_features.json" s1) as (s2 & -> & _).
  unfold ret. intros [= <- _].
  destruct (py_gt (paper_score features) (PFloat 0.5)); auto.
Qed.

Lemma first_indicated_in (table : list (string * list string)) (text config_name : string) :
  first_indicated table text = Some config_name -> In config_name (map fst table).
Proof.
  induction table as [|[n inds] table IH]; cbn [first_indicated map fst In]; [discriminate |].
  destruct (Py.any_in inds (Py.lower text)).
  - intros [= ->]. now left.
  - intros H. right. now apply IH.
Qed.

Lemma select_configuration_names (img : image) (s s' : scanner) (config_name : string) :
  select_configuration img s = (Return config_name, s') ->
  In config_name ["gwr"; "lner"; "tfl"; "avanti"; "trainline_app"; "generic_digital"].
Proof.
  destruct (select_configuration_returns img s) as (s1 & -> & _).
  remember (first_indicated issuer_indicators (image_to_string img)) as sel eqn:Hsel.
  intros [= <- _]. destruct sel as [n|]; cbn [default from_option].
  - exact (first_indicated_in _ _ _ (eq_sym Hsel)).
  - cbn. auto 10.
Qed.

(** Once the classifier has returned, the scan is the extraction followed by
    the end of the scan, on a scanner that differs from the first one by its
    ticket type, its preprocessed image and its debug trace. *)
Lemma scan_after_classifier (image_path : string) (s s1 : scanner)
    (original : image) (label : string) :
  imread image_path = Some original ->
  determine_ticket_type original (set_image_basename (path_stem image_path) s)
  = (Return label, s1) ->
  exists working config_name s2 s3,
    In config_name ["gwr"; "lner"; "tfl"; "avanti"; "trainline_app"; "generic_digital"]
    /\ select_configuration working s2 = (Return config_name, s3)
    /\ configurations s3 = configurations s
    /\ extracted_data s3 = extracted_data s
    /\ confidence_scores s3 = confidence_scores s
    /\ searched s3 = searched s
    /\ debug_roi s3 = debug_roi s
    /\ ticket_type s3 = Some label
    /\ scan image_path s
       = bind (extract_ticket_details working config_name)
           (fun details => complete_scan config_name details) s3.
Proof.
  intros Hread Hrun.
  destruct (determine_ticket_type_view _ _ _ _ Hrun) as [Hv1 Hd1].
  apply view_inv in Hv1 as (C1 & _ & D1 & F1 & _ & S1).
  cbn [configurations extracted_data confidence_scores searched debug_roi
       set_image_basename] in C1, D1, F1, S1, Hd1.
  unfold scan. rewrite Hread.
  unfold bind at 1. unfold modify at 1.
  rewrite (bind_return _ _ _ _ _ Hrun).
  unfold bind at 1. unfold modify at 1.
  destruct (preprocess_image_returns original (set_ticket_type (Some label) s1))
    as (preprocessed & sp & Hpre).
  rewrite (bind_return _ _ _ _ _ Hpre).
  destruct (preprocess_image_view _ _ _ _ Hpre) as [Hv2 Hd2].
  apply view_inv in Hv2 as (C2 & T2 & D2 & F2 & _ & S2).
  cbn [configurations ticket_type extracted_data confidence_scores searched debug_roi
       set_ticket_type] in C2, T2, D2, F2, S2, Hd2.
  unfold bind at 1. unfold modify at 1.
  destruct (crop_ticket_returns preprocessed
              (set_preprocessed_image (Some preprocessed) sp)) as (cropped & sc & Hcrop).
  rewrite (bind_return _ _ _ _ _ Hcrop).
  destruct (crop_ticket_view _ _ _ _ Hcrop) as [Hv3 Hd3].
  apply view_inv in Hv3 as (C3 & T3 & D3 & F3 & _ & S3).
  cbn [configurations ticket_type extracted_data confidence_scores searched debug_roi
       set_preprocessed_image] in C3, T3, D3, F3, S3, Hd3.
  assert (Hselect : forall working s2,
            view s2 = view sc -> debug_roi s2 = debug_roi sc ->
            exists config_name s3,
              select_configuration working s2 = (Return config_name, s3)
              /\ In config_name
                   ["gwr"; "lner"; "tfl"; "avanti"; "trainline_app"; "generic_digital"]
              /\ configurations s3 = configurations s
              /\ extracted_data s3 = extracted_data s
              /\ confidence_scores s3 = confidence_scores s
              /\ searched s3 = searched s
              /\ debug_roi s3 = debug_roi s
              /\ ticket_type s3 = Some label).
  { intros working s2 Hv Hd.
    apply view_inv in Hv as (C4 & T4 & D4 & F4 & _ & S4).
    destruct (select_configuration_returns working s2) as (s3 & Hsel & _).
    destruct (select_configuration_view _ _ _ _ Hsel) as [Hv5 Hd5].
    apply view_inv in Hv5 as (C5 & T5 & D5 & F5 & _ & S5).
    eexists _, s3. split; [exact Hsel |].
    split; [exact (select_configuration_names _ _ _ _ Hsel) |].
    repeat split; congruence. }
  destruct cropped as [cropped_image|].
  - destruct (debug_write_returns "_cropped.jpg" sc) as (s2 & Hw & _).
    destruct (debug_write_view _ _ _ _ Hw) as [Hv4 Hd4].
    destruct (Hselect cropped_image s2 Hv4 Hd4)
      as (config_name & s3 & Hsel & Hin & H1 & H2 & H3 & H4 & H5 & H6).
    exists cropped_image, config_name, s2, s3. repeat split; try assumption.
    unfold bind at 1. unfold bind at 1. rewrite Hw. unfold ret at 1.
    now rewrite (bind_return _ _ _ _ _ Hsel).
  - destruct (Hselect preprocessed sc eq_refl eq_refl)
      as (config_name & s3 & Hsel & Hin & H1 & H2 & H3 & H4 & H5 & H6).
    exists preprocessed, config_name, sc, s3. repeat split; try assumption.
    unfold bind at 1. unfold ret at 1.
    now rewrite (bind_return _ _ _ _ _ Hsel).
Qed.

(** The stages of a scan that returns. *)
Lemma scan_returns_stages (image_path : string) (s s' : scanner) (r : scan_result) :
  scan image_path s = (Return r, s') ->
  exists working label config_name s2 s3 details s4,
    (label = "paper" \/ label = "digital")
    /\ In config_name ["gwr"; "lner"; "tfl"; "avanti"; "trainline_app"; "generic_digital"]
    /\ select_configuration working s2 = (Return config_name, s3)
    /\ configurations s3 = configurations s
    /\ extracted_data s3 = extracted_data s
    /\ confidence_scores s3 = confidence_scores s
    /\ searched s3 = searched s
    /\ ticket_type s4 = Some label
    /\ extract_ticket_details working config_name s3 = (Return details, s4)
    /\ complete_scan config_name details s4 = (Return r, s').
Proof.
  intros Hscan.
  destruct (imread image_path) as [original|] eqn:Hread;
    [| unfold scan in Hscan; rewrite Hread in Hscan; discriminate].
  destruct (determine_ticket_type original (set_image_basename (path_stem image_path) s))
    as [[label|e] s1] eqn:Hrun.
  - destruct (scan_after_classifier image_path s s1 original label Hread Hrun)
      as (working & config_name & s2 & s3 & Hin & Hsel & Hcfg & Hdata & Hconf & Hlog
          & _ & Htype & Heq).
    rewrite Heq in Hscan.
    apply bind_returns in Hscan as (details & s4 & Hext & Hdone).
    exists working, label, config_name, s2, s3, details, s4.
    split; [exact (determine_ticket_type_labels _ _ _ _ Hrun) |].
    repeat split; try assumption.
    pose proof (extract_ticket_details_preserves (fun s => ticket_type s = Some label)
                  ltac:(auto) ltac:(auto) ltac:(auto) working config_name s3 Htype) as Hkeep.
    now rewrite Hext in Hkeep.
  - exfalso. revert Hscan. unfold scan. rewrite Hread.
    unfold bind at 1. unfold modify at 1. unfold bind at 1. now rewrite Hrun.
Qed.

End Scan.


(** ** The extraction as a function *)

Lemma record_all_union (recorded : list (string * float)) (scores : gmap string float) :
  record_all recorded scores = list_to_map (reverse recorded) ∪ scores.
Proof.
  unfold record_all. revert scores.
  induction recorded as [|[k c] recorded IH]; intros scores.
  - cbn. now rewrite (left_id_L ∅ (∪)).
  - cbn [foldl]. rewrite IH, reverse_cons, list_to_map_app.
    change (list_to_map [(k, c)]) with (<[k := c]> (∅ : gmap string float)).
    rewrite <- (assoc_L (∪)). f_equal.
    rewrite insert_empty. now rewrite <- insert_union_singleton_l.
Qed.

Lemma record_all_twice (recorded : list (string * float)) (scores : gmap string float) :
  record_all recorded (record_all recorded scores) = record_all recorded scores.
Proof.
  rewrite !record_all_union. rewrite (assoc_L (∪)). f_equal. apply (idemp_L (∪)).
Qed.

Section Extraction.
Context `{E : Externals}.

Lemma fuzzy_patterns_step (field_name p : string) (ps : list string) (text : string)
    (details : gmap string string) :
  fuzzy_patterns field_name (p :: ps) text details
  = match fuzzy_stop p text with
    | Some stop =>
        bind (set_confidence field_name 0.6)
          (fun _ => ret (<[field_name := Py.strip (Py.first_line (Py.slice stop 30 text))]>
                           details))
    | None => fuzzy_patterns field_name ps text details
    end.
Proof.
  cbn [fuzzy_patterns]. unfold fuzzy_stop. cbv zeta.
  destruct (bool_decide (clean_pattern p = "")); [reflexivity |].
  destruct (Py.find (clean_pattern p) text) as [start|]; [| reflexivity].
  now destruct (start + String.length (clean_pattern p) <? String.length text)%nat.
Qed.

Lemma try_patterns_first_match_value (field_name : string) (ps : list string)
    (text : string) (details : gmap string string) (s : scanner) :
  exists s',
    try_patterns field_name ps text details s
    = (Return (match first_match ps text with
               | Some m => <[field_name := Py.strip (group_0 m)]> details
               | None => details
               end), s')
    /\ confidence_scores s'
       = match first_match ps text with
         | Some _ => <[field_name := 1.0%float]> (confidence_scores s)
         | None => confidence_scores s
         end
    /\ configurations s' = configurations s.
Proof.
  revert s. induction ps as [|p ps IH]; intros s; cbn [try_patterns first_match].
  - now exists s.
  - unfold bind at 1. unfold record_search at 1. unfold modify.
    destruct (re_search p text search_flags) as [m|].
    + unfold bind, set_confidence, modify, ret. eexists. split; [reflexivity |]. now split.
    + destruct (IH (set_searched (searched s ++ [(p, text, search_flags)]) s))
        as (s' & H1 & H2 & H3).
      exists s'. split; [exact H1 |]. split; [exact H2 | exact H3].
Qed.

Lemma fuzzy_patterns_first_stop_value (field_name : string) (ps : list string)
    (text : string) (details : gmap string string) (s : scanner) :
  exists s',
    fuzzy_patterns field_name ps text details s
    = (Return (match first_fuzzy_stop ps text with
               | Some stop =>
                   <[field_name := Py.strip (Py.first_line (Py.slice stop 30 text))]> details
               | None => details
               end), s')
    /\ confidence_scores s'
       = match first_fuzzy_stop ps text with
         | Some _ => <[field_name := 0.6%float]> (confidence_scores s)
         | None => confidence_scores s
         end
    /\ configurations s' = configurations s.
Proof.
  induction ps as [|p ps IH]; [now exists s |].
  rewrite fuzzy_patterns_step. cbn [first_fuzzy_stop].
  destruct (fuzzy_stop p text) as [stop|]; [| exact IH].
  unfold bind, set_confidence, modify, ret. eexists. split; [reflexivity |]. now split.
Qed.

Lemma process_field_value (img : image) (i : nat) (field : TicketField)
    (details : gmap string string) (s : scanner) :
  exists s',
    process_field img i field details s
    = (outcome_map (fun value => match value with
                                 | Some (v, _) => <[name field := v]> details
                                 | None => details
                                 end) (field_value img field details), s')
    /\ (forall value, field_value img field details = Return value ->
        confidence_scores s'
        = match value with
          | Some (_, c) => <[name field := c]> (confidence_scores s)
          | None => confidence_scores s
          end)
    /\ configurations s' = configurations s.
Proof.
  unfold process_field, field_value, bind at 1.
  destruct (field_text_outcome img i field s) as (s1 & -> & (Hcfg1 & _ & Hconf1 & _) & _).
  destruct (field_input img field) as [[text|]|e]; cbn [outcome_map outcome_bind mbind
    option_bind].
  - unfold bind at 1.
    destruct (debug_write_returns "_all_roi.jpg" s1)
      as (s2 & -> & (Hcfg2 & _ & Hconf2 & _) & _).
    destruct (try_patterns_first_match_value (name field) (patterns field) text details s2)
      as (s3 & Htry & Hconf3 & Hcfg3).
    unfold bind. rewrite Htry. unfold text_value.
    destruct (first_match (patterns field) text) as [m|].
    + rewrite lookup_insert_eq. rewrite bool_decide_eq_false_2 by discriminate. cbn [andb].
      exists s3. split; [reflexivity |]. split; [intros value [= <-] |]; congruence.
    + destruct (bool_decide (details !! name field = None) && negb (bool_decide (text = ""))).
      * destruct (fuzzy_patterns_first_stop_value (name field) (patterns field) text
                    details s3) as (s4 & Hfuzzy & Hconf4 & Hcfg4).
        exists s4. rewrite Hfuzzy.
        destruct (first_fuzzy_stop (patterns field) text);
          (split; [reflexivity |]); (split; [intros value [= <-] |]); congruence.
      * exists s3. split; [reflexivity |]. split; [intros value [= <-] |]; congruence.
  - exists s1. split; [reflexivity |]. split; [intros value [= <-] |]; congruence.
  - exists s1. split; [reflexivity |]. split; [intros value [=] | congruence].
Qed.

Lemma extract_fields_value (img : image) (config : list TicketField) (i : nat)
    (details : gmap string string) (s : scanner) :
  exists s',
    extract_fields img i config details s
    = (outcome_map fst (extraction img config details), s')
    /\ (forall details' recorded,
          extraction img config details = Return (details', recorded) ->
          confidence_scores s' = record_all recorded (confidence_scores s))
    /\ configurations s' = configurations s.
Proof.
  revert i details s.
  induction config as [|field config IH]; intros i details s;
    cbn [extract_fields extraction].
  - exists s. split; [reflexivity |]. split; [now intros ? ? [= <- <-] | reflexivity].
  - destruct (process_field_value img i field details s) as (s1 & Hrun & Hconf1 & Hcfg1).
    unfold bind. rewrite Hrun.
    destruct (field_value img field details) as [[[v c]|]|e];
      cbn [outcome_map outcome_bind].
    + destruct (IH (S i) (<[name field := v]> details) s1) as (s' & Hrest & Hconf & Hcfg).
      exists s'. rewrite Hrest.
      destruct (extraction img config (<[name field := v]> details))
        as [[details' recorded]|e]; cbn [outcome_map outcome_bind fst].
      * split; [reflexivity |]. split; [| congruence].
        intros ? ? [= <- <-]. cbn [fst snd].
        rewrite (Hconf _ _ eq_refl), (Hconf1 _ eq_refl). reflexivity.
      * split; [reflexivity |]. split; [intros ? ? [=] | congruence].
    + destruct (IH (S i) details s1) as (s' & Hrest & Hconf & Hcfg).
      exists s'. split; [exact Hrest |]. split; [| congruence].
      intros details' recorded Hext. rewrite (Hconf _ _ Hext), (Hconf1 _ eq_refl).
      reflexivity.
    + exists s1. split; [reflexivity |]. split; [intros ? ? [=] | congruence].
Qed.

Lemma extract_ticket_details_value (img : image) (config_name : string) (s : scanner)
    (config : list TicketField) :
  configurations s !! resolve_config_name (configurations s) config_name = Some config ->
  exists s',
    extract_ticket_details img config_name s
    = (outcome_map fst (extraction img config ∅), s')
    /\ (forall details recorded,
          extraction img config ∅ = Return (details, recorded) ->
          confidence_scores s' = record_all recorded (confidence_scores s))
    /\ configurations s' = configurations s.
Proof.
  intros Hconfig.
  destruct (extract_ticket_details_cases img config_name s)
    as [[Hnone _] | (config' & s1 & Hconfig' & (Hcfg1 & _ & Hconf1 & _) & Hrun)];
    [congruence |].
  assert (config' = config) as -> by congruence.
  destruct (extract_fields_value img config 0 ∅ s1) as (s' & Hfields & Hconf & Hcfg).
  exists s'. split; [congruence |]. split; [| congruence].
  intros details recorded Hext. rewrite (Hconf _ _ Hext). congruence.
Qed.

(** A run of the extractor that returns is the extraction over the
    configuration of the resolved name. *)
Lemma extract_ticket_details_returned (img : image) (config_name : string)
    (s s' : scanner) (details : gmap string string) :
  extract_ticket_details img config_name s = (Return details, s') ->
  exists config recorded,
    configurations s !! resolve_config_name (configurations s) config_name = Some config
    /\ extraction img config ∅ = Return (details, recorded)
    /\ confidence_scores s' = record_all recorded (confidence_scores s)
    /\ configurations s' = configurations s.
Proof.
  intros Hrun.
  destruct (extract_ticket_details_cases img config_name s)
    as [[_ Hraise] | (config & s0 & Hconfig & _)]; [congruence |].
  destruct (extract_ticket_details_value img config_name s config Hconfig)
    as (s1 & Hrun1 & Hconf1 & Hcfg1).
  rewrite Hrun1 in Hrun.
  destruct (extraction img config ∅) as [[details' recorded]|e] eqn:Hext; [| discriminate].
  cbn [outcome_map outcome_bind fst] in Hrun. injection Hrun as <- <-.
  exists config, recorded. split; [exact Hconfig |]. split; [exact Hext |].
  split; [exact (Hconf1 _ _ eq_refl) | exact Hcfg1].
Qed.

(** X20. The extraction as a function. For the configuration of the
    resolved name, the outcome of the extractor is the one that the function
    [extraction] computes from the texts of the fields and the answers of
    the regular expression engine, whatever the scanner it runs in, and when
    it returns it has recorded the confidence entries of [extraction], in
    order, over the confidence mapping that it found. *)
Theorem extract_ticket_details_is_extraction (img : image) (config_name : string)
    (s : scanner) (config : list TicketField) :
  configurations s !! resolve_config_name (configurations s) config_name = Some config ->
  exists s',
    extract_ticket_details img config_name s
    = (outcome_map fst (extraction img config ∅), s')
    /\ (forall details recorded,
          extraction img config ∅ = Return (details, recorded) ->
          confidence_scores s' = record_all recorded (confidence_scores s)).
Proof.
  intros Hconfig.
  destruct (extract_ticket_details_value img config_name s config Hconfig)
    as (s' & Hrun & Hconf & _).
  exists s'. split; [exact Hrun | exact Hconf].
Qed.

(** X21. Extracting twice. An extraction run again on the scanner that the
    first run left returns the same values and leaves the confidence
    mapping as the first run left it. *)
Theorem extraction_is_idempotent (img : image) (config_name : string) (s s1 : scanner)
    (details : gmap string string) :
  extract_ticket_details img config_name s = (Return details, s1) ->
  exists s2,
    extract_ticket_details img config_name s1 = (Return details, s2)
    /\ confidence_scores s2 = confidence_scores s1.
Proof.
  intros Hfirst.
  destruct (extract_ticket_details_returned img config_name s s1 details Hfirst)
    as (config & recorded & Hconfig & Hext & Hconf1 & Hcfg1).
  rewrite <- Hcfg1 in Hconfig.
  destruct (extract_ticket_details_value img config_name s1 config Hconfig)
    as (s2 & Hrun2 & Hconf2 & _).
  exists s2. rewrite Hrun2, Hext. split; [reflexivity |].
  rewrite (Hconf2 _ _ Hext), Hconf1. apply record_all_twice.
Qed.

End Extraction.

Section ScanClaims.
Context `{E : Externals}.

Lemma complete_scan_cases (config_name : string) (details : gmap string string)
    (s s' : scanner) (r : scan_result) :
  complete_scan config_name details s = (Return r, s') ->
  configuration_used r = config_name
  /\ result_ticket_type r = ticket_type s
  /\ confidence_scores s' = confidence r
  /\ ((is_Some (details !! "ticket_reference")
       /\ data r = PStr <$> details /\ confidence r = confidence_scores s)
      \/ (details !! "ticket_reference" = None
          /\ data r = <["is_reference_generated" := PBool true]>
                        (<["ticket_reference" := PStr (reference_of details)]>
                           (PStr <$> details))
          /\ confidence r = <["ticket_reference" := 0.5%float]> (confidence_scores s))).
Proof.
  destruct (details !! "ticket_reference") as [v|] eqn:Href.
  - rewrite complete_scan_keeps by eauto. intros [= <- <-]. cbn. eauto 10.
  - destruct (complete_scan_generates config_name details s Href) as (s1 & Hrun & Hconf).
    rewrite Hrun. intros [= <- <-]. cbn. auto 10.
Qed.

(** C1, as amended. After a scan that starts with an empty confidence
    mapping, as in a new scanner, every name of the confidence mapping is a
    name of the extracted data, every name of the extracted data other than
    [is_reference_generated] is a name of the confidence mapping, and every
    confidence value lies between 0.0 and 1.0. The extractor leaves values
    and confidences under the same names; when these have a
    [ticket_reference] the record holds them as they are, and otherwise
    synthesis adds [ticket_reference] and [is_reference_generated] to the
    data and [ticket_reference] only, at 0.5, to the confidence mapping. *)
Theorem confidence_matches_data (image_path : string) (s s' : scanner) (r : scan_result) :
  confidence_scores s = ∅ ->
  scan image_path s = (Return r, s') ->
  (forall k, k ∈ dom (confidence r) -> k ∈ dom (data r))
  /\ (forall k, k ∈ dom (data r) -> k <> "is_reference_generated" -> k ∈ dom (confidence r))
  /\ map_Forall (fun _ c => unit_interval c) (confidence r)
  /\ exists working s3 s4 details,
       extract_ticket_details working (configuration_used r) s3 = (Return details, s4)
       /\ dom (confidence_scores s4) = dom details
       /\ ((is_Some (details !! "ticket_reference")
            /\ data r = PStr <$> details
            /\ confidence r = confidence_scores s4)
           \/ (details !! "ticket_reference" = None
               /\ data r = <["is_reference_generated" := PBool true]>
                             (<["ticket_reference" := PStr (reference_of details)]>
                                (PStr <$> details))
               /\ confidence r
                  = <["ticket_reference" := 0.5%float]> (confidence_scores s4))).
Proof.
  intros Hempty Hscan.
  destruct (scan_returns_stages image_path s s' r Hscan)
    as (working & label & config_name & s2 & s3 & details & s4
        & _ & _ & _ & _ & _ & Hconf3 & _ & _ & Hext & Hdone).
  assert (Hpaired : paired details s4).
  { destruct (extract_ticket_details_cases working config_name s3)
      as [[_ Hraise] | (config & s3' & _ & (_ & _ & Hconf3' & _) & Hrun)].
    - rewrite Hraise in Hext. discriminate.
    - assert (Hstart : paired (∅ : gmap string string) s3').
      { unfold paired. rewrite Hconf3', Hconf3, Hempty.
        split; [now rewrite !dom_empty_L | apply map_Forall_empty]. }
      rewrite Hrun in Hext.
      exact (extract_fields_paired working config 0%nat ∅ details s3' s4 Hstart Hext). }
  destruct Hpaired as [Hdom Hall].
  destruct (complete_scan_cases config_name details s4 s' r Hdone)
    as (Hname & _ & _ & Hcases).
  assert (Hshape :
    (forall k, k ∈ dom (confidence r) -> k ∈ dom (data r))
    /\ (forall k, k ∈ dom (data r) -> k <> "is_reference_generated"
                  -> k ∈ dom (confidence r))
    /\ map_Forall (fun _ c => unit_interval c) (confidence r)).
  { destruct Hcases as [(_ & -> & ->) | (_ & -> & ->)].
    - rewrite dom_fmap_L, Hdom. auto.
    - rewrite !dom_insert_L, dom_fmap_L, Hdom.
      split; [| split].
      + intros k. rewrite !elem_of_union, !elem_of_singleton. tauto.
      + intros k. rewrite !elem_of_union, !elem_of_singleton. tauto.
      + apply map_Forall_insert_2; [apply unit_interval_generated | exact Hall]. }
  destruct Hshape as (H1 & H2 & H3).
  split; [exact H1 |]. split; [exact H2 |]. split; [exact H3 |].
  exists working, s3, s4, details. rewrite Hname.
  split; [exact Hext |]. split; [now rewrite Hdom | exact Hcases].
Qed.

(** C9. When the image cannot be decoded the scan raises at once and leaves
    the scanner as it was, and what the entry point prints is the record
    with the single key "error" and the message as its value. *)
Theorem unreadable_image_error_record (image_path : string) (debug : bool) (dir : string) :
  imread image_path = None ->
  (forall s, scan image_path s
             = (Raise (ValueError ("Could not load image from " ++ image_path)%string), s))
  /\ main image_path debug dir
     = JObj [("error", JStr ("Could not load image from " ++ image_path)%string)].
Proof.
  intros Hnone. unfold main, scan. rewrite Hnone. split; reflexivity.
Qed.


End ScanClaims.

Lemma confidence_matches_data_witness :
  let run := @scan wallet_world "ticket.jpg"
               (@new_scanner wallet_world None false "debug_roi_images") in
  let r := result_of empty_result run.1 in
  (forall k, k ∈ dom (confidence r) -> k ∈ dom (data r))
  /\ (forall k, k ∈ dom (data r) -> k <> "is_reference_generated" -> k ∈ dom (confidence r))
  /\ map_Forall (fun _ c => unit_interval c) (confidence r)
  /\ exists working s3 s4 details,
       @extract_ticket_details wallet_world working (configuration_used r) s3
       = (Return details, s4)
       /\ dom (confidence_scores s4) = dom details
       /\ ((is_Some (details !! "ticket_reference")
            /\ data r = PStr <$> details
            /\ confidence r = confidence_scores s4)
           \/ (details !! "ticket_reference" = None
               /\ data r = <["is_reference_generated" := PBool true]>
                             (<["ticket_reference" := PStr (@reference_of wallet_world details)]>
                                (PStr <$> details))
               /\ confidence r
                  = <["ticket_reference" := 0.5%float]> (confidence_scores s4))).
Proof.
  intros run r.
  apply (@confidence_matches_data wallet_world "ticket.jpg"
           (@new_scanner wallet_world None false "debug_roi_images") run.2 r).
  - reflexivity.
  - vm_compute. reflexivity.
Defined.

(** C1, as stated, fails: on a blank image the scan returns extracted data
    with [is_reference_generated], a name that the confidence mapping does
    not have. *)
Lemma generated_flag_without_confidence :
  let run := @scan blank_world "ticket.jpg"
               (@new_scanner blank_world None false "debug_roi_images") in
  let r := result_of empty_result run.1 in
  run.1 = Return r
  /\ data r !! "is_reference_generated" = Some (PBool true)
  /\ confidence r !! "is_reference_generated" = None
  /\ ~ (forall k, k ∈ dom (confidence r) <-> k ∈ dom (data r)).
Proof.
  intros run r.
  assert (Hdata : data r !! "is_reference_generated" = Some (PBool true))
    by (vm_compute; reflexivity).
  assert (Hconf : confidence r !! "is_reference_generated" = None)
    by (vm_compute; reflexivity).
  split; [vm_compute; reflexivity |]. split; [exact Hdata |]. split; [exact Hconf |].
  intros Hiff. specialize (Hiff "is_reference_generated").
  rewrite !elem_of_dom, Hdata, Hconf in Hiff.
  destruct Hiff as [_ Hback]. destruct (Hback ltac:(eauto)) as [x Hx]. discriminate.
Qed.

Lemma unreadable_image_error_record_witness :
  @main unreadable_world "ticket.jpg" false "debug_roi_images"
  = JObj [("error", JStr "Could not load image from ticket.jpg")].
Proof.
  apply (@unreadable_image_error_record unreadable_world "ticket.jpg" false "debug_roi_images").
  reflexivity.
Defined.


(** On an LNER ticket the record reports "lner", which names no
    configuration, and its data are the values extracted over the "generic"
    field list. *)
Example lner_ticket_uses_generic :
  let s0 := @new_scanner lner_reference_world None false "debug_roi_images" in
  let r := result_of empty_result (@scan lner_reference_world "ticket.jpg" s0).1 in
  configuration_used r = "lner"
  /\ configurations s0 !! "lner" = None
  /\ fields_for "lner" = generic_configuration
  /\ data r = <["ticket_reference" := PStr "Ref: AB-12"]> ∅.
Proof. repeat split; vm_compute; reflexivity. Qed.

(** ** The extractor, field by field *)

Section FieldShape.
Context `{E : Externals}.

(** What a loop over the patterns of a field does to the extracted values
    and to the confidence mapping: nothing, or one entry for the field in
    each. *)
Lemma try_patterns_shape (field_name : string) (ps : list string) (text : string)
    (details : gmap string string) (s : scanner) :
  exists details' s',
    try_patterns field_name ps text details s = (Return details', s')
    /\ ((details' = details /\ confidence_scores s' = confidence_scores s
         /\ Forall (fun p => re_search p text search_flags = None) ps)
        \/ (exists v, details' = <[field_name := v]> details
            /\ confidence_scores s' = <[field_name := 1.0%float]> (confidence_scores s))).
Proof.
  revert s. induction ps as [|p ps IH]; intros s; cbn [try_patterns].
  - exists details, s. split; [reflexivity |]. left. auto.
  - unfold bind at 1. unfold record_search at 1. unfold modify.
    destruct (re_search p text search_flags) as [m|] eqn:Hp.
    + unfold bind, set_confidence, modify, ret. eexists _, _. split; [reflexivity |].
      right. eexists. split; reflexivity.
    + destruct (IH (set_searched (searched s ++ [(p, text, search_flags)]) s))
        as (details' & s' & Hrun & Hshape).
      exists details', s'. split; [exact Hrun |].
      destruct Hshape as [(-> & Hconf & Hall) | (v & -> & Hconf)].
      * left. repeat split; auto.
      * right. exists v. split; auto.
Qed.

Lemma fuzzy_patterns_shape (field_name : string) (ps : list string) (text : string)
    (details : gmap string string) (s : scanner) :
  exists details' s',
    fuzzy_patterns field_name ps text details s = (Return details', s')
    /\ ((details' = details /\ s' = s /\ Forall (fun p => fuzzy_stop p text = None) ps)
        \/ (exists p stop,
              In p ps /\ fuzzy_stop p text = Some stop
              /\ details' = <[field_name := Py.strip (Py.first_line (Py.slice stop 30 text))]>
                              details
              /\ confidence_scores s' = <[field_name := 0.6%float]> (confidence_scores s))).
Proof.
  induction ps as [|p ps IH].
  - exists details, s. split; [reflexivity |]. left. auto.
  - rewrite fuzzy_patterns_step. destruct (fuzzy_stop p text) as [stop|] eqn:Hp.
    + unfold bind, set_confidence, modify, ret. eexists _, _. split; [reflexivity |].
      right. exists p, stop. split; [now left |]. repeat split; auto.
    + destruct IH as (details' & s' & Hrun & Hshape).
      exists details', s'. split; [exact Hrun |].
      destruct Hshape as [(-> & -> & Hall) | (q & stop & Hin & Hq & -> & Hconf)].
      * left. repeat split; auto.
      * right. exists q, stop. repeat split; auto. now right.
Qed.

(** One field: the extracted values and the confidence mapping are left as
    they are, or both get an entry under the name of the field, with
    confidence 1.0 or 0.6. *)
Lemma process_field_shape (img : image) (i : nat) (field : TicketField)
    (details details' : gmap string string) (s s' : scanner) :
  process_field img i field details s = (Return details', s') ->
  (details' = details /\ confidence_scores s' = confidence_scores s)
  \/ (exists v c,
        details' = <[name field := v]> details
        /\ confidence_scores s' = <[name field := c]> (confidence_scores s)
        /\ (c = 1.0%float \/ c = 0.6%float)).
Proof.
  unfold process_field, bind at 1.
  destruct (field_text_outcome img i field s) as (s1 & -> & (_ & _ & Hconf1 & _) & _).
  destruct (field_input img field) as [[text|]|e];
    [| unfold ret; intros [= <- <-]; left; auto | discriminate].
  unfold bind at 1.
  destruct (debug_write_returns "_all_roi.jpg" s1) as (s2 & -> & (_ & _ & Hconf2 & _) & _).
  destruct (try_patterns_shape (name field) (patterns field) text details s2)
    as (details3 & s3 & Htry & Hshape).
  unfold bind. rewrite Htry.
  destruct Hshape as [(-> & Hconf3 & _) | (v & -> & Hconf3)].
  - destruct (bool_decide (details !! name field = None) && negb (bool_decide (text = ""))).
    + destruct (fuzzy_patterns_shape (name field) (patterns field) text details s3)
        as (details4 & s4 & -> & Hshape).
      intros [= <- <-].
      destruct Hshape as [(-> & -> & _) | (p & stop & _ & _ & -> & Hconf4)].
      * left. split; [reflexivity | congruence].
      * right. eexists _, _. split; [reflexivity |]. split; [| now right]. congruence.
    + unfold ret. intros [= <- <-]. left. split; [reflexivity | congruence].
  - rewrite lookup_insert_eq. rewrite bool_decide_eq_false_2 by discriminate.
    cbn [andb]. unfold ret. intros [= <- <-].
    right. eexists _, _. split; [reflexivity |]. split; [| now left]. congruence.
Qed.

(** The names extracted are names of fields, and every one of them has a
    confidence. *)
Lemma extract_fields_names (img : image) (config : list TicketField) (i : nat)
    (details details' : gmap string string) (s s' : scanner) :
  extract_fields img i config details s = (Return details', s') ->
  dom details' ⊆ dom details ∪ field_names config
  /\ (dom details ⊆ dom (confidence_scores s) ->
      dom details' ⊆ dom (confidence_scores s')).
Proof.
  revert i details s.
  induction config as [|field config IH]; intros i details s; cbn [extract_fields].
  - unfold ret. intros [= <- <-]. split; [set_solver | auto].
  - intros Hrun. apply bind_returns in Hrun as (details1 & s1 & Hfield & Hrest).
    apply process_field_shape in Hfield as Hshape.
    destruct (IH (S i) details1 s1 Hrest) as (Hnames & Hcovered).
    unfold field_names in *. cbn [fmap list_fmap list_to_set].
    destruct Hshape as [(-> & Hconf) | (v & c & -> & Hconf & _)].
    + split; [set_solver |]. intros H. apply Hcovered. now rewrite Hconf.
    + rewrite dom_insert_L in Hnames. split; [set_solver |].
      intros H. apply Hcovered. rewrite Hconf, !dom_insert_L. set_solver.
Qed.

End FieldShape.

(** ** The scan, stage by stage *)

Section Stages.
Context `{E : Externals}.

(** The end of the scan always returns. *)
Lemma complete_scan_returns (config_name : string) (details : gmap string string)
    (s : scanner) :
  exists r s',
    complete_scan config_name details s = (Return r, s')
    /\ result_ticket_type r = ticket_type s
    /\ configuration_used r = config_name
    /\ is_Some (data r !! "ticket_reference")
    /\ (dom details ⊆ dom (confidence_scores s) ->
        is_Some (confidence r !! "ticket_reference"))
    /\ (details !! "ticket_reference" = None ->
        data r !! "is_reference_generated" = Some (PBool true)
        /\ data r !! "ticket_reference" = Some (PStr (reference_of details))
        /\ confidence r !! "ticket_reference" = Some 0.5%float).
Proof.
  destruct (details !! "ticket_reference") as [v|] eqn:Href.
  - eexists _, _. split; [apply complete_scan_keeps; eauto |]. cbn.
    split; [reflexivity |]. split; [reflexivity |].
    split; [rewrite lookup_fmap, Href; eauto |].
    split; [| discriminate].
    intros Hcovered. apply elem_of_dom, Hcovered, elem_of_dom. eauto.
  - destruct (complete_scan_generates config_name details s Href) as (s' & Hrun & _).
    eexists _, s'. split; [exact Hrun |]. cbn.
    split; [reflexivity |]. split; [reflexivity |].
    split; [rewrite lookup_insert_ne, lookup_insert_eq by discriminate; eauto |].
    split; [intros _; rewrite lookup_insert_eq; eauto |].
    intros _. rewrite lookup_insert_eq.
    rewrite lookup_insert_ne, !lookup_insert_eq by discriminate. auto.
Qed.

End Stages.

Section ScanProperties.
Context `{E : Externals}.

Lemma extract_ticket_details_inv (img : image) (config_name : string) (s s' : scanner)
    (details : gmap string string) :
  extract_ticket_details img config_name s = (Return details, s') ->
  exists config,
    configurations s !! resolve_config_name (configurations s) config_name = Some config
    /\ dom details ⊆ field_names config
    /\ dom details ⊆ dom (confidence_scores s').
Proof.
  intros Hrun.
  destruct (extract_ticket_details_cases img config_name s)
    as [[_ Hraise] | (config & s1 & Hconfig & _ & Hfields)]; [congruence |].
  rewrite Hfields in Hrun.
  destruct (extract_fields_names img config 0 ∅ details s1 s' Hrun) as (Hnames & Hcovered).
  exists config. split; [exact Hconfig |]. rewrite dom_empty_L in *.
  split; [set_solver | apply Hcovered; set_solver].
Qed.

(** X1. The record of a scan. Whenever a scan returns, the ticket type of
    the record is "paper" or "digital", the configuration name is one of the
    six names of the selector, and both the extracted data and the
    confidence mapping have a [ticket_reference]. *)
Theorem scan_record_shape (image_path : string) (s s' : scanner) (r : scan_result) :
  scan image_path s = (Return r, s') ->
  (result_ticket_type r = Some "paper" \/ result_ticket_type r = Some "digital")
  /\ In (configuration_used r)
       ["gwr"; "lner"; "tfl"; "avanti"; "trainline_app"; "generic_digital"]
  /\ is_Some (data r !! "ticket_reference")
  /\ is_Some (confidence r !! "ticket_reference").
Proof.
  intros Hscan.
  destruct (scan_returns_stages image_path s s' r Hscan)
    as (working & label & config_name & s2 & s3 & details & s4
        & Hlabel & Hin & _ & _ & _ & _ & _ & Htype & Hext & Hdone).
  destruct (extract_ticket_details_inv working config_name s3 s4 details Hext)
    as (config & _ & _ & Hcovered).
  destruct (complete_scan_returns config_name details s4)
    as (r0 & s0 & Hrun & Hrtype & Hname & Hdata & Hconf & _).
  rewrite Hdone in Hrun. injection Hrun as <- <-.
  rewrite Hrtype, Htype, Hname.
  split; [destruct Hlabel as [-> | ->]; auto |].
  split; [exact Hin |]. split; [exact Hdata | exact (Hconf Hcovered)].
Qed.

(** X3. A table of configurations without the names of the selector. When
    the configurations have neither "generic" nor any of the six names that
    the selector can return, every scan of a readable image raises
    [KeyError] for "generic". *)
Theorem scan_without_generic_raises (image_path : string) (s : scanner) (original : image) :
  imread image_path = Some original ->
  debug_roi s = false \/ is_Some (hough_angles original) ->
  configurations s !! "generic" = None ->
  (forall n, In n ["gwr"; "lner"; "tfl"; "avanti"; "trainline_app"; "generic_digital"] ->
             configurations s !! n = None) ->
  (scan image_path s).1 = Raise (KeyError "generic").
Proof.
  intros Hread Hok Hgeneric Hnames.
  destruct (determine_ticket_type_returns original
              (set_image_basename (path_stem image_path) s) Hok) as (s1 & Hrun).
  destruct (scan_after_classifier image_path s s1 original _ Hread Hrun)
    as (working & config_name & s2 & s3 & Hin & _ & Hcfg & _ & _ & _ & _ & _ & Heq).
  rewrite Heq. unfold bind.
  destruct (extract_ticket_details_cases working config_name s3)
    as [[_ Hraise] | (config & s3' & Hconfig & _)].
  - rewrite Hraise. cbn [fst]. unfold resolve_config_name.
    now rewrite Hcfg, (Hnames _ Hin).
  - exfalso. revert Hconfig. unfold resolve_config_name.
    rewrite Hcfg, (Hnames _ Hin). congruence.
Qed.

(** X4. The layouts without a reference field. Under the default
    configurations, when the selector returns "trainline_app" or
    "generic_digital" the reference is always synthesized: the field list of
    these names has no [ticket_reference] field (its reference field is
    called [reference]). *)
Theorem trainline_reference_is_synthesized (image_path : string) (s s' : scanner)
    (r : scan_result) :
  configurations s = get_default_configurations ->
  scan image_path s = (Return r, s') ->
  configuration_used r = "trainline_app" \/ configuration_used r = "generic_digital" ->
  data r !! "is_reference_generated" = Some (PBool true)
  /\ confidence r !! "ticket_reference" = Some 0.5%float
  /\ exists details,
       dom details ⊆ field_names get_trainline_configuration
       /\ data r !! "ticket_reference" = Some (PStr (reference_of details)).
Proof.
  intros Hdefault Hscan Hused.
  destruct (scan_returns_stages image_path s s' r Hscan)
    as (working & label & config_name & s2 & s3 & details & s4
        & _ & _ & _ & Hcfg & _ & _ & _ & _ & Hext & Hdone).
  destruct (extract_ticket_details_inv working config_name s3 s4 details Hext)
    as (config & Hconfig & Hnames & _).
  destruct (complete_scan_returns config_name details s4)
    as (r0 & s0 & Hrun & _ & Hname & _ & _ & Hgenerated).
  rewrite Hdone in Hrun. injection Hrun as <- <-.
  rewrite Hname in Hused.
  assert (Hfields : config = get_trainline_configuration).
  { revert Hconfig. rewrite Hcfg, Hdefault. unfold resolve_config_name.
    destruct Hused as [-> | ->]; vm_compute; congruence. }
  subst config.
  assert (Hnone : details !! "ticket_reference" = None).
  { apply not_elem_of_dom. intros Hin. apply Hnames in Hin.
    vm_compute in Hin. discriminate. }
  destruct (Hgenerated Hnone) as (Hflag & Href & Hconf).
  split; [exact Hflag |]. split; [exact Hconf |]. exists details. auto.
Qed.

End ScanProperties.

Section ScanEffects.
Context `{E : Externals}.

(** X5. No debug, no files. With debugging off a scan writes no debug file,
    whatever its outcome, and debugging stays off. *)
Theorem scan_without_debug_writes_nothing (image_path : string) (s : scanner) :
  debug_roi s = false ->
  written (scan image_path s).2 = written s /\ debug_roi (scan image_path s).2 = false.
Proof.
  intros Hoff.
  pose proof (scan_preserves (fun s' => debug_roi s' = false /\ written s' = written s))
    as Hkeep.
  destruct (Hkeep ltac:(cbn; intros ? ? [? ?] ?; congruence) ltac:(cbn; auto)
              ltac:(cbn; auto) ltac:(cbn; auto) ltac:(cbn; auto) ltac:(cbn; auto)
              ltac:(cbn; auto) image_path s (conj Hoff eq_refl)) as [Hd Hw].
  auto.
Qed.

(** X6. What a scan never touches. A scan leaves the configurations, the
    debug flag and the debug directory of the scanner as they are, whatever
    its outcome. *)
Theorem scan_keeps_settings (image_path : string) (s : scanner) :
  configurations (scan image_path s).2 = configurations s
  /\ debug_roi (scan image_path s).2 = debug_roi s
  /\ debug_dir (scan image_path s).2 = debug_dir s.
Proof.
  pose proof (scan_preserves
                (fun s' => configurations s' = configurations s
                           /\ debug_roi s' = debug_roi s /\ debug_dir s' = debug_dir s))
    as Hkeep.
  apply Hkeep; cbn; auto.
Qed.

(** X7. The confidence mapping is never reset. Every name that the
    confidence mapping of the scanner has before a scan is still a name of
    the confidence mapping of the record: a scanner used twice reports the
    names of the first scan in the second. *)
Theorem scan_keeps_confidence_names (image_path : string) (s s' : scanner)
    (r : scan_result) :
  scan image_path s = (Return r, s') ->
  dom (confidence_scores s) ⊆ dom (confidence r).
Proof.
  intros Hscan.
  pose proof (scan_preserves
                (fun s1 => dom (confidence_scores s) ⊆ dom (confidence_scores s1)))
    as Hkeep.
  assert (Hdom : dom (confidence_scores s) ⊆ dom (confidence_scores s')).
  { replace s' with (scan image_path s).2 by now rewrite Hscan.
    apply Hkeep; cbn; auto. intros s1 k c H. rewrite dom_insert_L. set_solver. }
  destruct (scan_returns_stages image_path s s' r Hscan)
    as (working & label & config_name & s2 & s3 & details & s4
        & _ & _ & _ & _ & _ & _ & _ & _ & _ & Hdone).
  destruct (complete_scan_cases config_name details s4 s' r Hdone) as (_ & _ & Hconf & _).
  now rewrite <- Hconf.
Qed.

(** X8. What the entry point prints. The output is the record with the
    single key "error", or the record with the four keys [ticket_type],
    [configuration_used], [data] and [confidence], in which the ticket type
    is "paper" or "digital" and the configuration name is one of the six
    names of the selector. *)
Theorem main_output_shape (image_path : string) (debug : bool) (dir : string) :
  (exists message, main image_path debug dir = JObj [("error", JStr message)])
  \/ (exists label config_name members scores,
        main image_path debug dir
        = JObj [("ticket_type", JStr label); ("configuration_used", JStr config_name);
                ("data", JObj members); ("confidence", JObj scores)]
        /\ (label = "paper" \/ label = "digital")
        /\ In config_name
             ["gwr"; "lner"; "tfl"; "avanti"; "trainline_app"; "generic_digital"]
        /\ In "ticket_reference" (map fst members)
        /\ In "ticket_reference" (map fst scores)).
Proof.
  unfold main.
  destruct (scan image_path (new_scanner None debug dir)) as [[r|e] s'] eqn:Hscan.
  - right.
    destruct (scan_returns_stages image_path _ s' r Hscan)
      as (working & label & config_name & s2 & s3 & details & s4
          & Hlabel & Hin & _ & _ & _ & _ & _ & Hkept & Hext & Hdone).
    destruct (extract_ticket_details_inv working config_name s3 s4 details Hext)
      as (config & _ & _ & Hcovered).
    destruct (complete_scan_returns config_name details s4)
      as (r0 & s0 & Hrun & Hrtype & Hname & [v Hdata] & Hscore & _).
    rewrite Hdone in Hrun. injection Hrun as <- <-.
    destruct (Hscore Hcovered) as [c Hconf].
    assert (Htype : result_ticket_type r = Some "paper"
                    \/ result_ticket_type r = Some "digital").
    { rewrite Hrtype, Hkept. destruct Hlabel as [-> | ->]; auto. }
    rewrite <- Hname in Hin. clear Hname.
    unfold json_of_result.
    assert (Hkeys : forall (A : Type) (f : A -> json) (m : gmap string A) (a : A),
              m !! "ticket_reference" = Some a ->
              In "ticket_reference" (map fst (prod_map id f <$> map_to_list m))).
    { intros A f m a Hm. apply elem_of_map_to_list in Hm.
      apply list_elem_of_In in Hm. apply in_map_iff.
      exists ("ticket_reference", f a). split; [reflexivity |].
      apply in_map_iff. exists ("ticket_reference", a). split; [reflexivity | exact Hm]. }
    destruct Htype as [Htype | Htype]; rewrite Htype;
      eexists _, _, _, _; (split; [reflexivity |]); eauto 10.
  - left. eauto.
Qed.

End ScanEffects.

Section FieldProperties.
Context `{E : Externals}.

(** X9. A field whose crop is empty. The field is passed over: no text is
    read, no pattern is searched, no debug file is written for it, and the
    extracted values and the confidence mapping stay as they are. *)
Theorem empty_crop_skips_field (img : image) (i : nat) (field : TicketField)
    (r : pynum * pynum * pynum * pynum) (b : Z * Z * Z * Z)
    (details : gmap string string) (s : scanner) :
  region field = Some r ->
  roi_bounds r (img_width img) (img_height img) = Return b ->
  roi_size img b = 0%Z ->
  process_field img i field details s = (Return details, s).
Proof.
  intros Hregion Hbounds Hempty. unfold process_field, field_text, bind, lift.
  rewrite Hregion, Hbounds.
  destruct b as [[[x1 y1] x2] y2].
  now rewrite Hempty.
Qed.

(** X10. A field that nothing matches. When no pattern of the field matches
    its text, and the text is empty, or the name already has a value, or no
    cleaned pattern has an occurrence that ends before the end of the text,
    the field adds nothing: the extracted values and the confidence mapping
    stay as they are. *)
Theorem unmatched_field_is_absent (img : image) (i : nat) (field : TicketField)
    (details : gmap string string) (s : scanner) (text : string) :
  (field_text img i field s).1 = Return (Some text) ->
  Forall (fun p => re_search p text search_flags = None) (patterns field) ->
  text = "" \/ is_Some (details !! name field)
  \/ Forall (fun p => fuzzy_stop p text = None) (patterns field) ->
  exists s',
    process_field img i field details s = (Return details, s')
    /\ confidence_scores s' = confidence_scores s.
Proof.
  intros Htext Hnone Hwhy.
  destruct (field_text_outcome img i field s) as (s1 & Hrun & (_ & _ & Hconf1 & _) & _).
  rewrite Hrun in Htext. cbn [fst] in Htext.
  destruct (debug_write_returns "_all_roi.jpg" s1) as (s2 & Hwrite & (_ & _ & Hconf2 & _) & _).
  destruct (try_patterns_no_match (name field) (patterns field) text details s2 Hnone)
    as (s3 & Htry & Hconf3 & _).
  exists s3. unfold process_field, bind. rewrite Hrun, Htext, Hwrite, Htry.
  split; [| congruence].
  destruct Hwhy as [-> | [[v Hv] | Hfuzzy]].
  - rewrite (bool_decide_eq_true_2 ("" = "") eq_refl). cbn [negb]. now rewrite andb_false_r.
  - rewrite bool_decide_eq_false_2 by congruence. reflexivity.
  - destruct (bool_decide (details !! name field = None) && negb (bool_decide (text = "")));
      [now apply fuzzy_patterns_no_hit | reflexivity].
Qed.

(** X11. The names of an extraction. The extraction runs over the
    configuration of the resolved name; every name it extracts is the name
    of a field of that configuration and has a confidence. *)
Theorem extracted_names_are_field_names (img : image) (config_name : string)
    (s s' : scanner) (details : gmap string string) :
  extract_ticket_details img config_name s = (Return details, s') ->
  exists config,
    configurations s !! resolve_config_name (configurations s) config_name = Some config
    /\ dom details ⊆ field_names config
    /\ dom details ⊆ dom (confidence_scores s').
Proof.
  intros Hrun.
  destruct (extract_ticket_details_cases img config_name s)
    as [[_ Hraise] | (config & s1 & Hconfig & _ & Hfields)]; [congruence |].
  rewrite Hfields in Hrun.
  destruct (extract_fields_names img config 0 ∅ details s1 s' Hrun) as (Hnames & Hcovered).
  exists config. split; [exact Hconfig |]. rewrite dom_empty_L in *.
  split.
  - intros k Hk. specialize (Hnames k Hk). apply elem_of_union in Hnames as [H | H];
      [now apply elem_of_empty in H | exact H].
  - apply Hcovered. intros k Hk. now apply elem_of_empty in Hk.
Qed.

End FieldProperties.

(** ** The classifier as a decision table *)

Lemma paper_decision_score (orange textured skewed shaded qr phrase : bool) :
  (5 <? exact_score_tenths orange textured skewed shaded qr phrase)%Z
  = paper_decision orange textured skewed shaded qr phrase.
Proof. now destruct orange, textured, skewed, shaded, qr, phrase. Qed.

Section Decision.
Context `{E : Externals}.

Lemma classifier_label (img : image) (s : scanner) :
  debug_roi s = false \/ is_Some (hough_angles img) ->
  (determine_ticket_type img s).1
  = Return (if paper_decision (orange_test img) (texture_test img) (skewed_test img)
                 (shadow_test img) (qr_detected img) (phrase_test img)
            then "paper" else "digital").
Proof.
  intros Hok. destruct (determine_ticket_type_returns img s Hok) as (s2 & ->).
  cbn [fst]. f_equal.
  destruct (spec_features_tests img) as (Ho & Ht & Hp & Hs).
  unfold spec_score. rewrite Ho, Ht, Hp, Hs.
  change (digital_elements (spec_features img))
    with ((if qr_detected img then 1 else 0) + (if phrase_test img then 2 else 0))%float.
  rewrite weighted_score_exact, paper_decision_score. reflexivity.
Qed.

(** X12. The label as a table. When the classifier returns, the label is
    "paper" exactly when the text has no wallet phrase and, without a QR
    code, at least one of the four paper features is set, or, with a QR
    code, the orange bar and two of the three others are set. *)
Theorem classifier_decision_table (img : image) (s : scanner) :
  debug_roi s = false \/ is_Some (hough_angles img) ->
  ((determine_ticket_type img s).1 = Return "paper"
   <-> phrase_test img = false
       /\ (if qr_detected img
           then orange_test img = true
                /\ at_least_two (texture_test img) (skewed_test img) (shadow_test img) = true
           else orange_test img = true \/ texture_test img = true
                \/ skewed_test img = true \/ shadow_test img = true))
  /\ ((determine_ticket_type img s).1 = Return "paper"
      \/ (determine_ticket_type img s).1 = Return "digital").
Proof.
  intros Hok. rewrite (classifier_label img s Hok). unfold paper_decision.
  destruct (phrase_test img), (qr_detected img), (orange_test img), (texture_test img),
    (skewed_test img), (shadow_test img); cbn; split; try (now right); try (now left);
    split; try discriminate; intuition (try discriminate; auto).
Qed.

(** X13. A wallet phrase decides. When the text of the image has one of the
    wallet phrases, in any case, the classifier returns "digital" whatever
    the other features are: the four paper weights add up to 4.0 and the
    phrase alone takes 4.0 off. *)
Theorem wallet_phrase_is_digital (img : image) (s : scanner) :
  debug_roi s = false \/ is_Some (hough_angles img) ->
  Py.any_in wallet_phrases (Py.lower (image_to_string img)) = true ->
  (determine_ticket_type img s).1 = Return "digital".
Proof.
  intros Hok Hphrase. rewrite (classifier_label img s Hok).
  unfold paper_decision, phrase_test. now rewrite Hphrase.
Qed.

End Decision.

(** ** The regions of the default configurations *)

Lemma axis_span_grows (a b : pynum) (n0 n : Z) (c : Q) :
  valid_axis a b -> (n0 <= n)%Z -> (c <= axis_span a b n0)%Q -> (c <= axis_span a b n)%Q.
Proof.
  intros (va & vb & Ha & Hb & H0 & Hlt & H1) Hn. unfold axis_span.
  rewrite Ha, Hb. unfold default. cbn [from_option id]. intros Hc.
  eapply Qle_trans; [exact Hc |].
  apply Qmult_le_l; [lra |]. now rewrite <- Zle_Qle.
Qed.

(** Every field of the default configurations has a region with valid
    ratios, more than a pixel wide on 8 columns and more than a pixel high
    on 51 rows; on 50 rows its two vertical bounds differ. *)
Lemma default_regions :
  Forall (fun field =>
            exists x1 y1 x2 y2 lo hi,
              region field = Some (x1, y1, x2, y2)
              /\ valid_region (x1, y1, x2, y2)
              /\ (pixel_and_more <= axis_span x1 x2 8)%Q
              /\ (pixel_and_more <= axis_span y1 y2 51)%Q
              /\ scale y1 50 = Return lo /\ scale y2 50 = Return hi /\ (lo < hi)%Z)
         default_fields.
Proof.
  unfold default_fields, generic_configuration, gwr_configuration,
    get_trainline_configuration. cbn [app].
  repeat (constructor;
          [eexists _, _, _, _, _, _; split; [reflexivity |];
           split; [split; (eexists _, _; split; [reflexivity |]; split; [reflexivity |];
                           vm_compute; repeat split; try reflexivity; intro; discriminate) |];
           split; [vm_compute; intro; discriminate |];
           split; [vm_compute; intro; discriminate |];
           split; [vm_compute; reflexivity |];
           split; [vm_compute; reflexivity |]; reflexivity |]).
  constructor.
Qed.

Section Regions.
Context `{E : Externals}.

(** A field whose bounds lie in the image and are apart has a text. *)
Lemma field_text_of_bounds (img : image) (i : nat) (field : TicketField)
    (r : pynum * pynum * pynum * pynum) (rx1 ry1 rx2 ry2 : Z) (s : scanner) :
  region field = Some r ->
  roi_bounds r (img_width img) (img_height img) = Return (rx1, ry1, rx2, ry2) ->
  (0 <= rx1 /\ rx1 < rx2 /\ rx2 <= img_width img)%Z ->
  (0 <= ry1 /\ ry1 < ry2 /\ ry2 <= img_height img)%Z ->
  match img_channels img with Some c => (0 < c)%Z | None => True end ->
  exists roi, (field_text img i field s).1 = Return (Some (image_to_string roi)).
Proof.
  intros Hregion Hbounds Hx Hy Hc.
  destruct (field_text_outcome img i field s) as (s' & -> & _). cbn [fst].
  unfold field_input. rewrite Hregion, Hbounds. cbn [outcome_bind].
  unfold roi_size. rewrite !slice_len_inside by lia.
  match goal with
  | |- context [(?sz =? 0)%Z] => replace (sz =? 0)%Z with false
  end.
  - eexists. reflexivity.
  - symmetry. apply Z.eqb_neq.
    apply Z.neq_mul_0. split; [apply Z.neq_mul_0; split; lia |].
    destruct (img_channels img); lia.
Qed.

(** X14. The default regions. Every field of the default configurations has a
    region with valid ratios, and on an image at least 8 pixels wide and 50
    pixels high (and less than [2 ^ 31] pixels each way) every one of them
    has a crop that is not empty, with the bounds computed in binary64 as
    the source computes them: no field is passed over, whatever the
    configuration. *)
Theorem default_fields_are_read (img : image) (i : nat) (field : TicketField) (s : scanner) :
  In field default_fields ->
  (8 <= img_width img < 2 ^ 31)%Z -> (50 <= img_height img < 2 ^ 31)%Z ->
  match img_channels img with Some c => (0 < c)%Z | None => True end ->
  (exists r, region field = Some r /\ valid_region r)
  /\ (exists roi, (field_text img i field s).1 = Return (Some (image_to_string roi))).
Proof.
  intros Hin Hw Hh Hc.
  pose proof (proj1 (List.Forall_forall _ _) default_regions field Hin)
    as (x1 & y1 & x2 & y2 & lo & hi & Hregion & Hvalid & Hsx & Hsy & Hlo & Hhi & Hlohi).
  split; [eauto |].
  destruct Hvalid as [Hvx Hvy].
  destruct (scale_ordered x1 x2 (img_width img) Hvx ltac:(lia))
    as (rx1 & rx2 & Hx1 & Hx2 & Hx0 & Hxle & Hxw & Hxwide).
  destruct (scale_ordered y1 y2 (img_height img) Hvy ltac:(lia))
    as (ry1 & ry2 & Hy1 & Hy2 & Hy0 & Hyle & Hyh & Hywide).
  assert (Hxlt : (rx1 < rx2)%Z).
  { apply Hxwide. apply (axis_span_grows x1 x2 8); [exact Hvx | lia | exact Hsx]. }
  assert (Hylt : (ry1 < ry2)%Z).
  { destruct (Z.eq_dec (img_height img) 50%Z) as [H50 | H50].
    - rewrite H50 in Hy1, Hy2. congruence.
    - apply Hywide. apply (axis_span_grows y1 y2 51); [exact Hvy | lia | exact Hsy]. }
  apply (field_text_of_bounds img i field (x1, y1, x2, y2) rx1 ry1 rx2 ry2 s);
    try assumption; try lia.
  unfold roi_bounds. rewrite Hx1, Hy1, Hx2, Hy2. reflexivity.
Qed.

End Regions.

(** ** The timestamp of a synthesized reference *)

Section Timestamp.
Context `{E : Externals}.

(** X15. The six digits of the timestamp. From the time 100000 on, the
    timestamp part of a synthesized reference is made of the six low
    decimal digits of the time, the highest first. *)
Theorem timestamp_suffix_digits :
  (100000 <= time_now)%Z ->
  timestamp_suffix
  = String (decimal_digit time_now 5) (String (decimal_digit time_now 4)
      (String (decimal_digit time_now 3) (String (decimal_digit time_now 2)
         (String (decimal_digit time_now 1) (String (decimal_digit time_now 0) ""))))).
Proof. intros Hn. now apply last_six_low_digits. Qed.

(** X16. A time of fewer than six digits. Before the time 100000 the
    timestamp part of a synthesized reference is the whole decimal writing
    of the time: five characters at most, which read as a decimal number
    give the time back. The reference then has fewer than six digits after
    its last hyphen. *)
Theorem timestamp_suffix_short :
  (0 <= time_now < 100000)%Z ->
  timestamp_suffix = Py.str_of_int time_now
  /\ (String.length timestamp_suffix <= 5)%nat
  /\ digits_value timestamp_suffix 0%Z = time_now.
Proof.
  intros Hn. unfold timestamp_suffix.
  assert (Hlen : (String.length (Py.str_of_int time_now) <= 5)%nat).
  { unfold Py.str_of_int. rewrite (proj2 (Z.ltb_ge time_now 0)) by lia.
    apply (digits_acc_short 4). change (10 ^ Z.of_nat 5)%Z with 100000%Z. lia. }
  rewrite last_chars_short by lia.
  split; [reflexivity |]. split; [exact Hlen | apply str_of_int_value; lia].
Qed.

End Timestamp.

(** ** The fuzzy fallback: cleaned patterns and stored values *)

(** X17. The cleaning of a pattern. The first removal deletes every "+", so
    the removal of the digit token and the replacement of the whitespace
    token that follow it never change anything: a cleaned pattern is the
    pattern without its thirteen special characters, trimmed, and it has
    none of these characters. *)
Theorem clean_pattern_removes_specials (pattern : string) :
  clean_pattern pattern = Py.strip (Py.remove_chars is_regex_special pattern)
  /\ forall c, is_regex_special c = true -> has_char c (clean_pattern pattern) = false.
Proof.
  assert (Hplus : has_char "+" (Py.remove_chars is_regex_special pattern) = false)
    by now apply has_char_remove_chars.
  assert (Heq : clean_pattern pattern = Py.strip (Py.remove_chars is_regex_special pattern)).
  { unfold clean_pattern. cbv zeta.
    change "\d+"%string with (String "\" (String "d" (String "+" ""))).
    rewrite (replace_without_last_char "\" "d" "+" "" _ Hplus).
    change "\s+"%string with (String "\" (String "s" (String "+" ""))).
    now rewrite (replace_without_last_char "\" "s" "+" " " _ Hplus). }
  split; [exact Heq |].
  intros c Hc. rewrite Heq.
  destruct (has_char c (Py.strip (Py.remove_chars is_regex_special pattern))) eqn:H;
    [| reflexivity].
  apply has_char_strip in H. now rewrite has_char_remove_chars in H.
Qed.

Section FuzzyValue.
Context `{E : Externals}.

(** X18. What the fuzzy fallback stores. The loop leaves everything as it
    is, or gives the field one value with confidence 0.6; this value has at
    most thirty characters and no newline. *)
Theorem fuzzy_value_is_short (field_name : string) (ps : list string) (text : string)
    (details : gmap string string) (s : scanner) :
  exists details' s',
    fuzzy_patterns field_name ps text details s = (Return details', s')
    /\ ((details' = details /\ s' = s)
        \/ (exists v,
              details' = <[field_name := v]> details
              /\ confidence_scores s' = <[field_name := 0.6%float]> (confidence_scores s)
              /\ (String.length v <= 30)%nat
              /\ has_char newline v = false)).
Proof.
  destruct (fuzzy_patterns_shape field_name ps text details s)
    as (details' & s' & Hrun & Hshape).
  exists details', s'. split; [exact Hrun |].
  destruct Hshape as [(-> & -> & _) | (p & stop & _ & _ & -> & Hconf)]; [now left |].
  right. eexists. split; [reflexivity |]. split; [exact Hconf |]. split.
  - pose proof (length_strip (Py.first_line (Py.slice stop 30 text))).
    pose proof (length_first_line (Py.slice stop 30 text)).
    pose proof (length_substring stop 30 text). unfold Py.slice in *. lia.
  - destruct (has_char newline (Py.strip (Py.first_line (Py.slice stop 30 text)))) eqn:H;
      [| reflexivity].
    apply has_char_strip in H. now rewrite first_line_no_newline in H.
Qed.

End FuzzyValue.

(** ** Debugging and the results *)

Section Agreement.
Context `{E : Externals}.

Lemma agree_ret {A : Type} (a : A) : agree (ret a) (ret a).
Proof. intros s1 s2 a1 a2 t1 t2 Hv [= <- <-] [= <- <-]. now split. Qed.

Lemma agree_raise_l {A : Type} (e : exn) (m : M A) : agree (raise e) m.
Proof. intros s1 s2 a1 a2 t1 t2 Hv [=]. Qed.

Lemma agree_raise_r {A : Type} (e : exn) (m : M A) : agree m (raise e).
Proof. intros s1 s2 a1 a2 t1 t2 Hv _ [=]. Qed.

Lemma agree_lift {A : Type} (o : outcome A) : agree (lift o) (lift o).
Proof. intros s1 s2 a1 a2 t1 t2 Hv [= -> <-] [= [= <-] <-]. now split. Qed.

Lemma agree_bind {A B : Type} (m1 m2 : M A) (k1 k2 : A -> M B) :
  agree m1 m2 -> (forall a, agree (k1 a) (k2 a)) -> agree (bind m1 k1) (bind m2 k2).
Proof.
  intros Hm Hk s1 s2 b1 b2 t1 t2 Hv H1 H2.
  apply bind_returns in H1 as (a1 & u1 & Hm1 & Hk1).
  apply bind_returns in H2 as (a2 & u2 & Hm2 & Hk2).
  destruct (Hm s1 s2 a1 a2 u1 u2 Hv Hm1 Hm2) as [<- Hu].
  exact (Hk a1 u1 u2 b1 b2 t1 t2 Hu Hk1 Hk2).
Qed.

Lemma agree_get_bind {B : Type} (k1 k2 : scanner -> M B) :
  (forall s1 s2, view s1 = view s2 -> agree (k1 s1) (k2 s2)) ->
  agree (bind get k1) (bind get k2).
Proof.
  intros Hk s1 s2 b1 b2 t1 t2 Hv. unfold bind, get. now apply Hk.
Qed.

Lemma agree_modify (f : scanner -> scanner) :
  (forall s1 s2, view s1 = view s2 -> view (f s1) = view (f s2)) ->
  agree (modify f) (modify f).
Proof. intros Hf s1 s2 a1 a2 t1 t2 Hv [= <- <-] [= <- <-]. split; [reflexivity | now apply Hf]. Qed.

Lemma agree_debug_write (suffix : string) : agree (debug_write suffix) (debug_write suffix).
Proof.
  intros s1 s2 a1 a2 t1 t2 Hv. unfold debug_write.
  destruct (debug_roi s1), (debug_roi s2); intros [= <- <-] [= <- <-];
    split; try reflexivity; exact Hv.
Qed.

Lemma agree_record_search (pattern text : string) (flags : Z) :
  agree (record_search pattern text flags) (record_search pattern text flags).
Proof.
  apply agree_modify. intros s1 s2 Hv.
  apply view_inv in Hv as (H1 & H2 & H3 & H4 & H5 & H6). unfold view. cbn. congruence.
Qed.

Lemma agree_set_confidence (field_name : string) (c : float) :
  agree (set_confidence field_name c) (set_confidence field_name c).
Proof.
  apply agree_modify. intros s1 s2 Hv.
  apply view_inv in Hv as (H1 & H2 & H3 & H4 & H5 & H6). unfold view. cbn. congruence.
Qed.

Lemma agree_set_extracted_data (f : gmap string pyval -> gmap string pyval) :
  agree (modify (fun s => set_extracted_data (f (extracted_data s)) s))
        (modify (fun s => set_extracted_data (f (extracted_data s)) s)).
Proof.
  apply agree_modify. intros s1 s2 Hv.
  apply view_inv in Hv as (H1 & H2 & H3 & H4 & H5 & H6). unfold view. cbn. congruence.
Qed.

Ltac agreement :=
  repeat first
    [ apply agree_ret
    | apply agree_raise_l
    | apply agree_lift
    | apply agree_debug_write
    | apply agree_record_search
    | apply agree_set_confidence
    | apply agree_bind; [| intros ?]
    | match goal with
      | |- agree (match ?x with _ => _ end) (match ?x with _ => _ end) => destruct x
      | |- agree (if ?b then _ else _) (if ?b then _ else _) => destruct b
      end ].

(** The classifier: the debug drawing loop can only stop it. *)
Lemma determine_ticket_type_agree (img : image) :
  agree (determine_ticket_type img) (determine_ticket_type img).
Proof.
  unfold determine_ticket_type, extract_features. cbv zeta.
  apply agree_bind; [| intros features; agreement].
  apply agree_bind; [apply agree_debug_write | intros _].
  apply agree_bind; [apply agree_debug_write | intros _].
  apply agree_bind; [apply agree_debug_write | intros _].
  apply agree_bind; [apply agree_debug_write | intros _].
  apply agree_bind; [| intros features; agreement].
  unfold perspective_feature. destruct (hough_angles img) as [angles|]; [apply agree_ret |].
  apply agree_get_bind. intros s1 s2 _.
  destruct (debug_roi s1); [apply agree_raise_l |].
  destruct (debug_roi s2); [apply agree_raise_r | apply agree_ret].
Qed.

Lemma preprocess_image_agree (img : image) :
  agree (preprocess_image img) (preprocess_image img).
Proof.
  unfold preprocess_image. apply agree_get_bind. intros s1 s2 Hv.
  apply view_inv in Hv as (_ & Htype & _). unfold is_paper. rewrite Htype.
  unfold preprocess_paper. agreement.
Qed.

Lemma crop_ticket_agree (img : image) : agree (crop_ticket img) (crop_ticket img).
Proof.
  unfold crop_ticket.
  apply agree_bind; [apply agree_debug_write | intros _].
  destruct (find_contours img) as [|c0 cs]; [apply agree_ret |]. cbv zeta.
  apply agree_bind; [apply agree_debug_write | intros _].
  apply agree_get_bind. intros s1 s2 Hv.
  apply view_inv in Hv as (_ & Htype & _). unfold is_paper. rewrite Htype.
  apply agree_bind; [apply agree_lift | intros found].
  destruct found as [[[[x y] w] h]|]; [agreement |].
  destruct (bounding_rect (hd c0 (sorted_by_area (c0 :: cs)))) as [[[x y] w] h].
  agreement.
Qed.

Lemma select_configuration_agree (img : image) :
  agree (select_configuration img) (select_configuration img).
Proof. unfold select_configuration. cbv zeta. agreement. Qed.

Lemma field_text_agree (img : image) (i : nat) (field : TicketField) :
  agree (field_text img i field) (field_text img i field).
Proof.
  unfold field_text. destruct (region field) as [r|]; [| apply agree_ret].
  apply agree_bind; [apply agree_lift | intros [[[x1 y1] x2] y2]]. cbv zeta.
  agreement.
Qed.

Lemma try_patterns_agree (field_name : string) (ps : list string) (text : string)
    (details : gmap string string) :
  agree (try_patterns field_name ps text details) (try_patterns field_name ps text details).
Proof.
  induction ps as [|p ps IH]; cbn [try_patterns]; [apply agree_ret |].
  apply agree_bind; [apply agree_record_search | intros _].
  destruct (re_search p text search_flags); [agreement | exact IH].
Qed.

Lemma fuzzy_patterns_agree (field_name : string) (ps : list string) (text : string)
    (details : gmap string string) :
  agree (fuzzy_patterns field_name ps text details)
        (fuzzy_patterns field_name ps text details).
Proof.
  induction ps as [|p ps IH]; [apply agree_ret |].
  rewrite fuzzy_patterns_step. destruct (fuzzy_stop p text); [agreement | exact IH].
Qed.

Lemma process_field_agree (img : image) (i : nat) (field : TicketField)
    (details : gmap string string) :
  agree (process_field img i field details) (process_field img i field details).
Proof.
  unfold process_field.
  apply agree_bind; [apply field_text_agree | intros [text|]]; [| apply agree_ret].
  apply agree_bind; [apply agree_debug_write | intros _].
  apply agree_bind; [apply try_patterns_agree | intros details'].
  destruct (bool_decide (details' !! name field = None) && negb (bool_decide (text = "")));
    [apply fuzzy_patterns_agree | apply agree_ret].
Qed.

Lemma extract_fields_agree (img : image) (config : list TicketField) (i : nat)
    (details : gmap string string) :
  agree (extract_fields img i config details) (extract_fields img i config details).
Proof.
  revert i details. induction config as [|field config IH]; intros i details;
    cbn [extract_fields]; [apply agree_ret |].
  apply agree_bind; [apply process_field_agree | intros details'; apply IH].
Qed.

Lemma extract_ticket_details_agree (img : image) (config_name : string) :
  agree (extract_ticket_details img config_name) (extract_ticket_details img config_name).
Proof.
  unfold extract_ticket_details. apply agree_get_bind. intros s1 s2 Hv.
  apply view_inv in Hv as (-> & _). cbv zeta.
  destruct (configurations s2 !! resolve_config_name (configurations s2) config_name);
    [| apply agree_raise_l].
  apply agree_bind; [apply agree_debug_write | intros _].
  apply extract_fields_agree.
Qed.

Lemma generate_ticket_reference_agree :
  agree generate_ticket_reference generate_ticket_reference.
Proof.
  unfold generate_ticket_reference. apply agree_get_bind. intros s1 s2 Hv.
  apply view_inv in Hv as (_ & _ & -> & _).
  apply agree_bind; [| intros origin].
  { unfold ref_token. destruct (extracted_data s2 !! "origin_code");
      [apply agree_ret |].
    destruct (extracted_data s2 !! "origin_station") as [[station|b]|];
      [apply agree_ret | apply agree_raise_l | apply agree_ret]. }
  apply agree_bind; [| intros destination].
  { unfold ref_token. destruct (extracted_data s2 !! "destination_code");
      [apply agree_ret |].
    destruct (extracted_data s2 !! "destination_station") as [[station|b]|];
      [apply agree_ret | apply agree_raise_l | apply agree_ret]. }
  cbv zeta.
  apply agree_bind; [| intros reference].
  { unfold join_values. destruct (str_items _); [apply agree_ret | apply agree_raise_l]. }
  apply agree_bind;
    [apply (agree_set_extracted_data (fun d => <["ticket_reference" := _]> d))
    | intros _].
  apply agree_bind;
    [apply (agree_set_extracted_data (fun d => <["is_reference_generated" := _]> d))
    | intros _].
  apply agree_set_confidence.
Qed.

Lemma complete_scan_agree (config_name : string) (details : gmap string string) :
  agree (complete_scan config_name details) (complete_scan config_name details).
Proof.
  unfold complete_scan.
  apply agree_bind; [| intros _].
  { apply (agree_set_extracted_data (fun _ => PStr <$> details)). }
  apply agree_get_bind. intros s1 s2 Hv.
  apply view_inv in Hv as (_ & _ & -> & _).
  apply agree_bind; [| intros _].
  - destruct (extracted_data s2 !! "ticket_reference");
      [apply agree_ret | apply generate_ticket_reference_agree].
  - apply agree_get_bind. intros u1 u2 Hu.
    apply view_inv in Hu as (_ & -> & -> & -> & _). apply agree_ret.
Qed.

Lemma scan_agree (image_path : string) : agree (scan image_path) (scan image_path).
Proof.
  unfold scan.
  destruct (imread image_path) as [original|] eqn:Hread; [| apply agree_raise_l].
  apply agree_bind; [| intros _].
  { apply agree_modify. intros s1 s2 Hv. exact Hv. }
  apply agree_bind; [apply determine_ticket_type_agree | intros label].
  apply agree_bind; [| intros _].
  { apply agree_modify. intros s1 s2 Hv.
    apply view_inv in Hv as (H1 & H2 & H3 & H4 & H5 & H6). unfold view. cbn. congruence. }
  apply agree_bind; [apply preprocess_image_agree | intros preprocessed].
  apply agree_bind; [| intros _].
  { apply agree_modify. intros s1 s2 Hv.
    apply view_inv in Hv as (H1 & H2 & H3 & H4 & H5 & H6). unfold view. cbn. congruence. }
  apply agree_bind; [apply crop_ticket_agree | intros cropped].
  apply agree_bind; [| intros working].
  { destruct cropped; [| apply agree_ret].
    apply agree_bind; [apply agree_debug_write | intros _; apply agree_ret]. }
  apply agree_bind; [apply select_configuration_agree | intros config_name].
  apply agree_bind; [apply extract_ticket_details_agree | intros details].
  apply complete_scan_agree.
Qed.

(** X19. Debugging and the output. Two scans of the same path by scanners
    that differ by their debug settings or their debug traces only, when
    both return, return the same record and leave scanners that again
    differ by these only. What the entry point prints with two debug
    settings is the same, unless one of the outputs is an error record. *)
Theorem output_independent_of_debug (image_path : string) :
  agree (scan image_path) (scan image_path)
  /\ (forall debug1 dir1 debug2 dir2,
        main image_path debug1 dir1 = main image_path debug2 dir2
        \/ is_error_record (main image_path debug1 dir1)
        \/ is_error_record (main image_path debug2 dir2)).
Proof.
  pose proof (scan_agree image_path) as Hagree.
  split; [exact Hagree |].
  intros debug1 dir1 debug2 dir2. unfold main, is_error_record.
  destruct (scan image_path (new_scanner None debug1 dir1)) as [[r1|e1] t1] eqn:H1;
    [| right; left; eauto].
  destruct (scan image_path (new_scanner None debug2 dir2)) as [[r2|e2] t2] eqn:H2;
    [| right; right; eauto].
  left.
  destruct (Hagree (new_scanner None debug1 dir1) (new_scanner None debug2 dir2)
              r1 r2 t1 t2 eq_refl H1 H2) as [-> _].
  reflexivity.
Qed.

End Agreement.

(** On a printed ticket on which lines are found the two outputs are the
    same record; on a blank image debugging turns the record into an error
    record. *)
Example debug_output_samples :
  @main printed_world "ticket.jpg" true "debug_roi_images"
  = @main printed_world "ticket.jpg" false "debug_roi_images"
  /\ ~ is_error_record (@main printed_world "ticket.jpg" false "debug_roi_images")
  /\ is_error_record (@main blank_world "ticket.jpg" true "debug_roi_images")
  /\ ~ is_error_record (@main blank_world "ticket.jpg" false "debug_roi_images").
Proof.
  split; [vm_compute; reflexivity |].
  split; [intros [message Hm]; vm_compute in Hm; discriminate |].
  split; [eexists; vm_compute; reflexivity |].
  intros [message Hm]; vm_compute in Hm; discriminate.
Qed.

(** ** The properties on the sample worlds *)

Lemma scan_record_shape_witness :
  let run := @scan reference_world "ticket.jpg"
               (@new_scanner reference_world None false "debug_roi_images") in
  let r := result_of empty_result run.1 in
  (result_ticket_type r = Some "paper" \/ result_ticket_type r = Some "digital")
  /\ In (configuration_used r)
       ["gwr"; "lner"; "tfl"; "avanti"; "trainline_app"; "generic_digital"]
  /\ is_Some (data r !! "ticket_reference")
  /\ is_Some (confidence r !! "ticket_reference").
Proof.
  intros run r.
  apply (@scan_record_shape reference_world "ticket.jpg"
           (@new_scanner reference_world None false "debug_roi_images") run.2 r).
  vm_compute. reflexivity.
Defined.

Lemma scan_without_generic_raises_witness :
  (@scan blank_world "ticket.jpg" (@southeastern_scanner blank_world)).1
  = Raise (KeyError "generic").
Proof.
  apply (@scan_without_generic_raises blank_world "ticket.jpg"
           (@southeastern_scanner blank_world) "").
  - reflexivity.
  - left. reflexivity.
  - vm_compute. reflexivity.
  - intros n [<- | [<- | [<- | [<- | [<- | [<- | []]]]]]]; vm_compute; reflexivity.
Defined.

Lemma trainline_reference_is_synthesized_witness :
  let run := @scan blank_world "ticket.jpg"
               (@new_scanner blank_world None false "debug_roi_images") in
  let r := result_of empty_result run.1 in
  data r !! "is_reference_generated" = Some (PBool true)
  /\ confidence r !! "ticket_reference" = Some 0.5%float
  /\ exists details,
       dom details ⊆ field_names get_trainline_configuration
       /\ data r !! "ticket_reference" = Some (PStr (@reference_of blank_world details)).
Proof.
  intros run r.
  apply (@trainline_reference_is_synthesized blank_world "ticket.jpg"
           (@new_scanner blank_world None false "debug_roi_images") run.2 r).
  - reflexivity.
  - vm_compute. reflexivity.
  - right. vm_compute. reflexivity.
Defined.

Lemma scan_without_debug_writes_nothing_witness :
  let s0 := @new_scanner reference_world None false "debug_roi_images" in
  written (@scan reference_world "ticket.jpg" s0).2 = []
  /\ debug_roi (@scan reference_world "ticket.jpg" s0).2 = false.
Proof.
  intros s0.
  apply (@scan_without_debug_writes_nothing reference_world "ticket.jpg" s0).
  reflexivity.
Defined.

Lemma scan_keeps_confidence_names_witness :
  let s0 := @new_scanner reference_world None false "debug_roi_images" in
  let first := @scan reference_world "ticket.jpg" s0 in
  let second := @scan reference_world "ticket.jpg" first.2 in
  dom (confidence_scores first.2) ⊆ dom (confidence (result_of empty_result second.1)).
Proof.
  intros s0 first second.
  apply (@scan_keeps_confidence_names reference_world "ticket.jpg" first.2 second.2).
  vm_compute. reflexivity.
Defined.

Lemma empty_crop_skips_field_witness :
  let s0 := @new_scanner thumbnail_world None false "debug_roi_images" in
  @process_field thumbnail_world "" 0 ticket_provider_field ∅ s0 = (Return ∅, s0).
Proof.
  intros s0.
  apply (@empty_crop_skips_field thumbnail_world "" 0%nat ticket_provider_field
           (PFloat 0.13, PFloat 0.12, PFloat 0.3, PFloat 0.14) (2, 2, 6, 2)%Z ∅ s0).
  - reflexivity.
  - vm_compute. reflexivity.
  - reflexivity.
Defined.

Lemma unmatched_field_is_absent_witness :
  let s0 := @new_scanner total_world None false "debug_roi_images" in
  exists s',
    @process_field total_world "Total" 0 total_field ∅ s0 = (Return ∅, s')
    /\ confidence_scores s' = ∅.
Proof.
  intros s0.
  apply (@unmatched_field_is_absent total_world "Total" 0%nat total_field ∅ s0 "Total").
  - reflexivity.
  - repeat constructor.
  - right. right. repeat constructor.
Defined.

Lemma extracted_names_are_field_names_witness :
  let s0 := @new_scanner reference_world None false "debug_roi_images" in
  let run := @extract_ticket_details reference_world "Ref: AB-12 " "lner" s0 in
  exists config,
    configurations s0 !! resolve_config_name (configurations s0) "lner" = Some config
    /\ dom (result_of ∅ run.1) ⊆ field_names config
    /\ dom (result_of ∅ run.1) ⊆ dom (confidence_scores run.2).
Proof.
  intros s0 run.
  apply (@extracted_names_are_field_names reference_world "Ref: AB-12 " "lner" s0 run.2).
  vm_compute. reflexivity.
Defined.

Lemma classifier_decision_table_witness :
  (@determine_ticket_type wallet_world "Add to Google Wallet"
     (@new_scanner wallet_world None true "debug_roi_images")).1
  = Return "digital".
Proof.
  destruct (@classifier_decision_table wallet_world "Add to Google Wallet"
              (@new_scanner wallet_world None true "debug_roi_images"))
    as [_ [Hpaper | Hdigital]].
  - right. vm_compute. eauto.
  - exfalso. revert Hpaper. vm_compute. discriminate.
  - exact Hdigital.
Defined.

Lemma wallet_phrase_is_digital_witness :
  (@determine_ticket_type wallet_world "Add to Google Wallet"
     (@new_scanner wallet_world None false "debug_roi_images")).1
  = Return "digital".
Proof.
  apply (@wallet_phrase_is_digital wallet_world "Add to Google Wallet"
           (@new_scanner wallet_world None false "debug_roi_images")).
  - left. reflexivity.
  - vm_compute. reflexivity.
Defined.

Lemma default_fields_are_read_witness :
  let s0 := @new_scanner reference_world None false "debug_roi_images" in
  (exists r, region generic_reference_field = Some r /\ valid_region r)
  /\ (exists roi, (@field_text reference_world "Ref: AB-12 " 5 generic_reference_field s0).1
                  = Return (Some (@image_to_string reference_world roi))).
Proof.
  intros s0.
  apply (@default_fields_are_read reference_world "Ref: AB-12 " 5%nat
           generic_reference_field s0).
  - unfold default_fields, generic_configuration, generic_reference_field. cbn. auto 10.
  - cbn. lia.
  - cbn. lia.
  - cbn. lia.
Defined.

Lemma timestamp_suffix_digits_witness : @timestamp_suffix blank_world = "000042"%string.
Proof.
  rewrite (@timestamp_suffix_digits blank_world); [reflexivity |]. cbn. lia.
Defined.

Lemma timestamp_suffix_short_witness :
  @timestamp_suffix epoch_world = "4242"%string
  /\ (String.length (@timestamp_suffix epoch_world) <= 5)%nat
  /\ digits_value (@timestamp_suffix epoch_world) 0%Z = 4242%Z.
Proof.
  apply (@timestamp_suffix_short epoch_world). cbn. lia.
Defined.

Lemma clean_pattern_removes_specials_witness :
  clean_pattern "(?:Date|Valid)[:\s]+" = ":DateValid:\s"%string
  /\ has_char "+" (clean_pattern "(?:Date|Valid)[:\s]+") = false.
Proof.
  destruct (clean_pattern_removes_specials "(?:Date|Valid)[:\s]+") as [Heq Hnone].
  split; [rewrite Heq; reflexivity | apply Hnone; reflexivity].
Defined.

Lemma extract_ticket_details_is_extraction_witness :
  let s0 := @new_scanner reference_world None false "debug_roi_images" in
  exists s',
    @extract_ticket_details reference_world "Ref: AB-12 " "lner" s0
    = (Return (<["ticket_reference" := "Ref: AB-12"%string]> ∅), s')
    /\ confidence_scores s' = <["ticket_reference" := 1.0%float]> ∅.
Proof.
  intros s0.
  assert (Hext : @extraction reference_world "Ref: AB-12 " generic_configuration ∅
                 = Return (<["ticket_reference" := "Ref: AB-12"%string]> ∅,
                           [("ticket_reference", 1.0%float)]))
    by (vm_compute; reflexivity).
  destruct (@extract_ticket_details_is_extraction reference_world "Ref: AB-12 " "lner" s0
              generic_configuration) as (s' & Hrun & Hconf).
  - vm_compute. reflexivity.
  - exists s'. split.
    + rewrite Hrun, Hext. reflexivity.
    + rewrite (Hconf _ _ Hext). vm_compute. reflexivity.
Defined.

Lemma extraction_is_idempotent_witness :
  let s0 := @new_scanner reference_world None false "debug_roi_images" in
  let first := @extract_ticket_details reference_world "Ref: AB-12 " "lner" s0 in
  exists s2,
    @extract_ticket_details reference_world "Ref: AB-12 " "lner" first.2
    = (Return (result_of ∅ first.1), s2)
    /\ confidence_scores s2 = confidence_scores first.2.
Proof.
  intros s0 first.
  apply (@extraction_is_idempotent reference_world "Ref: AB-12 " "lner" s0).
  vm_compute. reflexivity.
Defined.

